(** * Material Color Utilities (TypeScript): a shallow embedding

    The library's numbers are JavaScript doubles.  They are idealised here
    as real numbers ([R]): every arithmetic operation is exact, and the
    values NaN and +/-Infinity do not exist.  Integers that the source
    manipulates with bit operators (packed ARGB colors, 8-bit channels,
    counts, array indices) are [Z], with the 32-bit conversions of the
    bit operators written out.

    Objects that the source mutates (the [Map] caches) are threaded as
    explicit state.  A JavaScript [Map] is an association list in insertion
    order. *)

From Stdlib Require Import Reals Lra Lia ZArith List String Ascii Bool Arith.
Import ListNotations.

Open Scope R_scope.

(* ===================================================================== *)
(** * The JavaScript operations the library relies on                     *)
(* ===================================================================== *)

Module JS.

(** Comparisons of numbers, as booleans. *)
Definition lt (x y : R) : bool := if Rlt_dec x y then true else false.
Definition le (x y : R) : bool := if Rle_dec x y then true else false.
Definition gt (x y : R) : bool := lt y x.
Definition ge (x y : R) : bool := le y x.
Definition eq (x y : R) : bool := if Req_dec_T x y then true else false.
Definition neq (x y : R) : bool := negb (eq x y).

(** Truncation toward zero, and the remainder operator [%] on numbers:
    the result takes the sign of the dividend. *)
Definition trunc (x : R) : Z := if Rle_dec 0 x then Zfloor x else Zceil x.
Definition rem (a b : R) : R := a - b * IZR (trunc (a / b)).

Definition Math_PI : R := PI.
Definition Math_abs (x : R) : R := Rabs x.
Definition Math_max (x y : R) : R := Rmax x y.
Definition Math_min (x y : R) : R := Rmin x y.
Definition Math_sqrt (x : R) : R := sqrt x.
Definition Math_exp (x : R) : R := exp x.
Definition Math_log (x : R) : R := ln x.
Definition Math_cos (x : R) : R := cos x.
Definition Math_sin (x : R) : R := sin x.
Definition Math_floor (x : R) : Z := Zfloor x.
Definition Math_ceil (x : R) : Z := Zceil x.

(** [Math.round] rounds to the nearest integer, ties toward +infinity. *)
Definition Math_round (x : R) : Z := Zfloor (x + / 2).

(** [Math.pow] on a non-negative base.  (A negative base with a
    fractional exponent is NaN in JavaScript and outside this model.) *)
Definition Math_pow (x y : R) : R :=
  if Rlt_dec 0 x then Rpower x y
  else if Req_dec_T y 0 then 1 else 0.

Definition Math_cbrt (x : R) : R :=
  if Rlt_dec 0 x then Rpower x (/ 3)
  else if Rlt_dec x 0 then - Rpower (- x) (/ 3) else 0.

Definition Math_atan2 (y x : R) : R :=
  if Rlt_dec 0 x then atan (y / x)
  else if Rlt_dec x 0 then
    (if Rle_dec 0 y then atan (y / x) + PI else atan (y / x) - PI)
  else if Rlt_dec 0 y then PI / 2
  else if Rlt_dec y 0 then - (PI / 2) else 0.

(** 32-bit integer conversions and the bit operators. *)
Definition ToInt32 (z : Z) : Z := ((z + 2 ^ 31) mod 2 ^ 32 - 2 ^ 31)%Z.
Definition ToUint32 (z : Z) : Z := (z mod 2 ^ 32)%Z.

Definition shl (a n : Z) : Z := ToInt32 (Z.shiftl (ToInt32 a) (Z.land n 31)).
Definition sar (a n : Z) : Z := Z.shiftr (ToInt32 a) (Z.land n 31).
Definition shr (a n : Z) : Z := Z.shiftr (ToUint32 a) (Z.land n 31).
Definition band (a b : Z) : Z := Z.land (ToInt32 a) (ToInt32 b).
Definition bor (a b : Z) : Z := Z.lor (ToInt32 a) (ToInt32 b).

(** [Map]: an association list in insertion order.  [set] on a key that
    is present replaces the value in place; on a new key it appends. *)
Section Map.
Context {K V : Type} (eqb : K -> K -> bool).

Definition Map := list (K * V).

Fixpoint get (k : K) (m : Map) : option V :=
  match m with
  | [] => None
  | (k', v) :: m' => if eqb k k' then Some v else get k m'
  end.

Definition has (k : K) (m : Map) : bool :=
  match get k m with Some _ => true | None => false end.

Fixpoint set (k : K) (v : V) (m : Map) : Map :=
  match m with
  | [] => [(k, v)]
  | (k', v') :: m' =>
      if eqb k k' then (k', v) :: m' else (k', v') :: set k v m'
  end.

Definition size (m : Map) : nat := List.length m.
Definition clear (m : Map) : Map := [].
End Map.

End JS.

Declare Scope js_scope.
Delimit Scope js_scope with js.
Infix "<?" := JS.lt (at level 70, no associativity) : js_scope.
Infix "<=?" := JS.le (at level 70, no associativity) : js_scope.
Infix ">?" := JS.gt (at level 70, no associativity) : js_scope.
Infix ">=?" := JS.ge (at level 70, no associativity) : js_scope.
Infix "=?" := JS.eq (at level 70, no associativity) : js_scope.
Infix "<<" := JS.shl (at level 32, left associativity) : js_scope.
Infix ">>" := JS.sar (at level 32, left associativity) : js_scope.
Infix ">>>" := JS.shr (at level 32, left associativity) : js_scope.
Infix ".&" := JS.band (at level 40, left associativity) : js_scope.
Infix ".|" := JS.bor (at level 50, left associativity) : js_scope.
Open Scope js_scope.

Import JS.

(** A three-element array of numbers. *)
Definition vec3 : Type := (R * R * R)%type.

Definition at3 (v : vec3) (i : nat) : R :=
  match v, i with
  | (a, _, _), O => a
  | (_, b, _), S O => b
  | (_, _, c), _ => c
  end.

(* ===================================================================== *)
(** * utils/math_utils.ts                                                 *)
(* ===================================================================== *)

Definition signum (num : R) : R :=
  if num <? 0 then -1 else if num =? 0 then 0 else 1.

Definition lerp (start stop amount : R) : R :=
  (1 - amount) * start + amount * stop.

Definition clampInt (min max input : Z) : Z :=
  if (input <? min)%Z then min
  else if (input >? max)%Z then max
  else input.

Definition clampDouble (min max input : R) : R :=
  if input <? min then min
  else if input >? max then max
  else input.

(** [sanitizeDegreesInt], on integers, where [%] is the truncated
    remainder. *)
Definition sanitizeDegreesInt (degrees : Z) : Z :=
  let degrees := Z.rem degrees 360 in
  if (degrees <? 0)%Z then (degrees + 360)%Z else degrees.

Definition sanitizeDegreesDouble (degrees : R) : R :=
  let degrees := rem degrees 360 in
  if degrees <? 0 then degrees + 360 else degrees.

Definition rotationDirection (from to : R) : R :=
  let increasingDifference := sanitizeDegreesDouble (to - from) in
  if increasingDifference <=? 180 then 1 else -1.

Definition differenceDegrees (a b : R) : R :=
  180 - Math_abs (Math_abs (a - b) - 180).

Definition matrixMultiply (row : vec3) (matrix : vec3 * vec3 * vec3) : vec3 :=
  let '(m0, m1, m2) := matrix in
  let a := at3 row 0 * at3 m0 0 + at3 row 1 * at3 m0 1 + at3 row 2 * at3 m0 2 in
  let b := at3 row 0 * at3 m1 0 + at3 row 1 * at3 m1 1 + at3 row 2 * at3 m1 2 in
  let c := at3 row 0 * at3 m2 0 + at3 row 1 * at3 m2 1 + at3 row 2 * at3 m2 2 in
  (a, b, c).

(* ===================================================================== *)
(** * utils/color_utils.ts                                                *)
(* ===================================================================== *)

Definition SRGB_TO_XYZ : vec3 * vec3 * vec3 :=
  ((0.41233895, 0.35762064, 0.18051042),
   (0.2126, 0.7152, 0.0722),
   (0.01932141, 0.11916382, 0.95034478)).

Definition XYZ_TO_SRGB : vec3 * vec3 * vec3 :=
  ((3.2413774792388685, -1.5376652402851851, -0.49885366846268053),
   (-0.9691452513005321, 1.8758853451067872, 0.04156585616912061),
   (0.05562093689691305, -0.20395524564742123, 1.0571799111220335)).

Definition WHITE_POINT_D65 : vec3 := (95.047, 100, 108.883).

Definition argbFromRgb (red green blue : Z) : Z :=
  (255 << 24 .| (red .& 255) << 16 .| (green .& 255) << 8 .| blue .& 255) >>> 0.

Definition alphaFromArgb (argb : Z) : Z := argb >> 24 .& 255.
Definition redFromArgb (argb : Z) : Z := argb >> 16 .& 255.
Definition greenFromArgb (argb : Z) : Z := argb >> 8 .& 255.
Definition blueFromArgb (argb : Z) : Z := argb .& 255.

Definition isOpaque (argb : Z) : bool := (alphaFromArgb argb >=? 255)%Z.

Definition linearized (rgbComponent : Z) : R :=
  let normalized := IZR rgbComponent / 255 in
  if normalized <=? 0.040449936 then normalized / 12.92 * 100
  else Math_pow ((normalized + 0.055) / 1.055) 2.4 * 100.

Definition delinearized (rgbComponent : R) : Z :=
  let normalized := rgbComponent / 100 in
  let delinearized1 :=
    if normalized <=? 0.0031308 then normalized * 12.92
    else 1.055 * Math_pow normalized (1 / 2.4) - 0.055 in
  clampInt 0 255 (Math_round (delinearized1 * 255)).

Definition labF (t : R) : R :=
  let e := 216 / 24389 in
  let kappa := 24389 / 27 in
  if t >? e then Math_pow t (1 / 3)
  else (kappa * t + 16) / 116.

Definition labInvf (ft : R) : R :=
  let e := 216 / 24389 in
  let kappa := 24389 / 27 in
  let ft3 := ft * ft * ft in
  if ft3 >? e then ft3
  else (116 * ft - 16) / kappa.

Definition argbFromLinrgb (linrgb : vec3) : Z :=
  let r := delinearized (at3 linrgb 0) in
  let g := delinearized (at3 linrgb 1) in
  let b := delinearized (at3 linrgb 2) in
  argbFromRgb r g b.

Definition argbFromXyz (x y z : R) : Z :=
  let matrix := XYZ_TO_SRGB in
  let '(m0, m1, m2) := matrix in
  let linearR := at3 m0 0 * x + at3 m0 1 * y + at3 m0 2 * z in
  let linearG := at3 m1 0 * x + at3 m1 1 * y + at3 m1 2 * z in
  let linearB := at3 m2 0 * x + at3 m2 1 * y + at3 m2 2 * z in
  let r := delinearized linearR in
  let g := delinearized linearG in
  let b := delinearized linearB in
  argbFromRgb r g b.

Definition xyzFromArgb (argb : Z) : vec3 :=
  let r := linearized (redFromArgb argb) in
  let g := linearized (greenFromArgb argb) in
  let b := linearized (blueFromArgb argb) in
  matrixMultiply (r, g, b) SRGB_TO_XYZ.

Definition argbFromLab (l a b : R) : Z :=
  let whitePoint := WHITE_POINT_D65 in
  let fy := (l + 16) / 116 in
  let fx := a / 500 + fy in
  let fz := fy - b / 200 in
  let xNormalized := labInvf fx in
  let yNormalized := labInvf fy in
  let zNormalized := labInvf fz in
  let x := xNormalized * at3 whitePoint 0 in
  let y := yNormalized * at3 whitePoint 1 in
  let z := zNormalized * at3 whitePoint 2 in
  argbFromXyz x y z.

Definition labFromArgb (argb : Z) : vec3 :=
  let linearR := linearized (redFromArgb argb) in
  let linearG := linearized (greenFromArgb argb) in
  let linearB := linearized (blueFromArgb argb) in
  let '(m0, m1, m2) := SRGB_TO_XYZ in
  let x := at3 m0 0 * linearR + at3 m0 1 * linearG + at3 m0 2 * linearB in
  let y := at3 m1 0 * linearR + at3 m1 1 * linearG + at3 m1 2 * linearB in
  let z := at3 m2 0 * linearR + at3 m2 1 * linearG + at3 m2 2 * linearB in
  let whitePoint := WHITE_POINT_D65 in
  let xNormalized := x / at3 whitePoint 0 in
  let yNormalized := y / at3 whitePoint 1 in
  let zNormalized := z / at3 whitePoint 2 in
  let fx := labF xNormalized in
  let fy := labF yNormalized in
  let fz := labF zNormalized in
  let l := 116 * fy - 16 in
  let a := 500 * (fx - fy) in
  let b := 200 * (fy - fz) in
  (l, a, b).

Definition yFromLstar (lstar : R) : R := 100 * labInvf ((lstar + 16) / 116).

Definition lstarFromY (y : R) : R := labF (y / 100) * 116 - 16.

Definition argbFromLstar (lstar : R) : Z :=
  let y := yFromLstar lstar in
  let component := delinearized y in
  argbFromRgb component component component.

Definition lstarFromArgb (argb : Z) : R :=
  let y := at3 (xyzFromArgb argb) 1 in
  116 * labF (y / 100) - 16.

Definition whitePointD65 : vec3 := WHITE_POINT_D65.

(* ===================================================================== *)
(** * hct/viewing_conditions.ts                                           *)
(* ===================================================================== *)

Module ViewingConditions.

Record t : Type := new {
  n : R; aw : R; nbb : R; ncb : R; c : R; nc : R;
  rgbD : vec3; fl : R; fLRoot : R; z : R
}.

Definition make (whitePoint : vec3) (adaptingLuminance backgroundLstar
                 surround : R) (discountingIlluminant : bool) : t :=
  let xyz := whitePoint in
  let rW := at3 xyz 0 * 0.401288 + at3 xyz 1 * 0.650173 + at3 xyz 2 * -0.051461 in
  let gW := at3 xyz 0 * -0.250268 + at3 xyz 1 * 1.204414 + at3 xyz 2 * 0.045854 in
  let bW := at3 xyz 0 * -0.002079 + at3 xyz 1 * 0.048952 + at3 xyz 2 * 0.953127 in
  let f := 0.8 + surround / 10 in
  let c := if f >=? 0.9 then lerp 0.59 0.69 ((f - 0.9) * 10)
           else lerp 0.525 0.59 ((f - 0.8) * 10) in
  let d := if discountingIlluminant then 1
           else f * (1 - 1 / 3.6 * Math_exp ((- adaptingLuminance - 42) / 92)) in
  let d := if d >? 1 then 1 else if d <? 0 then 0 else d in
  let nc := f in
  let rgbD := (d * (100 / rW) + 1 - d,
               d * (100 / gW) + 1 - d,
               d * (100 / bW) + 1 - d) in
  let k := 1 / (5 * adaptingLuminance + 1) in
  let k4 := k * k * k * k in
  let k4F := 1 - k4 in
  let fl := k4 * adaptingLuminance
            + 0.1 * k4F * k4F * Math_cbrt (5 * adaptingLuminance) in
  let n := yFromLstar backgroundLstar / at3 whitePoint 1 in
  let z := 1.48 + Math_sqrt n in
  let nbb := 0.725 / Math_pow n 0.2 in
  let ncb := nbb in
  let rgbAFactors := (Math_pow (fl * at3 rgbD 0 * rW / 100) 0.42,
                      Math_pow (fl * at3 rgbD 1 * gW / 100) 0.42,
                      Math_pow (fl * at3 rgbD 2 * bW / 100) 0.42) in
  let rgbA := (400 * at3 rgbAFactors 0 / (at3 rgbAFactors 0 + 27.13),
               400 * at3 rgbAFactors 1 / (at3 rgbAFactors 1 + 27.13),
               400 * at3 rgbAFactors 2 / (at3 rgbAFactors 2 + 27.13)) in
  let aw := (2 * at3 rgbA 0 + at3 rgbA 1 + 0.05 * at3 rgbA 2) * nbb in
  new n aw nbb ncb c nc rgbD fl (Math_pow fl 0.25) z.

(** [make()] with every parameter at its default. *)
Definition DEFAULT : t :=
  make whitePointD65 (200 / Math_PI * yFromLstar 50 / 100) 50 2 false.

End ViewingConditions.

(* ===================================================================== *)
(** * hct/cam16.ts                                                        *)
(* ===================================================================== *)

Module Cam16.

Record t : Type := new {
  hue : R; chroma : R; j : R; q : R; m : R; s : R;
  jstar : R; astar : R; bstar : R
}.

Definition fromIntInViewingConditions (argb : Z)
    (viewingConditions : ViewingConditions.t) : t :=
  let vc := viewingConditions in
  let red := (argb .& 16711680) >> 16 in
  let green := (argb .& 65280) >> 8 in
  let blue := argb .& 255 in
  let redL := linearized red in
  let greenL := linearized green in
  let blueL := linearized blue in
  let x := 0.41233895 * redL + 0.35762064 * greenL + 0.18051042 * blueL in
  let y := 0.2126 * redL + 0.7152 * greenL + 0.0722 * blueL in
  let z := 0.01932141 * redL + 0.11916382 * greenL + 0.95034478 * blueL in
  let rC := 0.401288 * x + 0.650173 * y - 0.051461 * z in
  let gC := -0.250268 * x + 1.204414 * y + 0.045854 * z in
  let bC := -0.002079 * x + 0.048952 * y + 0.953127 * z in
  let rD := at3 (ViewingConditions.rgbD vc) 0 * rC in
  let gD := at3 (ViewingConditions.rgbD vc) 1 * gC in
  let bD := at3 (ViewingConditions.rgbD vc) 2 * bC in
  let rAF := Math_pow (ViewingConditions.fl vc * Math_abs rD / 100) 0.42 in
  let gAF := Math_pow (ViewingConditions.fl vc * Math_abs gD / 100) 0.42 in
  let bAF := Math_pow (ViewingConditions.fl vc * Math_abs bD / 100) 0.42 in
  let rA := signum rD * 400 * rAF / (rAF + 27.13) in
  let gA := signum gD * 400 * gAF / (gAF + 27.13) in
  let bA := signum bD * 400 * bAF / (bAF + 27.13) in
  let a := (11 * rA + -12 * gA + bA) / 11 in
  let b := (rA + gA - 2 * bA) / 9 in
  let u := (20 * rA + 20 * gA + 21 * bA) / 20 in
  let p2 := (40 * rA + 20 * gA + bA) / 20 in
  let atan2 := Math_atan2 b a in
  let atanDegrees := atan2 * 180 / Math_PI in
  let hue := if atanDegrees <? 0 then atanDegrees + 360
             else if atanDegrees >=? 360 then atanDegrees - 360
             else atanDegrees in
  let hueRadians := hue * Math_PI / 180 in
  let ac := p2 * ViewingConditions.nbb vc in
  let j := 100 * Math_pow (ac / ViewingConditions.aw vc)
                          (ViewingConditions.c vc * ViewingConditions.z vc) in
  let q := 4 / ViewingConditions.c vc * Math_sqrt (j / 100)
           * (ViewingConditions.aw vc + 4) * ViewingConditions.fLRoot vc in
  let huePrime := if hue <? 20.14 then hue + 360 else hue in
  let eHue := 0.25 * (Math_cos (huePrime * Math_PI / 180 + 2) + 3.8) in
  let p1 := 5e4 / 13 * eHue * ViewingConditions.nc vc * ViewingConditions.ncb vc in
  let t := p1 * Math_sqrt (a * a + b * b) / (u + 0.305) in
  let alpha := Math_pow t 0.9
               * Math_pow (1.64 - Math_pow 0.29 (ViewingConditions.n vc)) 0.73 in
  let c := alpha * Math_sqrt (j / 100) in
  let m := c * ViewingConditions.fLRoot vc in
  let s := 50 * Math_sqrt (alpha * ViewingConditions.c vc
                           / (ViewingConditions.aw vc + 4)) in
  let jstar := 1.7000000000000002 * j / (1 + 0.007 * j) in
  let mstar := 1 / 0.0228 * Math_log (1 + 0.0228 * m) in
  let astar := mstar * Math_cos hueRadians in
  let bstar := mstar * Math_sin hueRadians in
  new hue c j q m s jstar astar bstar.

Definition fromInt (argb : Z) : t :=
  fromIntInViewingConditions argb ViewingConditions.DEFAULT.

End Cam16.

(* ===================================================================== *)
(** * hct/hct_solver.ts                                                   *)
(* ===================================================================== *)

Module HctSolver.

Definition SCALED_DISCOUNT_FROM_LINRGB : vec3 * vec3 * vec3 :=
  ((0.001200833568784504, 0.002389694492170889, 0.0002795742885861124),
   (0.0005891086651375999, 0.0029785502573438758, 0.0003270666104008398),
   (0.00010146692491640572, 0.0005364214359186694, 0.0032979401770712076)).

Definition LINRGB_FROM_SCALED_DISCOUNT : vec3 * vec3 * vec3 :=
  ((1373.2198709594231, -1100.4251190754821, -7.278681089101213),
   (-271.815969077903, 559.6580465940733, -32.46047482791194),
   (1.9622899599665666, -57.173814538844006, 308.7233197812385)).

Definition Y_FROM_LINRGB : vec3 := (0.2126, 0.7152, 0.0722).

Definition CRITICAL_PLANES : list R :=
    [0.015176349177441876; 0.045529047532325624; 0.07588174588720938;
     0.10623444424209313; 0.13658714259697685; 0.16693984095186062;
     0.19729253930674434; 0.2276452376616281; 0.2579979360165119;
     0.28835063437139563; 0.3188300904430532; 0.350925934958123;
     0.3848314933096426; 0.42057480301049466; 0.458183274052838;
     0.4976837250274023; 0.5391024159806381; 0.5824650784040898;
     0.6277969426914107; 0.6751227633498623; 0.7244668422128921;
     0.775853049866786; 0.829304845476233; 0.8848452951698498;
     0.942497089126609; 1.0022825574869039; 1.0642236851973577;
     1.1283421258858297; 1.1946592148522128; 1.2631959812511864;
     1.3339731595349034; 1.407011200216447; 1.4823302800086415;
     1.5599503113873272; 1.6398909516233677; 1.7221716113234105;
     1.8068114625156377; 1.8938294463134073; 1.9832442801866852;
     2.075074464868551; 2.1693382909216234; 2.2660538449872063;
     2.36523901573795; 2.4669114995532007; 2.5710888059345764;
     2.6777882626779785; 2.7870270208169257; 2.898822059350997;
     3.0131901897720907; 3.1301480604002863; 3.2497121605402226;
     3.3718988244681087; 3.4967242352587946; 3.624204428461639;
     3.754355295633311; 3.887192587735158; 4.022731918402185;
     4.160988767090289; 4.301978482107941; 4.445716283538092;
     4.592217266055746; 4.741496401646282; 4.893568542229298;
     5.048448422192488; 5.20615066083972; 5.3666897647573375;
     5.5300801301023865; 5.696336044816294; 5.865471690767354;
     6.037501145825082; 6.212438385869475; 6.390297286737924;
     6.571091626112461; 6.7548350853498045; 6.941541251256611;
     7.131223617812143; 7.323895587840543; 7.5195704746346665;
     7.7182615035334345; 7.919981813454504; 8.124744458384042;
     8.332562408825165; 8.543448553206703; 8.757415699253682;
     8.974476575321063; 9.194643831691977; 9.417930041841839;
     9.644347703669503; 9.873909240696694; 10.106627003236781;
     10.342513269534024; 10.58158024687427; 10.8238400726681;
     11.069304815507364; 11.317986476196008; 11.569896988756009;
     11.825048221409341; 12.083451977536606; 12.345119996613247;
     12.610063955123938; 12.878295467455942; 13.149826086772048;
     13.42466730586372; 13.702830557985108; 13.984327217668513;
     14.269168601521828; 14.55736596900856; 14.848930523210871;
     15.143873411576273; 15.44220572664832; 15.743938506781891;
     16.04908273684337; 16.35764934889634; 16.66964922287304;
     16.985093187232053; 17.30399201960269; 17.62635644741625;
     17.95219714852476; 18.281524751807332; 18.614349837764564;
     18.95068293910138; 19.290534541298456; 19.633915083172692;
     19.98083495742689; 20.331304511189067; 20.685334046541502;
     21.042933821039977; 21.404114048223256; 21.76888489811322;
     22.137256497705877; 22.50923893145328; 22.884842241736916;
     23.264076429332462; 23.6469514538663; 24.033477234264016;
     24.42366364919083; 24.817520537484558; 25.21505769858089;
     25.61628489293138; 26.021211842414342; 26.429848230738664;
     26.842203703840827; 27.258287870275353; 27.678110301598522;
     28.10168053274597; 28.529008062403893; 28.96010235337422;
     29.39497283293396; 29.83362889318845; 30.276079891419332;
     30.722335150426627; 31.172403958865512; 31.62629557157785;
     32.08401920991837; 32.54558406207592; 33.010999283389665;
     33.4802739966603; 33.953417292456834; 34.430438229418264;
     34.911345834551085; 35.39614910352207; 35.88485700094671;
     36.37747846067349; 36.87402238606382; 37.37449765026789;
     37.87891309649659; 38.38727753828926; 38.89959975977785;
     39.41588851594697; 39.93615253289054; 40.460400508064545;
     40.98864111053629; 41.520882981230194; 42.05713473317016;
     42.597404951718396; 43.141702194811224; 43.6900349931913;
     44.24241185063697; 44.798841244188324; 45.35933162437017;
     45.92389141541209; 46.49252901546552; 47.065252796817916;
     47.64207110610409; 48.22299226451468; 48.808024568002054;
     49.3971762874833; 49.9904556690408; 50.587870934119984;
     51.189430279724725; 51.79514187861014; 52.40501387947288;
     53.0190544071392; 53.637271562750364; 54.259673423945976;
     54.88626804504493; 55.517063457223934; 56.15206766869424;
     56.79128866487574; 57.43473440856916; 58.08241284012621;
     58.734331877617365; 59.39049941699807; 60.05092333227251;
     60.715611475655585; 61.38457167773311; 62.057811747619894;
     62.7353394731159; 63.417162620860914; 64.10328893648692;
     64.79372614476921; 65.48848194977529; 66.18756403501224;
     66.89098006357258; 67.59873767827808; 68.31084450182222;
     69.02730813691093; 69.74813616640164; 70.47333615344107;
     71.20291564160104; 71.93688215501312; 72.67524319850172;
     73.41800625771542; 74.16517879925733; 74.9167682708136;
     75.67278210128072; 76.43322770089146; 77.1981124613393;
     77.96744375590167; 78.74122893956174; 79.51947534912904;
     80.30219030335869; 81.08938110306934; 81.88105503125999;
     82.67721935322541; 83.4778813166706; 84.28304815182372;
     85.09272707154808; 85.90692527145302; 86.72564993000343;
     87.54890820862819; 88.3767072518277; 89.2090541872801;
     90.04595612594655; 90.88742016217518; 91.73345337380438;
     92.58406282226491; 93.43925555268066; 94.29903859396902;
     95.16341895893969; 96.03240364439274; 96.9059996312159;
     97.78421388448044; 98.6670533535366; 99.55452497210776].

(** The source documents this function for "a small enough angle":
    [angle] "must not deviate too much from 0". *)
Definition sanitizeRadians (angle : R) : R :=
  rem (angle + Math_PI * 8) (Math_PI * 2).

Definition trueDelinearized (rgbComponent : R) : R :=
  let normalized := rgbComponent / 100 in
  let delinearized1 :=
    if normalized <=? 0.0031308 then normalized * 12.92
    else 1.055 * Math_pow normalized (1 / 2.4) - 0.055 in
  delinearized1 * 255.

Definition chromaticAdaptation (component : R) : R :=
  let af := Math_pow (Math_abs component) 0.42 in
  signum component * 400 * af / (af + 27.13).

Definition hueOf (linrgb : vec3) : R :=
  let scaledDiscount := matrixMultiply linrgb SCALED_DISCOUNT_FROM_LINRGB in
  let rA := chromaticAdaptation (at3 scaledDiscount 0) in
  let gA := chromaticAdaptation (at3 scaledDiscount 1) in
  let bA := chromaticAdaptation (at3 scaledDiscount 2) in
  let a := (11 * rA + -12 * gA + bA) / 11 in
  let b := (rA + gA - 2 * bA) / 9 in
  Math_atan2 b a.

Definition areInCyclicOrder (a b c : R) : bool :=
  let deltaAB := sanitizeRadians (b - a) in
  let deltaAC := sanitizeRadians (c - a) in
  deltaAB <? deltaAC.

Definition intercept (source mid target : R) : R :=
  (mid - source) / (target - source).

Definition lerpPoint (source : vec3) (t : R) (target : vec3) : vec3 :=
  (at3 source 0 + (at3 target 0 - at3 source 0) * t,
   at3 source 1 + (at3 target 1 - at3 source 1) * t,
   at3 source 2 + (at3 target 2 - at3 source 2) * t).

Definition setCoordinate (source : vec3) (coordinate : R) (target : vec3)
    (axis : nat) : vec3 :=
  let t := intercept (at3 source axis) coordinate (at3 target axis) in
  lerpPoint source t target.

Definition isBounded (x : R) : bool := (0 <=? x) && (x <=? 100).

Definition nthVertex (y : R) (n : nat) : vec3 :=
  let kR := at3 Y_FROM_LINRGB 0 in
  let kG := at3 Y_FROM_LINRGB 1 in
  let kB := at3 Y_FROM_LINRGB 2 in
  let coordA := if (n mod 4 <=? 1)%nat then 0 else 100 in
  let coordB := if (n mod 2 =? 0)%nat then 0 else 100 in
  if (n <? 4)%nat then
    let g := coordA in
    let b := coordB in
    let r := (y - g * kG - b * kB) / kR in
    if isBounded r then (r, g, b) else (-1, -1, -1)
  else if (n <? 8)%nat then
    let b := coordA in
    let r := coordB in
    let g := (y - r * kR - b * kB) / kG in
    if isBounded g then (r, g, b) else (-1, -1, -1)
  else
    let r := coordA in
    let g := coordB in
    let b := (y - r * kR - g * kG) / kB in
    if isBounded b then (r, g, b) else (-1, -1, -1).

(** The loop state of [bisectToSegment]. *)
Record SegmentState : Type := mkSegmentState {
  seg_left : vec3; seg_right : vec3;
  seg_leftHue : R; seg_rightHue : R;
  seg_initialized : bool; seg_uncut : bool
}.

Definition bisectToSegment_step (y targetHue : R) (st : SegmentState)
    (n : nat) : SegmentState :=
  let mid := nthVertex y n in
  if at3 mid 0 <? 0 then st
  else
    let midHue := hueOf mid in
    if negb (seg_initialized st) then
      mkSegmentState mid mid midHue midHue true (seg_uncut st)
    else if seg_uncut st
            || areInCyclicOrder (seg_leftHue st) midHue (seg_rightHue st) then
      if areInCyclicOrder (seg_leftHue st) targetHue midHue then
        mkSegmentState (seg_left st) mid (seg_leftHue st) midHue
                       (seg_initialized st) false
      else
        mkSegmentState mid (seg_right st) midHue (seg_rightHue st)
                       (seg_initialized st) false
    else st.

Definition bisectToSegment (y targetHue : R) : vec3 * vec3 :=
  let left := (-1, -1, -1) in
  let right := left in
  let st := fold_left (bisectToSegment_step y targetHue) (seq 0 12)
              (mkSegmentState left right 0 0 false true) in
  (seg_left st, seg_right st).

Definition midpoint (a b : vec3) : vec3 :=
  ((at3 a 0 + at3 b 0) / 2, (at3 a 1 + at3 b 1) / 2, (at3 a 2 + at3 b 2) / 2).

Definition criticalPlaneBelow (x : R) : Z := Math_floor (x - 0.5).
Definition criticalPlaneAbove (x : R) : Z := Math_ceil (x - 0.5).

(** The loop state of [bisectToLimit]. *)
Record LimitState : Type := mkLimitState {
  lim_left : vec3; lim_leftHue : R; lim_right : vec3;
  lim_lPlane : Z; lim_rPlane : Z
}.

(** [for (let i = 0; i < 8; i++) if (...) break; else {...}]:
    [rounds] counts the iterations that remain. *)
Fixpoint bisectToLimit_refine (rounds : nat) (targetHue : R) (axis : nat)
    (st : LimitState) : LimitState :=
  match rounds with
  | O => st
  | S rounds' =>
      if (Z.abs (lim_rPlane st - lim_lPlane st) <=? 1)%Z then st
      else
        let mPlane :=
          Math_floor (IZR (lim_lPlane st + lim_rPlane st) / 2) in
        let midPlaneCoordinate := nth (Z.to_nat mPlane) CRITICAL_PLANES 0 in
        let mid := setCoordinate (lim_left st) midPlaneCoordinate
                                 (lim_right st) axis in
        let midHue := hueOf mid in
        bisectToLimit_refine rounds' targetHue axis
          (if areInCyclicOrder (lim_leftHue st) targetHue midHue then
             mkLimitState (lim_left st) (lim_leftHue st) mid
                          (lim_lPlane st) mPlane
           else
             mkLimitState mid midHue (lim_right st)
                          mPlane (lim_rPlane st))
  end.

Definition bisectToLimit_axis (targetHue : R)
    (st : vec3 * R * vec3) (axis : nat) : vec3 * R * vec3 :=
  let left := fst (fst st) in
  let leftHue := snd (fst st) in
  let right := snd st in
  if negb (at3 left axis =? at3 right axis) then
    let '(lPlane, rPlane) :=
      if at3 left axis <? at3 right axis then
        (criticalPlaneBelow (trueDelinearized (at3 left axis)),
         criticalPlaneAbove (trueDelinearized (at3 right axis)))
      else
        (criticalPlaneAbove (trueDelinearized (at3 left axis)),
         criticalPlaneBelow (trueDelinearized (at3 right axis))) in
    let st' := bisectToLimit_refine 8 targetHue axis
                 (mkLimitState left leftHue right lPlane rPlane) in
    (lim_left st', lim_leftHue st', lim_right st')
  else st.

Definition bisectToLimit (y targetHue : R) : vec3 :=
  let segment := bisectToSegment y targetHue in
  let left := fst segment in
  let leftHue := hueOf left in
  let right := snd segment in
  let st :=
    fold_left (bisectToLimit_axis targetHue) (seq 0 3)
              (left, leftHue, right) in
  midpoint (fst (fst st)) (snd st).

Definition inverseChromaticAdaptation (adapted : R) : R :=
  let adaptedAbs := Math_abs adapted in
  let base := Math_max 0 (27.13 * adaptedAbs / (400 - adaptedAbs)) in
  signum adapted * Math_pow base (1 / 0.42).

(** The body of [findResultByJ]'s loop; [rounds] counts the iterations
    that remain of [for (iterationRound = 0; iterationRound < 5; ...)].
    Falling out of the loop returns 0. *)
Fixpoint findResultByJ_loop (rounds : nat) (iterationRound : Z)
    (hCos hSin p1 tInnerCoeff chroma y j : R) : Z :=
  match rounds with
  | O => 0%Z
  | S rounds' =>
      let viewingConditions := ViewingConditions.DEFAULT in
      let jNormalized := j / 100 in
      let alpha := if (chroma =? 0) || (j =? 0) then 0
                   else chroma / Math_sqrt jNormalized in
      let t := Math_pow (alpha * tInnerCoeff) (1 / 0.9) in
      let ac := ViewingConditions.aw viewingConditions
                * Math_pow jNormalized
                    (1 / ViewingConditions.c viewingConditions
                       / ViewingConditions.z viewingConditions) in
      let p2 := ac / ViewingConditions.nbb viewingConditions in
      let gamma := 23 * (p2 + 0.305) * t
                   / (23 * p1 + 11 * t * hCos + 108 * t * hSin) in
      let a := gamma * hCos in
      let b := gamma * hSin in
      let rA := (460 * p2 + 451 * a + 288 * b) / 1403 in
      let gA := (460 * p2 - 891 * a - 261 * b) / 1403 in
      let bA := (460 * p2 - 220 * a - 6300 * b) / 1403 in
      let rCScaled := inverseChromaticAdaptation rA in
      let gCScaled := inverseChromaticAdaptation gA in
      let bCScaled := inverseChromaticAdaptation bA in
      let linrgb := matrixMultiply (rCScaled, gCScaled, bCScaled)
                                   LINRGB_FROM_SCALED_DISCOUNT in
      if (at3 linrgb 0 <? 0) || (at3 linrgb 1 <? 0) || (at3 linrgb 2 <? 0)
      then 0%Z
      else
        let kR := at3 Y_FROM_LINRGB 0 in
        let kG := at3 Y_FROM_LINRGB 1 in
        let kB := at3 Y_FROM_LINRGB 2 in
        let fnj := kR * at3 linrgb 0 + kG * at3 linrgb 1 + kB * at3 linrgb 2 in
        if fnj <=? 0 then 0%Z
        else if (iterationRound =? 4)%Z || (Math_abs (fnj - y) <? 0.002) then
          if (at3 linrgb 0 >? 100.01) || (at3 linrgb 1 >? 100.01)
             || (at3 linrgb 2 >? 100.01)
          then 0%Z
          else argbFromLinrgb linrgb
        else
          findResultByJ_loop rounds' (iterationRound + 1)
            hCos hSin p1 tInnerCoeff chroma y
            (j - (fnj - y) * j / (2 * fnj))
  end.

Definition findResultByJ (hueRadians chroma y : R) : Z :=
  let j := Math_sqrt y * 11 in
  let viewingConditions := ViewingConditions.DEFAULT in
  let tInnerCoeff :=
    1 / Math_pow (1.64 - Math_pow 0.29 (ViewingConditions.n viewingConditions))
                 0.73 in
  let eHue := 0.25 * (Math_cos (hueRadians + 2) + 3.8) in
  let p1 := eHue * (5e4 / 13) * ViewingConditions.nc viewingConditions
            * ViewingConditions.ncb viewingConditions in
  let hSin := Math_sin hueRadians in
  let hCos := Math_cos hueRadians in
  findResultByJ_loop 5 0 hCos hSin p1 tInnerCoeff chroma y j.

(** [solveToInt], with its two solver tiers as arguments. *)
Definition solveToIntWith (findResultByJ : R -> R -> R -> Z)
    (bisectToLimit : R -> R -> vec3) (hueDegrees chroma lstar : R) : Z :=
  if (chroma <? 1e-4) || (lstar <? 1e-4) || (lstar >? 99.9999)
  then argbFromLstar lstar
  else
    let hueDegrees := sanitizeDegreesDouble hueDegrees in
    let hueRadians := hueDegrees / 180 * Math_PI in
    let y := yFromLstar lstar in
    let exactAnswer := findResultByJ hueRadians chroma y in
    if negb (exactAnswer =? 0)%Z then exactAnswer
    else
      let linrgb := bisectToLimit y hueRadians in
      argbFromLinrgb linrgb.

Definition solveToInt (hueDegrees chroma lstar : R) : Z :=
  solveToIntWith findResultByJ bisectToLimit hueDegrees chroma lstar.

Definition solveToCam (hueDegrees chroma lstar : R) : Cam16.t :=
  Cam16.fromInt (solveToInt hueDegrees chroma lstar).

End HctSolver.

(* ===================================================================== *)
(** * hct/hct.ts                                                          *)
(* ===================================================================== *)

Module Hct.

(** The fields of an [Hct] object.  The source's setters mutate the
    object in place; here they return the updated record.  No function
    of the library itself assigns to an [Hct] it did not just create. *)
Record t : Type := mk {
  argb : Z;
  internalHue : R;
  internalChroma : R;
  internalTone : R
}.

(** [constructor(argb)] *)
Definition new (argb : Z) : t :=
  let cam := Cam16.fromInt argb in
  mk argb (Cam16.hue cam) (Cam16.chroma cam) (lstarFromArgb argb).

Definition from (hue chroma tone : R) : t :=
  new (HctSolver.solveToInt hue chroma tone).

Definition fromInt (argb : Z) : t := new argb.

Definition toInt (this : t) : Z := argb this.

Definition hue (this : t) : R := internalHue this.
Definition chroma (this : t) : R := internalChroma this.
Definition tone (this : t) : R := internalTone this.

Definition setInternalState (this : t) (argb : Z) : t :=
  let cam := Cam16.fromInt argb in
  mk argb (Cam16.hue cam) (Cam16.chroma cam) (lstarFromArgb argb).

Definition set_hue (this : t) (newHue : R) : t :=
  setInternalState this
    (HctSolver.solveToInt newHue (internalChroma this) (internalTone this)).

Definition set_chroma (this : t) (newChroma : R) : t :=
  setInternalState this
    (HctSolver.solveToInt (internalHue this) newChroma (internalTone this)).

Definition set_tone (this : t) (newTone : R) : t :=
  setInternalState this
    (HctSolver.solveToInt (internalHue this) (internalChroma this) newTone).

Definition isBlue (hue : R) : bool := (hue >=? 250) && (hue <? 270).
Definition isYellow (hue : R) : bool := (hue >=? 105) && (hue <? 125).
Definition isCyan (hue : R) : bool := (hue >=? 170) && (hue <? 207).

End Hct.

(* ===================================================================== *)
(** * blend/blend.ts                                                      *)
(* ===================================================================== *)

Module Blend.

Definition harmonize (designColor sourceColor : Z) : Z :=
  let fromHct := Hct.fromInt designColor in
  let toHct := Hct.fromInt sourceColor in
  let differenceDegrees1 :=
    differenceDegrees (Hct.hue fromHct) (Hct.hue toHct) in
  let rotationDegrees := Math_min (differenceDegrees1 * 0.5) 15 in
  let outputHue :=
    sanitizeDegreesDouble
      (Hct.hue fromHct
       + rotationDegrees
         * rotationDirection (Hct.hue fromHct) (Hct.hue toHct)) in
  Hct.toInt (Hct.from outputHue (Hct.chroma fromHct) (Hct.tone fromHct)).

End Blend.

(* ===================================================================== *)
(** * contrast/contrast.ts                                                *)
(* ===================================================================== *)

Module Contrast.

Definition ratioOfYs (y1 y2 : R) : R :=
  let lighter := if y1 >? y2 then y1 else y2 in
  let darker := if lighter =? y2 then y1 else y2 in
  (lighter + 5) / (darker + 5).

Definition ratioOfTones (toneA toneB : R) : R :=
  let toneA := clampDouble 0 100 toneA in
  let toneB := clampDouble 0 100 toneB in
  ratioOfYs (yFromLstar toneA) (yFromLstar toneB).

Definition lighter (tone ratio : R) : R :=
  if (tone <? 0) || (tone >? 100) then -1
  else
    let darkY := yFromLstar tone in
    let lightY := ratio * (darkY + 5) - 5 in
    let realContrast := ratioOfYs lightY darkY in
    let delta := Math_abs (realContrast - ratio) in
    if (realContrast <? ratio) && (delta >? 0.04) then -1
    else
      let returnValue := lstarFromY lightY + 0.4 in
      if (returnValue <? 0) || (returnValue >? 100) then -1
      else returnValue.

Definition darker (tone ratio : R) : R :=
  if (tone <? 0) || (tone >? 100) then -1
  else
    let lightY := yFromLstar tone in
    let darkY := (lightY + 5) / ratio - 5 in
    let realContrast := ratioOfYs lightY darkY in
    let delta := Math_abs (realContrast - ratio) in
    if (realContrast <? ratio) && (delta >? 0.04) then -1
    else
      let returnValue := lstarFromY darkY - 0.4 in
      if (returnValue <? 0) || (returnValue >? 100) then -1
      else returnValue.

Definition lighterUnsafe (tone ratio : R) : R :=
  let lighterSafe := lighter tone ratio in
  if lighterSafe <? 0 then 100 else lighterSafe.

Definition darkerUnsafe (tone ratio : R) : R :=
  let darkerSafe := darker tone ratio in
  if darkerSafe <? 0 then 0 else darkerSafe.

End Contrast.

(* ===================================================================== *)
(** * palettes/tonal_palette.ts                                           *)
(* ===================================================================== *)

Module KeyColor.

Record t : Type := new { hue : R; requestedChroma : R }.

Definition maxChromaValue : R := 200.

(** [chromaCache]: tone -> chroma. *)
Definition ChromaCache : Type := list (Z * R).

Definition maxChroma (this : t) (tone : Z) (chromaCache : ChromaCache)
    : R * ChromaCache :=
  match get Z.eqb tone chromaCache with
  | Some chroma => (chroma, chromaCache)
  | None =>
      let chroma := Hct.chroma (Hct.from (hue this) maxChromaValue (IZR tone)) in
      (chroma, set Z.eqb tone chroma chromaCache)
  end.

(** The [while (lowerTone < upperTone)] loop of [create]; [None] when
    [fuel] iterations were not enough. *)
Fixpoint create_loop (fuel : nat) (this : t) (lowerTone upperTone : Z)
    (chromaCache : ChromaCache) : option Hct.t :=
  let pivotTone := 50%Z in
  let toneStepSize := 1%Z in
  let epsilon := 0.01 in
  if (lowerTone <? upperTone)%Z then
    match fuel with
    | O => None
    | S fuel' =>
        let midTone := Math_floor (IZR (lowerTone + upperTone) / 2) in
        let '(c1, chromaCache) := maxChroma this midTone chromaCache in
        let '(c2, chromaCache) :=
          maxChroma this (midTone + toneStepSize) chromaCache in
        let isAscending := c1 <? c2 in
        let '(c3, chromaCache) := maxChroma this midTone chromaCache in
        let sufficientChroma := c3 >=? requestedChroma this - epsilon in
        if sufficientChroma then
          if (Z.abs (lowerTone - pivotTone) <? Z.abs (upperTone - pivotTone))%Z
          then create_loop fuel' this lowerTone midTone chromaCache
          else if (lowerTone =? midTone)%Z
          then Some (Hct.from (hue this) (requestedChroma this) (IZR lowerTone))
          else create_loop fuel' this midTone upperTone chromaCache
        else if isAscending
        then create_loop fuel' this (midTone + toneStepSize) upperTone chromaCache
        else create_loop fuel' this lowerTone midTone chromaCache
    end
  else Some (Hct.from (hue this) (requestedChroma this) (IZR lowerTone)).

(** The interval [0, 100] shrinks in every iteration, so 101 iterations
    always suffice (lemma [create_loop_total]); the [None] branch is dead. *)
Definition create (this : t) : Hct.t :=
  match create_loop 101 this 0 100 [] with
  | Some keyColor => keyColor
  | None => Hct.from (hue this) (requestedChroma this) 0
  end.

End KeyColor.

Module TonalPalette.

Record t : Type := new { hue : R; chroma : R; keyColor : Hct.t }.

(** The [cache] field: tone -> ARGB. *)
Definition Cache : Type := list (R * Z).

Definition fromHct (hct : Hct.t) : t :=
  new (Hct.hue hct) (Hct.chroma hct) hct.

Definition fromInt (argb : Z) : t :=
  let hct := Hct.fromInt argb in
  fromHct hct.

Definition fromHueAndChroma (hue chroma : R) : t :=
  let keyColor := KeyColor.create (KeyColor.new hue chroma) in
  new hue chroma keyColor.

Definition averageArgb (argb1 argb2 : Z) : Z :=
  let red1 := argb1 >>> 16 .& 255 in
  let green1 := argb1 >>> 8 .& 255 in
  let blue1 := argb1 .& 255 in
  let red2 := argb2 >>> 16 .& 255 in
  let green2 := argb2 >>> 8 .& 255 in
  let blue2 := argb2 .& 255 in
  let red := Math_round (IZR (red1 + red2) / 2) in
  let green := Math_round (IZR (green1 + green2) / 2) in
  let blue := Math_round (IZR (blue1 + blue2) / 2) in
  (255 << 24 .| (red .& 255) << 16 .| (green .& 255) << 8 .| blue .& 255) >>> 0.

(** [tone(tone)]: reads and fills the cache.  The method calls itself
    for tones 98 and 100; [fuel] bounds the depth of these calls, and
    the result is [None] when it is exhausted. *)
Fixpoint tone (fuel : nat) (this : t) (tone_ : R) (cache : Cache)
    : option (Z * Cache) :=
  match fuel with
  | O => None
  | S fuel' =>
      match get JS.eq tone_ cache with
      | Some argb => Some (argb, cache)
      | None =>
          if (tone_ =? 99) && Hct.isYellow (hue this) then
            match tone fuel' this 98 cache with
            | None => None
            | Some (argb98, cache) =>
                match tone fuel' this 100 cache with
                | None => None
                | Some (argb100, cache) =>
                    let argb := averageArgb argb98 argb100 in
                    Some (argb, set JS.eq tone_ argb cache)
                end
            end
          else
            let argb := Hct.toInt (Hct.from (hue this) (chroma this) tone_) in
            Some (argb, set JS.eq tone_ argb cache)
      end
  end.

(** The color [tone] returns on a palette whose cache is still empty.
    By lemma [tone_cache_transparent] every later call returns the same
    color, whatever was requested in between. *)
Definition toneOf (this : t) (tone_ : R) : Z :=
  match tone 2 this tone_ [] with
  | Some (argb, _) => argb
  | None => 0%Z
  end.

Definition getHct (this : t) (tone_ : R) : Hct.t :=
  Hct.fromInt (toneOf this tone_).

End TonalPalette.

(* ===================================================================== *)
(** * dynamiccolor: variant.ts, spec_version.ts, platform.ts              *)
(* ===================================================================== *)

Inductive Variant : Type :=
  | MONOCHROME | NEUTRAL | TONAL_SPOT | VIBRANT | EXPRESSIVE
  | FIDELITY | CONTENT | RAINBOW | FRUIT_SALAD.

Inductive SpecVersion : Type := SPEC_2021 | SPEC_2025.

Inductive Platform : Type := PHONE | WATCH.

(** Exceptions: a constructor that can [throw] returns a [result]. *)
Inductive result (A : Type) : Type :=
  | Ok (value : A)
  | Throw (message : string).
Arguments Ok {A} value.
Arguments Throw {A} message.

(** An object reference: the identity of the object and its (immutable)
    fields.  A [Map] keyed by objects compares identities. *)
Record Ref (A : Type) : Type := mkRef { ref_id : nat; deref : A }.
Arguments mkRef {A} ref_id deref.
Arguments ref_id {A} r.
Arguments deref {A} r.

(* ===================================================================== *)
(** * dynamiccolor/contrast_curve.ts                                      *)
(* ===================================================================== *)

Module ContrastCurve.

Record t : Type := new { low : R; normal : R; medium : R; high : R }.

Definition get (this : t) (contrastLevel : R) : R :=
  if contrastLevel <=? -1 then low this
  else if contrastLevel <? 0 then
    lerp (low this) (normal this) ((contrastLevel - -1) / 1)
  else if contrastLevel <? 0.5 then
    lerp (normal this) (medium this) ((contrastLevel - 0) / 0.5)
  else if contrastLevel <? 1 then
    lerp (medium this) (high this) ((contrastLevel - 0.5) / 0.5)
  else high this.

End ContrastCurve.

(* ===================================================================== *)
(** * dynamiccolor/tone_delta_pair.ts                                     *)
(* ===================================================================== *)

Inductive TonePolarity : Type :=
  | polarity_darker | polarity_lighter | polarity_nearer | polarity_farther
  | polarity_relative_darker | polarity_relative_lighter.

Inductive DeltaConstraint : Type :=
  | constraint_exact | constraint_nearer | constraint_farther.

Module ToneDeltaPair.

(** [Color] is the type of the two roles, [DynamicColor.t] below. *)
Record t (Color : Type) : Type := mk {
  roleA : Color;
  roleB : Color;
  delta : R;
  polarity : TonePolarity;
  stayTogether : bool;
  constraint : DeltaConstraint
}.
Arguments mk {Color}.
Arguments roleA {Color}.
Arguments roleB {Color}.
Arguments delta {Color}.
Arguments polarity {Color}.
Arguments stayTogether {Color}.
Arguments constraint {Color}.

(** [constructor(roleA, roleB, delta, polarity, stayTogether, constraint)]:
    an omitted [constraint] is ["exact"]. *)
Definition new {Color : Type} (roleA roleB : Color) (delta : R)
    (polarity : TonePolarity) (stayTogether : bool)
    (constraint : option DeltaConstraint) : t Color :=
  mk roleA roleB delta polarity stayTogether
     (match constraint with Some c => c | None => constraint_exact end).

End ToneDeltaPair.

(* ===================================================================== *)
(** * dynamiccolor/dynamic_scheme.ts: the fields of a scheme              *)
(* ===================================================================== *)

Module DynamicScheme.

Record t : Type := mk {
  sourceColorHct : Hct.t;
  sourceColorArgb : Z;
  variant : Variant;
  contrastLevel : R;
  isDark : bool;
  platform : Platform;
  specVersion : SpecVersion;
  primaryPalette : TonalPalette.t;
  secondaryPalette : TonalPalette.t;
  tertiaryPalette : TonalPalette.t;
  neutralPalette : TonalPalette.t;
  neutralVariantPalette : TonalPalette.t;
  errorPalette : TonalPalette.t
}.

Definition DEFAULT_SPEC_VERSION : SpecVersion := SPEC_2021.
Definition DEFAULT_PLATFORM : Platform := PHONE.

(** The argument of the constructor; [None] is an omitted property. *)
Record DynamicSchemeOptions : Type := mkOptions {
  opt_sourceColorHct : Hct.t;
  opt_variant : Variant;
  opt_isDark : bool;
  opt_contrastLevel : option R;
  opt_platform : option Platform;
  opt_specVersion : option SpecVersion;
  opt_primaryPalette : option TonalPalette.t;
  opt_secondaryPalette : option TonalPalette.t;
  opt_tertiaryPalette : option TonalPalette.t;
  opt_neutralPalette : option TonalPalette.t;
  opt_neutralVariantPalette : option TonalPalette.t;
  opt_errorPalette : option TonalPalette.t
}.

(** [interface DynamicSchemePalettesDelegate] *)
Record DynamicSchemePalettesDelegate : Type := mkDelegate {
  getPrimaryPalette :
    Variant -> Hct.t -> bool -> Platform -> R -> TonalPalette.t;
  getSecondaryPalette :
    Variant -> Hct.t -> bool -> Platform -> R -> TonalPalette.t;
  getTertiaryPalette :
    Variant -> Hct.t -> bool -> Platform -> R -> TonalPalette.t;
  getNeutralPalette :
    Variant -> Hct.t -> bool -> Platform -> R -> TonalPalette.t;
  getNeutralVariantPalette :
    Variant -> Hct.t -> bool -> Platform -> R -> TonalPalette.t;
  getErrorPalette :
    Variant -> Hct.t -> bool -> Platform -> R -> option TonalPalette.t
}.

Section Constructor.

(** The two implementations of the delegate (the per-variant palette
    tables), selected by [getSpec(specVersion)]. *)
Variable getSpec : SpecVersion -> DynamicSchemePalettesDelegate.

Definition orElse {A : Type} (o : option A) (d : A) : A :=
  match o with Some a => a | None => d end.

(** [constructor({...})] *)
Definition new (options : DynamicSchemeOptions) : t :=
  let sourceColorHct := opt_sourceColorHct options in
  let isDark := opt_isDark options in
  let contrastLevel := orElse (opt_contrastLevel options) 0 in
  let variant := opt_variant options in
  let specVersion := orElse (opt_specVersion options) DEFAULT_SPEC_VERSION in
  let platform := orElse (opt_platform options) DEFAULT_PLATFORM in
  mk sourceColorHct
     (Hct.toInt sourceColorHct)
     variant contrastLevel isDark platform specVersion
     (orElse (opt_primaryPalette options)
        (getPrimaryPalette (getSpec specVersion)
           variant sourceColorHct isDark platform contrastLevel))
     (orElse (opt_secondaryPalette options)
        (getSecondaryPalette (getSpec specVersion)
           variant sourceColorHct isDark platform contrastLevel))
     (orElse (opt_tertiaryPalette options)
        (getTertiaryPalette (getSpec specVersion)
           variant sourceColorHct isDark platform contrastLevel))
     (orElse (opt_neutralPalette options)
        (getNeutralPalette (getSpec specVersion)
           variant sourceColorHct isDark platform contrastLevel))
     (orElse (opt_neutralVariantPalette options)
        (getNeutralVariantPalette (getSpec specVersion)
           variant sourceColorHct isDark platform contrastLevel))
     (orElse (opt_errorPalette options)
        (orElse (getErrorPalette (getSpec specVersion)
                   variant sourceColorHct isDark platform contrastLevel)
                (TonalPalette.fromHueAndChroma 25 84))).

End Constructor.

(** [static getPiecewiseHue]: the loop returns at the first interval
    that holds the source hue. *)
Definition getPiecewiseHue (sourceColorHct : Hct.t)
    (hueBreakpoints hues : list R) : R :=
  let size := Z.min (Z.of_nat (List.length hueBreakpoints) - 1)
                    (Z.of_nat (List.length hues)) in
  let sourceHue := Hct.hue sourceColorHct in
  match
    find (fun i => (sourceHue >=? nth i hueBreakpoints 0)
                   && (sourceHue <? nth (i + 1) hueBreakpoints 0))
         (seq 0 (Z.to_nat size))
  with
  | Some i => sanitizeDegreesDouble (nth i hues 0)
  | None => sourceHue
  end.

Definition getRotatedHue (sourceColorHct : Hct.t)
    (hueBreakpoints rotations : list R) : R :=
  let rotation := getPiecewiseHue sourceColorHct hueBreakpoints rotations in
  let rotation :=
    if (Z.min (Z.of_nat (List.length hueBreakpoints) - 1)
              (Z.of_nat (List.length rotations)) <=? 0)%Z
    then 0 else rotation in
  sanitizeDegreesDouble (Hct.hue sourceColorHct + rotation).

End DynamicScheme.

(* ===================================================================== *)
(** * dynamiccolor/dynamic_color.ts                                       *)
(* ===================================================================== *)

(** [String.prototype.endsWith] *)
Definition endsWith (s suffix : string) : bool :=
  let n := String.length s in
  let k := String.length suffix in
  (k <=? n)%nat && String.eqb (substring (n - k) k s) suffix.

Module DynamicColor.

(** The fields of a [DynamicColor].  A property that may be [undefined]
    is an [option].  The functions [background], [secondBackground] and
    [toneDeltaPair] build the colors they return when they are called, so
    a role is a tree that unfolds on demand; the roles of this type are
    the ones whose unfolding is well founded. *)
#[warnings="-register-all"]
Inductive t : Type := mk {
  name : string;
  palette : DynamicScheme.t -> TonalPalette.t;
  tone : DynamicScheme.t -> R;
  isBackground : bool;
  chromaMultiplier : option (DynamicScheme.t -> R);
  background : option (DynamicScheme.t -> option t);
  secondBackground : option (DynamicScheme.t -> option t);
  contrastCurve : option (DynamicScheme.t -> option ContrastCurve.t);
  toneDeltaPair : option (DynamicScheme.t -> option (ToneDeltaPair.t t))
}.

Definition tonePrefersLightForeground (tone : R) : bool :=
  (Math_round tone <? 60)%Z.

Definition toneAllowsLightForeground (tone : R) : bool :=
  (Math_round tone <=? 49)%Z.

Definition enableLightForeground (tone : R) : R :=
  if tonePrefersLightForeground tone && negb (toneAllowsLightForeground tone)
  then 49 else tone.

Definition foregroundTone (bgTone ratio : R) : R :=
  let lighterTone := Contrast.lighterUnsafe bgTone ratio in
  let darkerTone := Contrast.darkerUnsafe bgTone ratio in
  let lighterRatio := Contrast.ratioOfTones lighterTone bgTone in
  let darkerRatio := Contrast.ratioOfTones darkerTone bgTone in
  let preferLighter := tonePrefersLightForeground bgTone in
  if preferLighter then
    let negligibleDifference :=
      (Math_abs (lighterRatio - darkerRatio) <? 0.1)
      && (lighterRatio <? ratio) && (darkerRatio <? ratio) in
    if (lighterRatio >=? ratio) || (lighterRatio >=? darkerRatio)
       || negligibleDifference
    then lighterTone else darkerTone
  else
    if (darkerRatio >=? ratio) || (darkerRatio >=? lighterRatio)
    then darkerTone else lighterTone.

(** The end of both delegates' [getTone] for a color without tone delta
    pair: the adjustment for a second background. *)
Definition secondBackgroundTone (bgTone1 bgTone2 desiredRatio answer : R) : R :=
  let upper := Math_max bgTone1 bgTone2 in
  let lower := Math_min bgTone1 bgTone2 in
  if (Contrast.ratioOfTones upper answer >=? desiredRatio)
     && (Contrast.ratioOfTones lower answer >=? desiredRatio)
  then answer
  else
    let lightOption := Contrast.lighter upper desiredRatio in
    let darkOption := Contrast.darker lower desiredRatio in
    let availables :=
      (if negb (lightOption =? -1) then [lightOption] else [])
      ++ (if negb (darkOption =? -1) then [darkOption] else []) in
    let prefersLight :=
      tonePrefersLightForeground bgTone1
      || tonePrefersLightForeground bgTone2 in
    if prefersLight then (if lightOption <? 0 then 100 else lightOption)
    else if (List.length availables =? 1)%nat then nth 0 availables 0
    else if darkOption <? 0 then 0 else darkOption.

Section Delegates.

(** [color.getTone(scheme)], the method the delegates call back. *)
Variable getTone : DynamicScheme.t -> t -> R.

(** [ColorCalculationDelegateImpl2021.getTone], the branch
    [if (toneDeltaPair) {...}]. *)
Definition getTone2021_pair (scheme : DynamicScheme.t) (color : t)
    (toneDeltaPair : ToneDeltaPair.t t) : R :=
  let decreasingContrast := DynamicScheme.contrastLevel scheme <? 0 in
  let roleA := ToneDeltaPair.roleA toneDeltaPair in
  let roleB := ToneDeltaPair.roleB toneDeltaPair in
  let delta := ToneDeltaPair.delta toneDeltaPair in
  let polarity := ToneDeltaPair.polarity toneDeltaPair in
  let stayTogether := ToneDeltaPair.stayTogether toneDeltaPair in
  let aIsNearer :=
    match polarity with
    | polarity_nearer => true
    | polarity_lighter => negb (DynamicScheme.isDark scheme)
    | polarity_darker => DynamicScheme.isDark scheme
    | _ => false
    end in
  let nearer := if aIsNearer then roleA else roleB in
  let farther := if aIsNearer then roleB else roleA in
  let amNearer := String.eqb (name color) (name nearer) in
  let expansionDir := if DynamicScheme.isDark scheme then 1 else -1 in
  let nTone := tone nearer scheme in
  let fTone := tone farther scheme in
  let '(nTone, fTone) :=
    match background color, contrastCurve nearer, contrastCurve farther with
    | Some background, Some nCurve, Some fCurve =>
        match background scheme, nCurve scheme, fCurve scheme with
        | Some bg, Some nContrastCurve, Some fContrastCurve =>
            let bgTone := getTone scheme bg in
            let nContrast :=
              ContrastCurve.get nContrastCurve
                (DynamicScheme.contrastLevel scheme) in
            let fContrast :=
              ContrastCurve.get fContrastCurve
                (DynamicScheme.contrastLevel scheme) in
            let nTone :=
              if Contrast.ratioOfTones bgTone nTone <? nContrast
              then foregroundTone bgTone nContrast else nTone in
            let fTone :=
              if Contrast.ratioOfTones bgTone fTone <? fContrast
              then foregroundTone bgTone fContrast else fTone in
            if decreasingContrast
            then (foregroundTone bgTone nContrast,
                  foregroundTone bgTone fContrast)
            else (nTone, fTone)
        | _, _, _ => (nTone, fTone)
        end
    | _, _, _ => (nTone, fTone)
    end in
  let '(nTone, fTone) :=
    if (fTone - nTone) * expansionDir <? delta then
      let fTone := clampDouble 0 100 (nTone + delta * expansionDir) in
      if (fTone - nTone) * expansionDir >=? delta then (nTone, fTone)
      else (clampDouble 0 100 (fTone - delta * expansionDir), fTone)
    else (nTone, fTone) in
  let '(nTone, fTone) :=
    if (50 <=? nTone) && (nTone <? 60) then
      if expansionDir >? 0
      then (60, Math_max fTone (60 + delta * expansionDir))
      else (49, Math_min fTone (49 + delta * expansionDir))
    else if (50 <=? fTone) && (fTone <? 60) then
      if stayTogether then
        if expansionDir >? 0
        then (60, Math_max fTone (60 + delta * expansionDir))
        else (49, Math_min fTone (49 + delta * expansionDir))
      else if expansionDir >? 0 then (nTone, 60)
      else (nTone, 49)
    else (nTone, fTone) in
  if amNearer then nTone else fTone.

(** [ColorCalculationDelegateImpl2021.getTone], the [else] branch. *)
Definition getTone2021_single (scheme : DynamicScheme.t) (color : t) : R :=
  let decreasingContrast := DynamicScheme.contrastLevel scheme <? 0 in
  let answer := tone color scheme in
  match background color, contrastCurve color with
  | Some background, Some contrastCurve =>
      match background scheme, contrastCurve scheme with
      | Some bg, Some curve =>
          let bgTone := getTone scheme bg in
          let desiredRatio :=
            ContrastCurve.get curve (DynamicScheme.contrastLevel scheme) in
          let answer :=
            if Contrast.ratioOfTones bgTone answer >=? desiredRatio
            then answer else foregroundTone bgTone desiredRatio in
          let answer :=
            if decreasingContrast then foregroundTone bgTone desiredRatio
            else answer in
          let answer :=
            if isBackground color && (50 <=? answer) && (answer <? 60) then
              if Contrast.ratioOfTones 49 bgTone >=? desiredRatio
              then 49 else 60
            else answer in
          match secondBackground color with
          | Some secondBackground =>
              match secondBackground scheme with
              | Some bg2 =>
                  let bgTone1 := getTone scheme bg in
                  let bgTone2 := getTone scheme bg2 in
                  secondBackgroundTone bgTone1 bgTone2 desiredRatio answer
              | None => answer
              end
          | None => answer
          end
      | _, _ => answer
      end
  | _, _ => answer
  end.

Definition getTone2021 (scheme : DynamicScheme.t) (color : t) : R :=
  match toneDeltaPair color with
  | Some toneDeltaPair =>
      match toneDeltaPair scheme with
      | Some toneDeltaPair => getTone2021_pair scheme color toneDeltaPair
      | None => getTone2021_single scheme color
      end
  | None => getTone2021_single scheme color
  end.

(** [ColorCalculationDelegateImpl2025.getTone], the branch
    [if (toneDeltaPair) {...}]. *)
Definition getTone2025_pair (scheme : DynamicScheme.t) (color : t)
    (toneDeltaPair : ToneDeltaPair.t t) : R :=
  let roleA := ToneDeltaPair.roleA toneDeltaPair in
  let roleB := ToneDeltaPair.roleB toneDeltaPair in
  let polarity := ToneDeltaPair.polarity toneDeltaPair in
  let constraint := ToneDeltaPair.constraint toneDeltaPair in
  let absoluteDelta :=
    if match polarity with
       | polarity_darker => true
       | polarity_relative_lighter => DynamicScheme.isDark scheme
       | polarity_relative_darker => negb (DynamicScheme.isDark scheme)
       | _ => false
       end
    then - ToneDeltaPair.delta toneDeltaPair
    else ToneDeltaPair.delta toneDeltaPair in
  let amRoleA := String.eqb (name color) (name roleA) in
  let selfRole := if amRoleA then roleA else roleB in
  let refRole := if amRoleA then roleB else roleA in
  let selfTone := tone selfRole scheme in
  let refTone := getTone scheme refRole in
  let relativeDelta := absoluteDelta * (if amRoleA then 1 else -1) in
  let selfTone :=
    match constraint with
    | constraint_exact => clampDouble 0 100 (refTone + relativeDelta)
    | constraint_nearer =>
        if relativeDelta >? 0
        then clampDouble 0 100
               (clampDouble refTone (refTone + relativeDelta) selfTone)
        else clampDouble 0 100
               (clampDouble (refTone + relativeDelta) refTone selfTone)
    | constraint_farther =>
        if relativeDelta >? 0
        then clampDouble (refTone + relativeDelta) 100 selfTone
        else clampDouble 0 (refTone + relativeDelta) selfTone
    end in
  let selfTone :=
    match background color, contrastCurve color with
    | Some background, Some contrastCurve =>
        match background scheme, contrastCurve scheme with
        | Some background, Some contrastCurve =>
            let bgTone := getTone scheme background in
            let selfContrast :=
              ContrastCurve.get contrastCurve
                (DynamicScheme.contrastLevel scheme) in
            if (Contrast.ratioOfTones bgTone selfTone >=? selfContrast)
               && (DynamicScheme.contrastLevel scheme >=? 0)
            then selfTone
            else foregroundTone bgTone selfContrast
        | _, _ => selfTone
        end
    | _, _ => selfTone
    end in
  if isBackground color && negb (endsWith (name color) "_fixed_dim") then
    if selfTone >=? 57 then clampDouble 65 100 selfTone
    else clampDouble 0 49 selfTone
  else selfTone.

(** [ColorCalculationDelegateImpl2025.getTone], the [else] branch. *)
Definition getTone2025_single (scheme : DynamicScheme.t) (color : t) : R :=
  let answer := tone color scheme in
  match background color, contrastCurve color with
  | Some background, Some contrastCurve =>
      match background scheme, contrastCurve scheme with
      | Some bg, Some curve =>
          let bgTone := getTone scheme bg in
          let desiredRatio :=
            ContrastCurve.get curve (DynamicScheme.contrastLevel scheme) in
          let answer :=
            if (Contrast.ratioOfTones bgTone answer >=? desiredRatio)
               && (DynamicScheme.contrastLevel scheme >=? 0)
            then answer
            else foregroundTone bgTone desiredRatio in
          let answer :=
            if isBackground color
               && negb (endsWith (name color) "_fixed_dim") then
              if answer >=? 57 then clampDouble 65 100 answer
              else clampDouble 0 49 answer
            else answer in
          match secondBackground color with
          | Some secondBackground =>
              match secondBackground scheme with
              | Some bg2 =>
                  let bgTone1 := getTone scheme bg in
                  let bgTone2 := getTone scheme bg2 in
                  secondBackgroundTone bgTone1 bgTone2 desiredRatio answer
              | None => answer
              end
          | None => answer
          end
      | _, _ => answer
      end
  | _, _ => answer
  end.

Definition getTone2025 (scheme : DynamicScheme.t) (color : t) : R :=
  match toneDeltaPair color with
  | Some toneDeltaPair =>
      match toneDeltaPair scheme with
      | Some toneDeltaPair => getTone2025_pair scheme color toneDeltaPair
      | None => getTone2025_single scheme color
      end
  | None => getTone2025_single scheme color
  end.

End Delegates.

(** [getTone(scheme)]:
    [getSpec(scheme.specVersion).getTone(scheme, this)]. *)
Fixpoint getTone (scheme : DynamicScheme.t) (this : t) {struct this} : R :=
  match DynamicScheme.specVersion scheme with
  | SPEC_2025 => getTone2025 getTone scheme this
  | SPEC_2021 => getTone2021 getTone scheme this
  end.

(** [ColorCalculationDelegateImpl2021.getHct] *)
Definition getHct2021 (scheme : DynamicScheme.t) (color : t) : Hct.t :=
  let tone := getTone scheme color in
  let palette := palette color scheme in
  TonalPalette.getHct palette tone.

(** [ColorCalculationDelegateImpl2025.getHct] *)
Definition getHct2025 (scheme : DynamicScheme.t) (color : t) : Hct.t :=
  let palette := palette color scheme in
  let tone := getTone scheme color in
  let hue := TonalPalette.hue palette in
  let chroma :=
    TonalPalette.chroma palette
    * (match chromaMultiplier color with
       | Some chromaMultiplier => chromaMultiplier scheme
       | None => 1
       end) in
  Hct.from hue chroma tone.

(** [getSpec(specVersion).getHct(scheme, color)] *)
Definition delegate_getHct (scheme : DynamicScheme.t) (color : t) : Hct.t :=
  match DynamicScheme.specVersion scheme with
  | SPEC_2025 => getHct2025 scheme color
  | SPEC_2021 => getHct2021 scheme color
  end.

(** The [hctCache] field: a [Map] from scheme objects to [Hct]. *)
Definition HctCache : Type := list (nat * Hct.t).

Definition clearCache (hctCache : HctCache) : HctCache := clear hctCache.

(** [getHct(scheme)]: returns the answer and the updated cache. *)
Definition getHct (this : t) (scheme : Ref DynamicScheme.t)
    (hctCache : HctCache) : Hct.t * HctCache :=
  match get Nat.eqb (ref_id scheme) hctCache with
  | Some cachedAnswer => (cachedAnswer, hctCache)
  | None =>
      let answer := delegate_getHct (deref scheme) this in
      let hctCache :=
        if (4 <? size hctCache)%nat then clear hctCache else hctCache in
      (answer, set Nat.eqb (ref_id scheme) answer hctCache)
  end.

Definition getArgb (this : t) (scheme : Ref DynamicScheme.t)
    (hctCache : HctCache) : Z * HctCache :=
  let '(hct, hctCache) := getHct this scheme hctCache in
  (Hct.toInt hct, hctCache).

Definition isSome {A : Type} (o : option A) : bool :=
  match o with Some _ => true | None => false end.

(** [constructor(name, palette, tone, ...)]: validates its arguments. *)
Definition new (name : string)
    (palette : DynamicScheme.t -> TonalPalette.t)
    (tone : DynamicScheme.t -> R)
    (isBackground : bool)
    (chromaMultiplier : option (DynamicScheme.t -> R))
    (background secondBackground : option (DynamicScheme.t -> option t))
    (contrastCurve : option (DynamicScheme.t -> option ContrastCurve.t))
    (toneDeltaPair : option (DynamicScheme.t -> option (ToneDeltaPair.t t)))
    : result t :=
  if negb (isSome background) && isSome secondBackground then
    Throw ("Color " ++ name
           ++ " has secondBackgrounddefined, but background is not defined.")
  else if negb (isSome background) && isSome contrastCurve then
    Throw ("Color " ++ name
           ++ " has contrastCurvedefined, but background is not defined.")
  else if isSome background && negb (isSome contrastCurve) then
    Throw ("Color " ++ name
           ++ " has backgrounddefined, but contrastCurve is not defined.")
  else
    Ok (mk name palette tone isBackground chromaMultiplier background
           secondBackground contrastCurve toneDeltaPair).

Definition getInitialToneFromBackground
    (background : option (DynamicScheme.t -> option t))
    : DynamicScheme.t -> R :=
  match background with
  | None => fun s => 50
  | Some background =>
      fun s => match background s with
               | Some bg => getTone s bg
               | None => 50
               end
  end.

(** [interface FromPaletteOptions] *)
Record FromPaletteOptions : Type := mkArgs {
  args_name : option string;
  args_palette : DynamicScheme.t -> TonalPalette.t;
  args_tone : option (DynamicScheme.t -> R);
  args_isBackground : option bool;
  args_chromaMultiplier : option (DynamicScheme.t -> R);
  args_background : option (DynamicScheme.t -> option t);
  args_secondBackground : option (DynamicScheme.t -> option t);
  args_contrastCurve : option (DynamicScheme.t -> option ContrastCurve.t);
  args_toneDeltaPair : option (DynamicScheme.t -> option (ToneDeltaPair.t t))
}.

Definition fromPalette (args : FromPaletteOptions) : result t :=
  new (match args_name args with Some n => n | None => EmptyString end)
      (args_palette args)
      (match args_tone args with
       | Some tone => tone
       | None => getInitialToneFromBackground (args_background args)
       end)
      (match args_isBackground args with Some b => b | None => false end)
      (args_chromaMultiplier args)
      (args_background args)
      (args_secondBackground args)
      (args_contrastCurve args)
      (args_toneDeltaPair args).

(** [clone()]: a new object through [fromPalette]; its cache is empty. *)
Definition clone (this : t) : result t :=
  fromPalette
    (mkArgs (Some (name this)) (palette this) (Some (tone this))
            (Some (isBackground this)) (chromaMultiplier this)
            (background this) (secondBackground this) (contrastCurve this)
            (toneDeltaPair this)).

End DynamicColor.

(* ===================================================================== *)
(** * Arrays                                                              *)
(* ===================================================================== *)

(** [a[i] = f(a[i])] on an array; an index past the end changes nothing
    (the source only assigns inside the array). *)
Fixpoint update {A : Type} (i : nat) (f : A -> A) (a : list A) : list A :=
  match a, i with
  | [], _ => []
  | x :: a', O => f x :: a'
  | x :: a', S i' => x :: update i' f a'
  end.

(** [Array.from({ length }).fill(v)] *)
Definition filled {A : Type} (length : Z) (v : A) : list A :=
  repeat v (Z.to_nat length).

(** The indices [0, 1, ..., n-1] of a [for (let i = 0; i < n; i++)] loop. *)
Definition upto (n : Z) : list Z := map Z.of_nat (seq 0 (Z.to_nat n)).

(** The indices [from, ..., n-1] of [for (let j = from; j < n; j++)]. *)
Definition range (from n : Z) : list Z :=
  map (fun k => (from + Z.of_nat k)%Z) (seq 0 (Z.to_nat (n - from))).

Definition atZ {A : Type} (a : list A) (i : Z) (undefined : A) : A :=
  if (i <? 0)%Z then undefined else nth (Z.to_nat i) a undefined.

(* ===================================================================== *)
(** * quantize/quantizer_map.ts                                           *)
(* ===================================================================== *)

Module QuantizerMap.

(** [Map<number, number>]: color -> number of pixels. *)
Definition CountByColor : Type := list (Z * Z).

Definition quantize_step (countByColor : CountByColor) (pixel : Z)
    : CountByColor :=
  let alpha := alphaFromArgb pixel in
  if (alpha <? 255)%Z then countByColor
  else
    set Z.eqb pixel
        ((match get Z.eqb pixel countByColor with
          | Some count => count
          | None => 0
          end) + 1)%Z
        countByColor.

Definition quantize (pixels : list Z) : CountByColor :=
  fold_left quantize_step pixels [].

End QuantizerMap.

(* ===================================================================== *)
(** * quantize/lab_point_provider.ts                                      *)
(* ===================================================================== *)

Module LabPointProvider.

Definition fromInt (argb : Z) : vec3 := labFromArgb argb.

Definition toInt (point : vec3) : Z :=
  argbFromLab (at3 point 0) (at3 point 1) (at3 point 2).

Definition distance (from to : vec3) : R :=
  let dL := at3 from 0 - at3 to 0 in
  let dA := at3 from 1 - at3 to 1 in
  let dB := at3 from 2 - at3 to 2 in
  dL * dL + dA * dA + dB * dB.

End LabPointProvider.

(* ===================================================================== *)
(** * quantize/quantizer_wsmeans.ts                                       *)
(* ===================================================================== *)

Module QuantizerWsmeans.

Definition MAX_ITERATIONS : nat := 10.
Definition MIN_MOVEMENT_DISTANCE : R := 3.

(** [class DistanceAndIndex]; both fields start at -1. *)
Record DistanceAndIndex : Type := mkDistanceAndIndex {
  distance : R;
  index : Z
}.
Definition new_DistanceAndIndex : DistanceAndIndex :=
  mkDistanceAndIndex (-1) (-1).

(** [Array.prototype.sort()] without a comparator orders the elements by
    their string conversion.  Every [DistanceAndIndex] converts to the
    same string, and the sort is stable: the row keeps its order. *)
Definition sort_default (row : list DistanceAndIndex) : list DistanceAndIndex :=
  row.

(** The first loop: distinct pixels in order of first appearance,
    their points, and the number of occurrences of each. *)
Record Dedup : Type := mkDedup {
  d_pixelToCount : list (Z * Z);
  d_points : list vec3;
  d_pixels : list Z;
  d_pointCount : Z
}.

Definition dedup_step (st : Dedup) (inputPixel : Z) : Dedup :=
  match get Z.eqb inputPixel (d_pixelToCount st) with
  | None =>
      mkDedup (set Z.eqb inputPixel 1%Z (d_pixelToCount st))
              (d_points st ++ [LabPointProvider.fromInt inputPixel])
              (d_pixels st ++ [inputPixel])
              (d_pointCount st + 1)
  | Some pixelCount =>
      mkDedup (set Z.eqb inputPixel (pixelCount + 1)%Z (d_pixelToCount st))
              (d_points st) (d_pixels st) (d_pointCount st)
  end.

Definition dedup (inputPixels : list Z) : Dedup :=
  fold_left dedup_step inputPixels (mkDedup [] [] [] 0).

Definition counts_of (d : Dedup) : list Z :=
  fold_left
    (fun counts i =>
       let pixel := atZ (d_pixels d) i 0%Z in
       match get Z.eqb pixel (d_pixelToCount d) with
       | Some count => counts ++ [count]
       | None => counts
       end)
    (upto (d_pointCount d)) [].

(** The state that the iterations of the main loop share. *)
Record State : Type := mkState {
  st_clusters : list vec3;
  st_clusterIndices : list Z;
  st_indexMatrix : list (list Z);
  st_distanceToIndexMatrix : list (list DistanceAndIndex);
  st_pixelCountSums : list Z
}.

Section Iteration.

Variables (points : list vec3) (counts : list Z).
Variables (pointCount clusterCount : Z).

(** The cluster-distance table of one iteration. *)
Definition distances_row (clusters : list vec3)
    (acc : list (list Z) * list (list DistanceAndIndex)) (i : Z)
    : list (list Z) * list (list DistanceAndIndex) :=
  let '(indexMatrix, distanceToIndexMatrix) := acc in
  let distanceToIndexMatrix :=
    fold_left
      (fun m j =>
         let distance :=
           LabPointProvider.distance (atZ clusters i (0, 0, 0))
                                     (atZ clusters j (0, 0, 0)) in
         let m := update (Z.to_nat j)
                    (update (Z.to_nat i)
                       (fun _ => mkDistanceAndIndex distance i)) m in
         update (Z.to_nat i)
           (update (Z.to_nat j)
              (fun _ => mkDistanceAndIndex distance j)) m)
      (range (i + 1) clusterCount) distanceToIndexMatrix in
  let distanceToIndexMatrix :=
    update (Z.to_nat i) sort_default distanceToIndexMatrix in
  let indexMatrix :=
    fold_left
      (fun m j =>
         update (Z.to_nat i)
           (update (Z.to_nat j)
              (fun _ => index (atZ (atZ distanceToIndexMatrix i []) j
                                   new_DistanceAndIndex)))
           m)
      (upto clusterCount) indexMatrix in
  (indexMatrix, distanceToIndexMatrix).

(** The reassignment of one point; returns the cluster indices and
    the number of points moved so far. *)
Definition move_point (clusters : list vec3)
    (distanceToIndexMatrix : list (list DistanceAndIndex))
    (acc : list Z * Z) (i : Z) : list Z * Z :=
  let '(clusterIndices, pointsMoved) := acc in
  let point := atZ points i (0, 0, 0) in
  let previousClusterIndex := atZ clusterIndices i 0%Z in
  let previousCluster := atZ clusters previousClusterIndex (0, 0, 0) in
  let previousDistance := LabPointProvider.distance point previousCluster in
  let '(minimumDistance, newClusterIndex) :=
    fold_left
      (fun (best : R * Z) j =>
         let '(minimumDistance, newClusterIndex) := best in
         if distance (atZ (atZ distanceToIndexMatrix previousClusterIndex [])
                          j new_DistanceAndIndex)
            >=? 4 * previousDistance
         then best
         else
           let distance :=
             LabPointProvider.distance point (atZ clusters j (0, 0, 0)) in
           if distance <? minimumDistance then (distance, j) else best)
      (upto clusterCount) (previousDistance, (-1)%Z) in
  if negb (newClusterIndex =? -1)%Z then
    let distanceChange :=
      Math_abs (Math_sqrt minimumDistance - Math_sqrt previousDistance) in
    if distanceChange >? MIN_MOVEMENT_DISTANCE
    then (update (Z.to_nat i) (fun _ => newClusterIndex) clusterIndices,
          (pointsMoved + 1)%Z)
    else (clusterIndices, pointsMoved)
  else (clusterIndices, pointsMoved).

(** The sums of one iteration: per cluster, the pixel count and the
    three weighted component sums. *)
Definition accumulate (clusterIndices : list Z)
    (acc : list Z * list R * list R * list R) (i : Z)
    : list Z * list R * list R * list R :=
  let '(pixelCountSums, componentASums, componentBSums, componentCSums) :=
    acc in
  let clusterIndex := Z.to_nat (atZ clusterIndices i 0%Z) in
  let point := atZ points i (0, 0, 0) in
  let count := atZ counts i 0%Z in
  (update clusterIndex (fun s => (s + count)%Z) pixelCountSums,
   update clusterIndex (fun s => s + at3 point 0 * IZR count) componentASums,
   update clusterIndex (fun s => s + at3 point 1 * IZR count) componentBSums,
   update clusterIndex (fun s => s + at3 point 2 * IZR count) componentCSums).

Definition recenter (sums : list Z * list R * list R * list R)
    (clusters : list vec3) (i : Z) : list vec3 :=
  let '(pixelCountSums, componentASums, componentBSums, componentCSums) :=
    sums in
  let count := atZ pixelCountSums i 0%Z in
  if (count =? 0)%Z then update (Z.to_nat i) (fun _ => (0, 0, 0)) clusters
  else
    let a := atZ componentASums i 0 / IZR count in
    let b := atZ componentBSums i 0 / IZR count in
    let c := atZ componentCSums i 0 / IZR count in
    update (Z.to_nat i) (fun _ => (a, b, c)) clusters.

(** [for (let iteration = 0; iteration < MAX_ITERATIONS; iteration++)];
    [rounds] counts the iterations that remain. *)
Fixpoint iterate (rounds : nat) (iteration : Z) (st : State) : State :=
  match rounds with
  | O => st
  | S rounds' =>
      let '(indexMatrix, distanceToIndexMatrix) :=
        fold_left (distances_row (st_clusters st)) (upto clusterCount)
                  (st_indexMatrix st, st_distanceToIndexMatrix st) in
      let '(clusterIndices, pointsMoved) :=
        fold_left (move_point (st_clusters st) distanceToIndexMatrix)
                  (upto pointCount) (st_clusterIndices st, 0%Z) in
      if (pointsMoved =? 0)%Z && negb (iteration =? 0)%Z then
        mkState (st_clusters st) clusterIndices indexMatrix
                distanceToIndexMatrix (st_pixelCountSums st)
      else
        let componentASums := filled clusterCount 0 in
        let componentBSums := filled clusterCount 0 in
        let componentCSums := filled clusterCount 0 in
        let pixelCountSums :=
          fold_left (fun sums i => update (Z.to_nat i) (fun _ => 0%Z) sums)
                    (upto clusterCount) (st_pixelCountSums st) in
        let sums :=
          fold_left (accumulate clusterIndices) (upto pointCount)
                    (pixelCountSums, componentASums, componentBSums,
                     componentCSums) in
        let clusters :=
          fold_left (recenter sums) (upto clusterCount) (st_clusters st) in
        iterate rounds' (iteration + 1)
          (mkState clusters clusterIndices indexMatrix
                   distanceToIndexMatrix (fst (fst (fst sums))))
  end.

End Iteration.

(** [quantize(inputPixels, startingClusters, maxColors)].  [random k] is
    the value of the [k]-th call of [Math.random()], a number in
    [0, 1).  The embedding follows the calls in which every array access
    finds its element, which are all the calls with [maxColors > 0] (the
    only ones [QuantizerCelebi] makes).  With [maxColors <= 0] the source
    can throw: a [RangeError] from [new Array(clusterCount)] for a negative
    count, a [TypeError] from the distance to a cluster that does not
    exist. *)
Definition quantize (random : nat -> R) (inputPixels startingClusters : list Z)
    (maxColors : Z) : list (Z * Z) :=
  let d := dedup inputPixels in
  let pointCount := d_pointCount d in
  let counts := counts_of d in
  let clusterCount := Z.min maxColors pointCount in
  let clusterCount :=
    if (0 <? List.length startingClusters)%nat
    then Z.min clusterCount (Z.of_nat (List.length startingClusters))
    else clusterCount in
  let clusters := map LabPointProvider.fromInt startingClusters in
  let additionalClustersNeeded :=
    (clusterCount - Z.of_nat (List.length clusters))%Z in
  let '(clusters, drawn) :=
    if (List.length startingClusters =? 0)%nat
       && (0 <? additionalClustersNeeded)%Z
    then
      fold_left
        (fun (acc : list vec3 * nat) (_ : Z) =>
           let '(clusters, k) := acc in
           let l := random k * 100 in
           let a := random (k + 1)%nat * 201 + -100 in
           let b := random (k + 2)%nat * 201 + -100 in
           (clusters ++ [(l, a, b)], (k + 3)%nat))
        (upto additionalClustersNeeded) (clusters, O)
    else (clusters, O) in
  let clusterIndices :=
    map (fun i => Math_floor (random (drawn + Z.to_nat i)%nat * IZR clusterCount))
        (upto pointCount) in
  let indexMatrix :=
    map (fun _ => filled clusterCount 0%Z) (upto clusterCount) in
  let distanceToIndexMatrix :=
    map (fun _ => filled clusterCount new_DistanceAndIndex) (upto clusterCount) in
  let pixelCountSums := filled clusterCount 0%Z in
  let st :=
    iterate (d_points d) counts pointCount clusterCount MAX_ITERATIONS 0
      (mkState clusters clusterIndices indexMatrix distanceToIndexMatrix
               pixelCountSums) in
  fold_left
    (fun (argbToPopulation : list (Z * Z)) i =>
       let count := atZ (st_pixelCountSums st) i 0%Z in
       if (count =? 0)%Z then argbToPopulation
       else
         let possibleNewCluster :=
           LabPointProvider.toInt (atZ (st_clusters st) i (0, 0, 0)) in
         if has Z.eqb possibleNewCluster argbToPopulation
         then argbToPopulation
         else set Z.eqb possibleNewCluster count argbToPopulation)
    (upto clusterCount) [].

End QuantizerWsmeans.

(* ===================================================================== *)
(** * quantize/quantizer_wu.ts                                            *)
(* ===================================================================== *)

Module QuantizerWu.

Definition INDEX_BITS : Z := 5.
Definition SIDE_LENGTH : Z := 33.
Definition TOTAL_SIZE : Z := 35937.

Record Box : Type := mkBox {
  r0 : Z; r1 : Z; g0 : Z; g1 : Z; b0 : Z; b1 : Z; vol : Z
}.

(** The fields of a [QuantizerWu] object. *)
Record t : Type := mk {
  weights : list Z;
  momentsR : list Z;
  momentsG : list Z;
  momentsB : list Z;
  moments : list Z;
  cubes : list Box
}.

(** [constructor()] with every argument at its default. *)
Definition new : t := mk [] [] [] [] [] [].

Definition getIndex (r g b : Z) : Z :=
  ((r << (INDEX_BITS * 2)) + (r << (INDEX_BITS + 1)) + r
   + (g << INDEX_BITS) + g + b)%Z.

Definition constructHistogram_step (this : t) (entry : Z * Z) : t :=
  let '(pixel, count) := entry in
  let red := redFromArgb pixel in
  let green := greenFromArgb pixel in
  let blue := blueFromArgb pixel in
  let bitsToRemove := (8 - INDEX_BITS)%Z in
  let iR := ((red >> bitsToRemove) + 1)%Z in
  let iG := ((green >> bitsToRemove) + 1)%Z in
  let iB := ((blue >> bitsToRemove) + 1)%Z in
  let index := Z.to_nat (getIndex iR iG iB) in
  mk (update index (fun w => (w + count)%Z) (weights this))
     (update index (fun m => (m + count * red)%Z) (momentsR this))
     (update index (fun m => (m + count * green)%Z) (momentsG this))
     (update index (fun m => (m + count * blue)%Z) (momentsB this))
     (update index
        (fun m => (m + count * (red * red + green * green + blue * blue))%Z)
        (moments this))
     (cubes this).

Definition constructHistogram (this : t) (pixels : list Z) : t :=
  let this :=
    mk (filled TOTAL_SIZE 0%Z) (filled TOTAL_SIZE 0%Z) (filled TOTAL_SIZE 0%Z)
       (filled TOTAL_SIZE 0%Z) (filled TOTAL_SIZE 0%Z) (cubes this) in
  let countByColor := QuantizerMap.quantize pixels in
  fold_left constructHistogram_step countByColor this.

Inductive Direction : Type := RED | GREEN | BLUE.

(** [moment[this.getIndex(r, g, b)]]; the boxes keep every index inside
    the array, outside of it JavaScript reads [undefined]. *)
Definition cell (moment : list Z) (r g b : Z) : Z :=
  atZ moment (getIndex r g b) 0%Z.

(** The running sums of [computeMoments]: the five [area] arrays of one
    red slice and the five [line] sums of one green row. *)
Record Areas : Type := mkAreas {
  area : list Z; areaR : list Z; areaG : list Z; areaB : list Z; area2 : list Z
}.

Record Lines : Type := mkLines {
  line : Z; lineR : Z; lineG : Z; lineB : Z; line2 : Z
}.

Definition computeMoments_b (r g : Z) (acc : t * Areas * Lines) (b : Z)
    : t * Areas * Lines :=
  let '(this, areas, lines) := acc in
  let index := getIndex r g b in
  let line := (line lines + atZ (weights this) index 0)%Z in
  let lineR := (lineR lines + atZ (momentsR this) index 0)%Z in
  let lineG := (lineG lines + atZ (momentsG this) index 0)%Z in
  let lineB := (lineB lines + atZ (momentsB this) index 0)%Z in
  let line2 := (line2 lines + atZ (moments this) index 0)%Z in
  let area := update (Z.to_nat b) (fun a => (a + line)%Z) (area areas) in
  let areaR := update (Z.to_nat b) (fun a => (a + lineR)%Z) (areaR areas) in
  let areaG := update (Z.to_nat b) (fun a => (a + lineG)%Z) (areaG areas) in
  let areaB := update (Z.to_nat b) (fun a => (a + lineB)%Z) (areaB areas) in
  let area2 := update (Z.to_nat b) (fun a => (a + line2)%Z) (area2 areas) in
  let previousIndex := getIndex (r - 1) g b in
  let set_cell (moment : list Z) (area : list Z) :=
    update (Z.to_nat index)
           (fun _ => (atZ moment previousIndex 0 + atZ area b 0)%Z) moment in
  (mk (set_cell (weights this) area)
      (set_cell (momentsR this) areaR)
      (set_cell (momentsG this) areaG)
      (set_cell (momentsB this) areaB)
      (set_cell (moments this) area2)
      (cubes this),
   mkAreas area areaR areaG areaB area2,
   mkLines line lineR lineG lineB line2).

Definition computeMoments_g (r : Z) (acc : t * Areas) (g : Z) : t * Areas :=
  let '(this, areas) := acc in
  let '(this, areas, _) :=
    fold_left (computeMoments_b r g) (range 1 SIDE_LENGTH)
              (this, areas, mkLines 0 0 0 0 0) in
  (this, areas).

Definition computeMoments_r (this : t) (r : Z) : t :=
  let areas :=
    mkAreas (filled SIDE_LENGTH 0%Z) (filled SIDE_LENGTH 0%Z)
            (filled SIDE_LENGTH 0%Z) (filled SIDE_LENGTH 0%Z)
            (filled SIDE_LENGTH 0%Z) in
  fst (fold_left (computeMoments_g r) (range 1 SIDE_LENGTH) (this, areas)).

Definition computeMoments (this : t) : t :=
  fold_left computeMoments_r (range 1 SIDE_LENGTH) this.

Definition volume (cube : Box) (moment : list Z) : Z :=
  (cell moment (r1 cube) (g1 cube) (b1 cube)
   - cell moment (r1 cube) (g1 cube) (b0 cube)
   - cell moment (r1 cube) (g0 cube) (b1 cube)
   + cell moment (r1 cube) (g0 cube) (b0 cube)
   - cell moment (r0 cube) (g1 cube) (b1 cube)
   + cell moment (r0 cube) (g1 cube) (b0 cube)
   + cell moment (r0 cube) (g0 cube) (b1 cube)
   - cell moment (r0 cube) (g0 cube) (b0 cube))%Z.

Definition bottom (cube : Box) (direction : Direction) (moment : list Z) : Z :=
  match direction with
  | RED =>
      (- cell moment (r0 cube) (g1 cube) (b1 cube)
       + cell moment (r0 cube) (g1 cube) (b0 cube)
       + cell moment (r0 cube) (g0 cube) (b1 cube)
       - cell moment (r0 cube) (g0 cube) (b0 cube))%Z
  | GREEN =>
      (- cell moment (r1 cube) (g0 cube) (b1 cube)
       + cell moment (r1 cube) (g0 cube) (b0 cube)
       + cell moment (r0 cube) (g0 cube) (b1 cube)
       - cell moment (r0 cube) (g0 cube) (b0 cube))%Z
  | BLUE =>
      (- cell moment (r1 cube) (g1 cube) (b0 cube)
       + cell moment (r1 cube) (g0 cube) (b0 cube)
       + cell moment (r0 cube) (g1 cube) (b0 cube)
       - cell moment (r0 cube) (g0 cube) (b0 cube))%Z
  end.

Definition top (cube : Box) (direction : Direction) (position : Z)
    (moment : list Z) : Z :=
  match direction with
  | RED =>
      (cell moment position (g1 cube) (b1 cube)
       - cell moment position (g1 cube) (b0 cube)
       - cell moment position (g0 cube) (b1 cube)
       + cell moment position (g0 cube) (b0 cube))%Z
  | GREEN =>
      (cell moment (r1 cube) position (b1 cube)
       - cell moment (r1 cube) position (b0 cube)
       - cell moment (r0 cube) position (b1 cube)
       + cell moment (r0 cube) position (b0 cube))%Z
  | BLUE =>
      (cell moment (r1 cube) (g1 cube) position
       - cell moment (r1 cube) (g0 cube) position
       - cell moment (r0 cube) (g1 cube) position
       + cell moment (r0 cube) (g0 cube) position)%Z
  end.

Definition variance (this : t) (cube : Box) : R :=
  let dr := volume cube (momentsR this) in
  let dg := volume cube (momentsG this) in
  let db := volume cube (momentsB this) in
  let xx :=
    (cell (moments this) (r1 cube) (g1 cube) (b1 cube)
     - cell (moments this) (r1 cube) (g1 cube) (b0 cube)
     - cell (moments this) (r1 cube) (g0 cube) (b1 cube)
     + cell (moments this) (r1 cube) (g0 cube) (b0 cube)
     - cell (moments this) (r0 cube) (g1 cube) (b1 cube)
     + cell (moments this) (r0 cube) (g1 cube) (b0 cube)
     + cell (moments this) (r0 cube) (g0 cube) (b1 cube)
     - cell (moments this) (r0 cube) (g0 cube) (b0 cube))%Z in
  let hypotenuse := (dr * dr + dg * dg + db * db)%Z in
  let volume := volume cube (weights this) in
  IZR xx - IZR hypotenuse / IZR volume.

(** [class MaximizeResult] *)
Record MaximizeResult : Type := mkMaximizeResult {
  cutLocation : Z;
  maximum : R
}.

Definition maximize_step (this : t) (cube : Box) (direction : Direction)
    (wholeR wholeG wholeB wholeW bottomR bottomG bottomB bottomW : Z)
    (acc : R * Z) (i : Z) : R * Z :=
  let '(max, cut) := acc in
  let halfR := (bottomR + top cube direction i (momentsR this))%Z in
  let halfG := (bottomG + top cube direction i (momentsG this))%Z in
  let halfB := (bottomB + top cube direction i (momentsB this))%Z in
  let halfW := (bottomW + top cube direction i (weights this))%Z in
  if (halfW =? 0)%Z then acc
  else
    let tempNumerator :=
      IZR (halfR * halfR + halfG * halfG + halfB * halfB) * 1 in
    let tempDenominator := IZR halfW * 1 in
    let temp := tempNumerator / tempDenominator in
    let halfR := (wholeR - halfR)%Z in
    let halfG := (wholeG - halfG)%Z in
    let halfB := (wholeB - halfB)%Z in
    let halfW := (wholeW - halfW)%Z in
    if (halfW =? 0)%Z then acc
    else
      let tempNumerator :=
        IZR (halfR * halfR + halfG * halfG + halfB * halfB) * 1 in
      let tempDenominator := IZR halfW * 1 in
      let temp := temp + tempNumerator / tempDenominator in
      if temp >? max then (temp, i) else acc.

Definition maximize (this : t) (cube : Box) (direction : Direction)
    (first last wholeR wholeG wholeB wholeW : Z) : MaximizeResult :=
  let bottomR := bottom cube direction (momentsR this) in
  let bottomG := bottom cube direction (momentsG this) in
  let bottomB := bottom cube direction (momentsB this) in
  let bottomW := bottom cube direction (weights this) in
  let '(max, cut) :=
    fold_left
      (maximize_step this cube direction wholeR wholeG wholeB wholeW
                     bottomR bottomG bottomB bottomW)
      (range first last) (0, (-1)%Z) in
  mkMaximizeResult cut max.

Definition with_vol (cube : Box) : Box :=
  mkBox (r0 cube) (r1 cube) (g0 cube) (g1 cube) (b0 cube) (b1 cube)
        ((r1 cube - r0 cube) * (g1 cube - g0 cube) * (b1 cube - b0 cube))%Z.

(** [cut(one, two)] assigns to the fields of both boxes; here it returns
    them beside its boolean result. *)
Definition cut (this : t) (one two : Box) : bool * Box * Box :=
  let wholeR := volume one (momentsR this) in
  let wholeG := volume one (momentsG this) in
  let wholeB := volume one (momentsB this) in
  let wholeW := volume one (weights this) in
  let maxRResult :=
    maximize this one RED (r0 one + 1) (r1 one) wholeR wholeG wholeB wholeW in
  let maxGResult :=
    maximize this one GREEN (g0 one + 1) (g1 one) wholeR wholeG wholeB wholeW in
  let maxBResult :=
    maximize this one BLUE (b0 one + 1) (b1 one) wholeR wholeG wholeB wholeW in
  let maxR := maximum maxRResult in
  let maxG := maximum maxGResult in
  let maxB := maximum maxBResult in
  let split (direction : Direction) : bool * Box * Box :=
    match direction with
    | RED =>
        let one' := mkBox (r0 one) (cutLocation maxRResult) (g0 one) (g1 one)
                          (b0 one) (b1 one) (vol one) in
        let two' := mkBox (r1 one') (r1 one) (g0 one') (g1 one)
                          (b0 one') (b1 one) (vol two) in
        (true, with_vol one', with_vol two')
    | GREEN =>
        let one' := mkBox (r0 one) (r1 one) (g0 one) (cutLocation maxGResult)
                          (b0 one) (b1 one) (vol one) in
        let two' := mkBox (r0 one') (r1 one) (g1 one') (g1 one)
                          (b0 one') (b1 one) (vol two) in
        (true, with_vol one', with_vol two')
    | BLUE =>
        let one' := mkBox (r0 one) (r1 one) (g0 one) (g1 one)
                          (b0 one) (cutLocation maxBResult) (vol one) in
        let two' := mkBox (r0 one') (r1 one) (g0 one') (g1 one)
                          (b1 one') (b1 one) (vol two) in
        (true, with_vol one', with_vol two')
    end in
  if (maxR >=? maxG) && (maxR >=? maxB) then
    if (cutLocation maxRResult <? 0)%Z then (false, one, two)
    else split RED
  else if (maxG >=? maxR) && (maxG >=? maxB) then split GREEN
  else split BLUE.

(** The scan [for (let j = 1; j <= i; j++)] for the box of largest
    variance. *)
Definition largest_variance (volumeVariance : list R) (i : Z) : R * Z :=
  fold_left
    (fun (acc : R * Z) j =>
       if atZ volumeVariance j 0 >? fst acc
       then (atZ volumeVariance j 0, j) else acc)
    (range 1 (i + 1)) (atZ volumeVariance 0 0, 0%Z).

(** The loop [for (let i = 1; i < maxColors; i++)] of [createBoxes],
    whose body may decrement [i]; the result is the number of colors
    generated and the boxes, or [None] when [fuel] iterations were not
    enough. *)
Fixpoint createBoxes_loop (fuel : nat) (this : t) (maxColors : Z)
    (cubes : list Box) (volumeVariance : list R) (next i : Z)
    : option (Z * list Box) :=
  if (i <? maxColors)%Z then
    match fuel with
    | O => None
    | S fuel' =>
        let zero := mkBox 0 0 0 0 0 0 0 in
        let '(ok, one, two) := cut this (atZ cubes next zero) (atZ cubes i zero) in
        let cubes :=
          if ok
          then update (Z.to_nat i) (fun _ => two)
                 (update (Z.to_nat next) (fun _ => one) cubes)
          else cubes in
        let volumeVariance :=
          if ok then
            update (Z.to_nat i)
              (fun _ => if (vol two >? 1)%Z then variance this two else 0)
              (update (Z.to_nat next)
                 (fun _ => if (vol one >? 1)%Z then variance this one else 0)
                 volumeVariance)
          else update (Z.to_nat next) (fun _ => 0) volumeVariance in
        let i := if ok then i else (i - 1)%Z in
        let '(temp, next) := largest_variance volumeVariance i in
        if temp <=? 0 then Some ((i + 1)%Z, cubes)
        else createBoxes_loop fuel' this maxColors cubes volumeVariance
                              next (i + 1)
    end
  else Some (maxColors, cubes).

(** [class CreateBoxesResult] *)
Record CreateBoxesResult : Type := mkCreateBoxesResult {
  requestedCount : Z;
  resultCount : Z
}.

(** [createBoxes(maxColors)]: the assignment [this.cubes[0].r0 = 0] on an
    empty array of boxes is a [TypeError]. *)
Definition createBoxes (fuel : nat) (this : t) (maxColors : Z)
    : option (result (CreateBoxesResult * t)) :=
  let cubes := filled maxColors (mkBox 0 0 0 0 0 0 0) in
  let volumeVariance := filled maxColors 0 in
  match cubes with
  | [] => Some (Throw "TypeError: Cannot set properties of undefined")
  | _ :: _ =>
      let cubes :=
        update 0
          (fun cube =>
             mkBox 0 (SIDE_LENGTH - 1) 0 (SIDE_LENGTH - 1) 0 (SIDE_LENGTH - 1)
                   (vol cube))
          cubes in
      match createBoxes_loop fuel this maxColors cubes volumeVariance 0 1 with
      | Some (generatedColorCount, cubes) =>
          Some (Ok (mkCreateBoxesResult maxColors generatedColorCount,
                    mk (weights this) (momentsR this) (momentsG this)
                       (momentsB this) (moments this) cubes))
      | None => None
      end
  end.

Definition createResult (this : t) (colorCount : Z) : list Z :=
  fold_left
    (fun (colors : list Z) i =>
       let cube := atZ (cubes this) i (mkBox 0 0 0 0 0 0 0) in
       let weight := volume cube (weights this) in
       if (weight >? 0)%Z then
         let r := Math_round (IZR (volume cube (momentsR this)) / IZR weight) in
         let g := Math_round (IZR (volume cube (momentsG this)) / IZR weight) in
         let b := Math_round (IZR (volume cube (momentsB this)) / IZR weight) in
         let color :=
           255 << 24 .| (r .& 255) << 16 .| (g .& 255) << 8 .| b .& 255 in
         colors ++ [color]
       else colors)
    (upto colorCount) [].

(** [quantize(pixels, maxColors)]; [fuel] bounds the loop of
    [createBoxes]. *)
Definition quantize (fuel : nat) (this : t) (pixels : list Z) (maxColors : Z)
    : option (result (list Z)) :=
  let this := constructHistogram this pixels in
  let this := computeMoments this in
  match createBoxes fuel this maxColors with
  | Some (Ok (createBoxesResult, this)) =>
      let results := createResult this (resultCount createBoxesResult) in
      Some (Ok results)
  | Some (Throw e) => Some (Throw e)
  | None => None
  end.

End QuantizerWu.

(* ===================================================================== *)
(** * quantize/quantizer_celebi.ts                                        *)
(* ===================================================================== *)

Module QuantizerCelebi.

(** [quantize(pixels, maxColors)]; [fuel] bounds the loop of Wu's
    [createBoxes], and [random] is the sequence of [Math.random()]. *)
Definition quantize (fuel : nat) (random : nat -> R) (pixels : list Z)
    (maxColors : Z) : option (result (list (Z * Z))) :=
  let wu := QuantizerWu.new in
  match QuantizerWu.quantize fuel wu pixels maxColors with
  | Some (Ok wuResult) =>
      Some (Ok (QuantizerWsmeans.quantize random pixels wuResult maxColors))
  | Some (Throw e) => Some (Throw e)
  | None => None
  end.

End QuantizerCelebi.

(* ===================================================================== *)
(** * score/score.ts                                                      *)
(* ===================================================================== *)

Module Score.

(** The [options] argument; [None] is a property that is absent, which
    the spread [{...SCORE_OPTION_DEFAULTS, ...options}] fills in. *)
Record ScoreOptions : Type := mkOptions {
  opt_desired : option Z;
  opt_fallbackColorARGB : option Z;
  opt_filter : option bool
}.

Definition DEFAULT_desired : Z := 4.
Definition DEFAULT_fallbackColorARGB : Z := 4282549748.
Definition DEFAULT_filter : bool := true.

Definition TARGET_CHROMA : R := 48.
Definition WEIGHT_PROPORTION : R := 0.7.
Definition WEIGHT_CHROMA_ABOVE : R := 0.3.
Definition WEIGHT_CHROMA_BELOW : R := 0.1.
Definition CUTOFF_CHROMA : R := 5.
Definition CUTOFF_EXCITED_PROPORTION : R := 0.01.

(** [a[i] += v] at an index that is never negative in the source. *)
Definition add_at {A : Type} (add : A -> A) (i : Z) (a : list A) : list A :=
  if (i <? 0)%Z then a else update (Z.to_nat i) add a.

(** The first loop: the colors in HCT, the population of every whole hue
    and the total population. *)
Definition population_step (acc : list Hct.t * list Z * Z) (entry : Z * Z)
    : list Hct.t * list Z * Z :=
  let '(colorsHct, huePopulation, populationSum) := acc in
  let '(argb, population) := entry in
  let hct := Hct.fromInt argb in
  let hue := Math_floor (Hct.hue hct) in
  (colorsHct ++ [hct],
   add_at (fun p => (p + population)%Z) hue huePopulation,
   (populationSum + population)%Z).

(** The second loop: every hue spreads its proportion over the 30 hues
    around it. *)
Definition excite_step (huePopulation : list Z) (populationSum : Z)
    (hueExcitedProportions : list R) (hue : Z) : list R :=
  let proportion := IZR (atZ huePopulation hue 0%Z) / IZR populationSum in
  fold_left
    (fun (hueExcitedProportions : list R) i =>
       let neighborHue := sanitizeDegreesInt i in
       add_at (fun p => p + proportion) neighborHue hueExcitedProportions)
    (range (hue - 14) (hue + 16)) hueExcitedProportions.

(** The third loop: the score of every color that passes the filter. *)
Definition score_step (filter : bool) (hueExcitedProportions : list R)
    (scoredHct : list (Hct.t * R)) (hct : Hct.t) : list (Hct.t * R) :=
  let hue := sanitizeDegreesInt (Math_round (Hct.hue hct)) in
  let proportion := atZ hueExcitedProportions hue 0 in
  if filter && ((Hct.chroma hct <? CUTOFF_CHROMA)
                || (proportion <=? CUTOFF_EXCITED_PROPORTION))
  then scoredHct
  else
    let proportionScore := proportion * 100 * WEIGHT_PROPORTION in
    let chromaWeight :=
      if Hct.chroma hct <? TARGET_CHROMA
      then WEIGHT_CHROMA_BELOW else WEIGHT_CHROMA_ABOVE in
    let chromaScore := (Hct.chroma hct - TARGET_CHROMA) * chromaWeight in
    let score := proportionScore + chromaScore in
    scoredHct ++ [(hct, score)].

(** [compare(a, b)] *)
Definition compare (a b : Hct.t * R) : Z :=
  if snd a >? snd b then (-1)%Z
  else if snd a <? snd b then 1%Z
  else 0%Z.

(** [scoredHct.sort(compare)]: the sort is stable, so its result is the
    one of an insertion sort that keeps equal elements in their order. *)
Fixpoint insert (a : Hct.t * R) (sorted : list (Hct.t * R))
    : list (Hct.t * R) :=
  match sorted with
  | [] => [a]
  | b :: sorted' =>
      if (compare a b <=? 0)%Z then a :: b :: sorted'
      else b :: insert a sorted'
  end.

Definition sort (scoredHct : list (Hct.t * R)) : list (Hct.t * R) :=
  fold_right insert [] scoredHct.

(** The loop [for (const { hct } of scoredHct)] for one value of
    [differenceDegrees], with its [break]. *)
Fixpoint choose (desired : Z) (differenceDegrees1 : Z)
    (scoredHct : list (Hct.t * R)) (chosenColors : list Hct.t)
    : list Hct.t :=
  match scoredHct with
  | [] => chosenColors
  | (hct, _) :: scoredHct' =>
      let duplicateHue :=
        find (fun chosenHct =>
                differenceDegrees (Hct.hue hct) (Hct.hue chosenHct)
                <? IZR differenceDegrees1)
             chosenColors in
      let chosenColors :=
        match duplicateHue with
        | None => chosenColors ++ [hct]
        | Some _ => chosenColors
        end in
      if (Z.of_nat (List.length chosenColors) >=? desired)%Z
      then chosenColors
      else choose desired differenceDegrees1 scoredHct' chosenColors
  end.

(** The loop [for (differenceDegrees = 90; differenceDegrees >= 15;
    differenceDegrees--)] over the values that remain. *)
Fixpoint choose_rounds (desired : Z) (scoredHct : list (Hct.t * R))
    (rounds : list Z) (chosenColors : list Hct.t) : list Hct.t :=
  match rounds with
  | [] => chosenColors
  | differenceDegrees1 :: rounds' =>
      let chosenColors := choose desired differenceDegrees1 scoredHct [] in
      if (Z.of_nat (List.length chosenColors) >=? desired)%Z
      then chosenColors
      else choose_rounds desired scoredHct rounds' chosenColors
  end.

(** [score(colorsToPopulation, options)]; the map holds the number of
    pixels of every color. *)
Definition score (colorsToPopulation : list (Z * Z))
    (options : option ScoreOptions) : list Z :=
  let desired :=
    match options with
    | Some {| opt_desired := Some desired |} => desired
    | _ => DEFAULT_desired
    end in
  let fallbackColorARGB :=
    match options with
    | Some {| opt_fallbackColorARGB := Some fallback |} => fallback
    | _ => DEFAULT_fallbackColorARGB
    end in
  let filter :=
    match options with
    | Some {| opt_filter := Some filter |} => filter
    | _ => DEFAULT_filter
    end in
  let '(colorsHct, huePopulation, populationSum) :=
    fold_left population_step colorsToPopulation
              ([], filled 360 0%Z, 0%Z) in
  let hueExcitedProportions :=
    fold_left (excite_step huePopulation populationSum) (upto 360)
              (filled 360 0) in
  let scoredHct :=
    fold_left (score_step filter hueExcitedProportions) colorsHct [] in
  let scoredHct := sort scoredHct in
  let chosenColors :=
    choose_rounds desired scoredHct
                  (map (fun k => (90 - Z.of_nat k)%Z) (seq 0 76)) [] in
  let colors :=
    if (List.length chosenColors =? 0)%nat then [fallbackColorARGB] else [] in
  colors ++ map Hct.toInt chosenColors.

End Score.

(* ===================================================================== *)
(** * utils/string_utils.ts                                               *)
(* ===================================================================== *)

(** Strings are sequences of code units below 256. *)

Definition hexDigits : list ascii :=
  ["0"; "1"; "2"; "3"; "4"; "5"; "6"; "7"; "8"; "9";
   "a"; "b"; "c"; "d"; "e"; "f"]%char.

(** [n.toString(16)] on an integer. *)
Fixpoint toString16_digits (fuel : nat) (n : Z) (acc : string) : string :=
  let acc := String (nth (Z.to_nat (n mod 16)) hexDigits "0"%char) acc in
  match fuel with
  | O => acc
  | S fuel' =>
      if (n / 16 =? 0)%Z then acc else toString16_digits fuel' (n / 16) acc
  end.

Definition toString16 (n : Z) : string :=
  if (n <? 0)%Z
  then String "-"%char
         (toString16_digits (Z.to_nat (Z.log2 (- n))) (- n) EmptyString)
  else toString16_digits (Z.to_nat (Z.log2 n)) n EmptyString.

(** The value of a hexadecimal digit. *)
Definition digit16 (c : ascii) : option Z :=
  let n := Z.of_nat (nat_of_ascii c) in
  if (48 <=? n)%Z && (n <=? 57)%Z then Some (n - 48)%Z
  else if (97 <=? n)%Z && (n <=? 102)%Z then Some (n - 87)%Z
  else if (65 <=? n)%Z && (n <=? 70)%Z then Some (n - 55)%Z
  else None.

(** White space and line terminators, among the code units below 256. *)
Definition isWhiteSpace (c : ascii) : bool :=
  let n := nat_of_ascii c in
  ((9 <=? n) && (n <=? 13) || (n =? 32) || (n =? 160))%nat.

Fixpoint trimStart (s : string) : string :=
  match s with
  | String c s' => if isWhiteSpace c then trimStart s' else s
  | EmptyString => s
  end.

(** The digits at the start of [s], read in base 16; [None] when there is
    none. *)
Fixpoint digits16 (s : string) (acc : option Z) : option Z :=
  match s with
  | String c s' =>
      match digit16 c with
      | Some d =>
          digits16 s' (Some (16 * match acc with Some a => a | None => 0 end
                             + d)%Z)
      | None => acc
      end
  | EmptyString => acc
  end.

(** [parseInt(value, 16)]; [None] is [NaN]. *)
Definition parseInt16 (value : string) : option Z :=
  let s := trimStart value in
  let '(sign, s) :=
    match s with
    | String "-"%char s' => ((-1)%Z, s')
    | String "+"%char s' => (1%Z, s')
    | _ => (1%Z, s)
    end in
  let s :=
    match s with
    | String "0"%char (String "x"%char s') => s'
    | String "0"%char (String "X"%char s') => s'
    | _ => s
    end in
  match digits16 s None with
  | Some mathInt => Some (sign * mathInt)%Z
  | None => None
  end.

(** [hex.replace] of the first ["#"] by the empty string. *)
Fixpoint removeHash (hex : string) : string :=
  match hex with
  | String c hex' =>
      if Ascii.eqb c "#"%char then hex' else String c (removeHash hex')
  | EmptyString => EmptyString
  end.

(** [s.slice(from, to)] with [0 <= from <= to]. *)
Definition slice (s : string) (from to : nat) : string :=
  substring from (to - from) s.

Definition parseIntHex (value : string) : option Z := parseInt16 value.

(** The bit operators take [NaN] for 0. *)
Definition orZero (n : option Z) : Z :=
  match n with Some n => n | None => 0%Z end.

Definition hexFromArgb (argb : Z) : string :=
  let r := redFromArgb argb in
  let g := greenFromArgb argb in
  let b := blueFromArgb argb in
  let outParts := [toString16 r; toString16 g; toString16 b] in
  let outParts :=
    map (fun part =>
           if (String.length part =? 1)%nat
           then String "0"%char part else part)
        outParts in
  String "#"%char (String.concat EmptyString outParts).

Definition argbFromHex (hex : string) : result Z :=
  let hex := removeHash hex in
  let isThree := (String.length hex =? 3)%nat in
  let isSix := (String.length hex =? 6)%nat in
  let isEight := (String.length hex =? 8)%nat in
  if negb isThree && negb isSix && negb isEight
  then Throw ("unexpected hex " ++ hex)
  else
    let '(r, g, b) :=
      if isThree then
        (parseIntHex (slice hex 0 1 ++ slice hex 0 1),
         parseIntHex (slice hex 1 2 ++ slice hex 1 2),
         parseIntHex (slice hex 2 3 ++ slice hex 2 3))
      else if isSix then
        (parseIntHex (slice hex 0 2),
         parseIntHex (slice hex 2 4),
         parseIntHex (slice hex 4 6))
      else
        (parseIntHex (slice hex 2 4),
         parseIntHex (slice hex 4 6),
         parseIntHex (slice hex 6 8)) in
    Ok ((255 << 24 .| (orZero r .& 255) << 16 .| (orZero g .& 255) << 8
         .| orZero b .& 255) >>> 0).

(* ===================================================================== *)
(** * utils/image_utils.ts                                                *)
(* ===================================================================== *)

(** The body of the loop [for (let i = 0; i < imageBytes.length; i += 4)]
    of [sourceColorFromImageBytes].  A byte past the end of the array is
    [undefined]: the comparison [a < 255] is then false, and [argbFromRgb]
    takes it for 0. *)
Definition pixel_step (imageBytes : list Z) (pixels : list Z) (i : nat)
    : list Z :=
  let r := nth_error imageBytes i in
  let g := nth_error imageBytes (i + 1) in
  let b := nth_error imageBytes (i + 2) in
  let a := nth_error imageBytes (i + 3) in
  if match a with Some a => (a <? 255)%Z | None => false end then pixels
  else
    let argb := argbFromRgb (orZero r) (orZero g) (orZero b) in
    pixels ++ [argb].

(** [sourceColorFromImageBytes(imageBytes)]; [fuel] bounds the loop of
    Wu's [createBoxes] and [random] is the sequence of [Math.random()].
    The innermost [None] is [undefined]. *)
Definition sourceColorFromImageBytes (fuel : nat) (random : nat -> R)
    (imageBytes : list Z) : option (result (option Z)) :=
  let pixels :=
    fold_left (pixel_step imageBytes)
              (map (fun k => (4 * k)%nat)
                   (seq 0 ((List.length imageBytes + 3) / 4)))
              [] in
  match QuantizerCelebi.quantize fuel random pixels 128 with
  | Some (Ok result) =>
      let ranked := Score.score result None in
      let top := nth_error ranked 0 in
      Some (Ok top)
  | Some (Throw e) => Some (Throw e)
  | None => None
  end.

(* ===================================================================== *)
(** * Vocabulary of the properties                                        *)
(* ===================================================================== *)

Module Spec.

(** The contrast ratio that [Contrast.lighter] achieves ([realContrast])
    and the tone it proposes ([returnValue]). *)
Definition lighter_achieved (tone ratio : R) : R :=
let darkY := yFromLstar tone in
let lightY := ratio * (darkY + 5) - 5 in
Contrast.ratioOfYs lightY darkY.

Definition lighter_candidate (tone ratio : R) : R :=
let darkY := yFromLstar tone in
let lightY := ratio * (darkY + 5) - 5 in
lstarFromY lightY + 0.4.

(** The same for [Contrast.darker]. *)
Definition darker_achieved (tone ratio : R) : R :=
let lightY := yFromLstar tone in
let darkY := (lightY + 5) / ratio - 5 in
Contrast.ratioOfYs lightY darkY.

Definition darker_candidate (tone ratio : R) : R :=
let lightY := yFromLstar tone in
let darkY := (lightY + 5) / ratio - 5 in
lstarFromY darkY - 0.4.

(** The achieved ratio falls short of the requested one by more than the
    tolerance 0.04. *)
Definition undershoots (achieved ratio : R) : Prop :=
ratio - achieved > 0.04.

(** Two angles in radians that differ by a whole number of turns. *)
Definition coterminal (a b : R) : Prop :=
exists k : Z, b = a + IZR k * (2 * PI).

(** A client of one palette object: [tones] are the arguments of the
    calls [palette.tone(...)] made so far, oldest first; the result is the
    palette's cache after them. *)
Definition request (this : TonalPalette.t) (cache : TonalPalette.Cache) (tone : R)
  : TonalPalette.Cache :=
match TonalPalette.tone 2 this tone cache with
| Some (_, cache') => cache'
| None => cache
end.

Definition cache_after (this : TonalPalette.t) (tones : list R)
  : TonalPalette.Cache :=
fold_left (request this) tones [].

(** The color that the solver gives for a tone of the palette. *)
Definition solved (this : TonalPalette.t) (tone : R) : Z :=
Hct.toInt (Hct.from (TonalPalette.hue this) (TonalPalette.chroma this) tone).

(** The rounded mean of two channel values. *)
Definition mean_channel (c1 c2 : Z) : Z := ((c1 + c2 + 1) / 2)%Z.

(** What [TonalPalette.tone] returns, as a function of the palette and the tone. *)
Definition tone_value (this : TonalPalette.t) (tone : R) : Z :=
if (tone =? 99) && Hct.isYellow (TonalPalette.hue this)
then TonalPalette.averageArgb (solved this 98) (solved this 100)
else solved this tone.

(** Every entry of the cache holds the value of its tone. *)
Definition cache_ok (this : TonalPalette.t) (cache : TonalPalette.Cache) : Prop :=
forall tone argb, get JS.eq tone cache = Some argb -> argb = tone_value this tone.

(** A yellow palette and a tone history, for the examples. *)
Definition yellow_palette : TonalPalette.t :=
TonalPalette.new 110 48 (Hct.from 110 48 50).

(** A client of one [DynamicColor] object.  [schemes] lists the scheme
    objects created so far, oldest first; a scheme's identity is its
    position in this list.  [hctCache] is the color's cache. *)
Record World : Type := mkWorld {
  schemes : list (Ref DynamicScheme.t);
  hctCache : DynamicColor.HctCache
}.

Inductive Call : Type :=
| NewScheme (options : DynamicScheme.DynamicSchemeOptions)
| GetHct (i : nat)
| ClearCache.

Section Client.

Variable getSpec : SpecVersion -> DynamicScheme.DynamicSchemePalettesDelegate.
Variable color : DynamicColor.t.

(** [new DynamicScheme(options)] *)
Definition newScheme (options : DynamicScheme.DynamicSchemeOptions) (w : World)
  : Ref DynamicScheme.t * World :=
let scheme := mkRef (List.length (schemes w)) (DynamicScheme.new getSpec options) in
(scheme, mkWorld (schemes w ++ [scheme]) (hctCache w)).

(** One call of the client: a scheme is created, or [color.getHct] is
    called on the [i]-th scheme created, or [color.clearCache()]. *)
Definition step (w : World) (call : Call) : World :=
match call with
| NewScheme options => snd (newScheme options w)
| GetHct i =>
    match nth_error (schemes w) i with
    | Some scheme =>
        mkWorld (schemes w) (snd (DynamicColor.getHct color scheme (hctCache w)))
    | None => w
    end
| ClearCache => mkWorld (schemes w) (DynamicColor.clearCache (hctCache w))
end.

Definition run_from (w : World) (calls : list Call) : World :=
fold_left step calls w.

Definition run (calls : list Call) : World :=
run_from (mkWorld [] []) calls.

End Client.

(** The palettes, the scheme options and the role of the examples. *)
Definition example_palette : TonalPalette.t := TonalPalette.fromInt 4284960932.

Definition example_delegate : DynamicScheme.DynamicSchemePalettesDelegate :=
DynamicScheme.mkDelegate
  (fun _ _ _ _ _ => example_palette) (fun _ _ _ _ _ => example_palette)
  (fun _ _ _ _ _ => example_palette) (fun _ _ _ _ _ => example_palette)
  (fun _ _ _ _ _ => example_palette) (fun _ _ _ _ _ => None).

Definition example_options (specVersion : SpecVersion)
  : DynamicScheme.DynamicSchemeOptions :=
DynamicScheme.mkOptions (Hct.fromInt 4284960932) TONAL_SPOT false
  None None (Some specVersion) None None None None None None.

Definition example_scheme (specVersion : SpecVersion) : DynamicScheme.t :=
DynamicScheme.new (fun _ => example_delegate) (example_options specVersion).

(** A background role without a background of its own, at tone 55:
    [DynamicColor.fromPalette({name: "custom_surface",
       palette: (s) => s.neutralPalette, tone: (s) => 55,
       isBackground: true})]. *)
Definition custom_surface : DynamicColor.t :=
DynamicColor.mk "custom_surface" DynamicScheme.neutralPalette (fun _ => 55)
  true None None None None None.

(** The two stable bands of background tones. *)
Definition stable_tone (tone : R) : Prop :=
0 <= tone <= 49 \/ 65 <= tone <= 100.

(** The invariant of a client's world: the [i]-th scheme object has the
    identity [i], and every entry of the color's cache holds the color
    that the delegate computes for the scheme with the entry's identity. *)
Definition world_ok (color : DynamicColor.t) (w : World) : Prop :=
(forall i scheme, nth_error (schemes w) i = Some scheme -> ref_id scheme = i)
/\ (forall id hct,
      get Nat.eqb id (hctCache w) = Some hct ->
      exists scheme,
        nth_error (schemes w) id = Some scheme
        /\ hct = DynamicColor.delegate_getHct (deref scheme) color).

(** Five calls that create a scheme each, then [getHct] on each of them. *)
Definition five_schemes : list Call :=
[NewScheme (example_options SPEC_2021); NewScheme (example_options SPEC_2021);
 NewScheme (example_options SPEC_2021); NewScheme (example_options SPEC_2021);
 NewScheme (example_options SPEC_2021);
 GetHct 0; GetHct 1; GetHct 2; GetHct 3; GetHct 4].

(** What the optional functions of a role return for a scheme:
    [color.f ? color.f(scheme) : undefined]. *)
Definition toneDeltaPair_of (scheme : DynamicScheme.t) (color : DynamicColor.t)
  : option (ToneDeltaPair.t DynamicColor.t) :=
match DynamicColor.toneDeltaPair color with Some f => f scheme | None => None end.

Definition background_of (scheme : DynamicScheme.t) (color : DynamicColor.t)
  : option DynamicColor.t :=
match DynamicColor.background color with Some f => f scheme | None => None end.

Definition secondBackground_of (scheme : DynamicScheme.t) (color : DynamicColor.t)
  : option DynamicColor.t :=
match DynamicColor.secondBackground color with Some f => f scheme | None => None end.

Definition contrastCurve_of (scheme : DynamicScheme.t) (color : DynamicColor.t)
  : option ContrastCurve.t :=
match DynamicColor.contrastCurve color with Some f => f scheme | None => None end.

(** A background role on [custom_surface], with a contrast curve. *)
Definition custom_container : DynamicColor.t :=
DynamicColor.mk "custom_container" DynamicScheme.neutralPalette (fun _ => 55)
  true None (Some (fun _ => Some custom_surface)) None
  (Some (fun _ => Some (ContrastCurve.new 3 3 4.5 7))) None.

(** A cache with five entries. *)
Definition full_cache : DynamicColor.HctCache :=
[(0%nat, Hct.fromInt 0); (1%nat, Hct.fromInt 0); (2%nat, Hct.fromInt 0);
 (3%nat, Hct.fromInt 0); (4%nat, Hct.fromInt 0)].

(** The fully opaque pixels of an image, in order. *)
Definition opaque (pixels : list Z) : list Z := filter isOpaque pixels.

(** A [Math.random] that always returns 0. *)
Definition random_zero (k : nat) : R := 0.

End Spec.


(* ===================================================================== *)
(** * Vocabulary of the further properties                                *)
(* ===================================================================== *)

Module Notions.

(** The two digits that [hexFromArgb] writes for a channel. *)
Definition twoDigits (channel : Z) : string :=
  let part := toString16 channel in
  if (String.length part =? 1)%nat then String "0"%char part else part.

Definition twoDigits_ok (channel : Z) : bool :=
  (String.length (twoDigits channel) =? 2)%nat
  && match parseIntHex (twoDigits channel) with
     | Some n => (n =? channel)%Z
     | None => false
     end
  && negb (existsb (Ascii.eqb "#"%char) (list_ascii_of_string (twoDigits channel))).

(** The bytes of an image: red, green, blue and alpha of every pixel. *)
Definition bytes_of (image : list (Z * Z * Z * Z)) : list Z :=
  flat_map (fun pixel => let '(r, g, b, a) := pixel in [r; g; b; a]) image.

(** The pixels that are not translucent. *)
Definition solid (image : list (Z * Z * Z * Z)) : list (Z * Z * Z * Z) :=
  filter (fun pixel => let '(r, g, b, a) := pixel in negb (a <? 255)%Z) image.

(** The colors of the pixels of an image. *)
Definition colors_of (image : list (Z * Z * Z * Z)) : list Z :=
  map (fun pixel => let '(r, g, b, a) := pixel in argbFromRgb r g b) image.

(** The number of boxes whose variance is positive. *)
Definition positives (volumeVariance : list R) : nat :=
  List.length (filter (fun v => 0 <? v) volumeVariance).

(** A color as [QuantizerWu] writes it: a negative 32-bit integer whose
    alpha byte is 255. *)
Definition signed_opaque (color : Z) : Prop :=
(-16777216 <= color < 0)%Z /\ alphaFromArgb color = 255%Z.

(** The luminance Y of a point in linear RGB. *)
Definition luminance (linrgb : vec3) : R :=
  at3 HctSolver.Y_FROM_LINRGB 0 * at3 linrgb 0
  + at3 HctSolver.Y_FROM_LINRGB 1 * at3 linrgb 1
  + at3 HctSolver.Y_FROM_LINRGB 2 * at3 linrgb 2.

(** The point that the solver uses for "no vertex". *)
Definition no_vertex (linrgb : vec3) : Prop :=
  at3 linrgb 0 = -1 /\ at3 linrgb 1 = -1 /\ at3 linrgb 2 = -1.

(** A point of the RGB cube. *)
Definition inside_cube (linrgb : vec3) : Prop :=
  0 <= at3 linrgb 0 <= 100 /\ 0 <= at3 linrgb 1 <= 100
  /\ 0 <= at3 linrgb 2 <= 100.

(** Both ends of the segment of [bisectToSegment] have the luminance [y]. *)
Definition on_plane (y : R) (st : HctSolver.SegmentState) : Prop :=
  luminance (HctSolver.seg_left st) = y /\ luminance (HctSolver.seg_right st) = y.

(** The invariant of the loop of [bisectToSegment]: no vertex was found
    yet, or both ends of the segment have the luminance [y]. *)
Definition segment_inv (y : R) (st : HctSolver.SegmentState) : Prop :=
  (HctSolver.seg_initialized st = false
   /\ no_vertex (HctSolver.seg_left st) /\ no_vertex (HctSolver.seg_right st))
  \/ on_plane y st.

End Notions.

(* ===================================================================== *)
(** * Properties                                                          *)
(* ===================================================================== *)

(** ** Comparisons and clamping *)

Lemma lt_true_iff (x y : R) : (x <? y) = true <-> x < y.
Proof. unfold JS.lt; destruct (Rlt_dec x y); intuition congruence. Qed.

Lemma lt_false_iff (x y : R) : (x <? y) = false <-> y <= x.
Proof. unfold JS.lt; destruct (Rlt_dec x y); split; intros; try lra; congruence. Qed.

Lemma le_true_iff (x y : R) : (x <=? y) = true <-> x <= y.
Proof. unfold JS.le; destruct (Rle_dec x y); intuition congruence. Qed.

Lemma le_false_iff (x y : R) : (x <=? y) = false <-> y < x.
Proof. unfold JS.le; destruct (Rle_dec x y); split; intros; try lra; congruence. Qed.

Lemma eq_true_iff (x y : R) : (x =? y) = true <-> x = y.
Proof. unfold JS.eq; destruct (Req_dec_T x y); intuition congruence. Qed.

Lemma eq_false_iff (x y : R) : (x =? y) = false <-> x <> y.
Proof. unfold JS.eq; destruct (Req_dec_T x y); intuition congruence. Qed.

(** Case analysis on every comparison of numbers in the goal. *)
Ltac cmp_cases :=
  unfold JS.gt, JS.ge, JS.lt, JS.le, JS.eq in *;
  repeat match goal with
         | |- context [Rlt_dec ?a ?b] => destruct (Rlt_dec a b)
         | |- context [Rle_dec ?a ?b] => destruct (Rle_dec a b)
         | |- context [Req_dec_T ?a ?b] => destruct (Req_dec_T a b)
         end;
  cbn [orb andb negb] in *.

Lemma clampDouble_range (lo hi x : R) :
  lo <= hi -> lo <= clampDouble lo hi x <= hi.
Proof. intros H; unfold clampDouble; cmp_cases; lra. Qed.

Lemma clampDouble_id (lo hi x : R) :
  lo <= x <= hi -> clampDouble lo hi x = x.
Proof. intros H; unfold clampDouble; cmp_cases; lra. Qed.

(** ** Luminance of a tone *)

Lemma labInvf_range (ft : R) :
  16 / 116 <= ft <= 1 -> 0 <= labInvf ft <= 1.
Proof.
  intros [Hlo Hhi]; unfold labInvf; cmp_cases.
  - split; [nra|].
    assert (ft * ft <= 1) by nra. nra.
  - lra.
Qed.

Lemma yFromLstar_range (lstar : R) :
  0 <= lstar <= 100 -> 0 <= yFromLstar lstar <= 100.
Proof.
  intros H; unfold yFromLstar.
  assert (Hft : 16 / 116 <= (lstar + 16) / 116 <= 1) by lra.
  pose proof (labInvf_range _ Hft); lra.
Qed.

Lemma yFromLstar_100 : yFromLstar 100 = 100.
Proof.
  unfold yFromLstar, labInvf.
  replace ((100 + 16) / 116) with 1 by lra.
  cmp_cases; lra.
Qed.

(** ** Contrast ratios *)

Lemma ratioOfYs_range (y1 y2 : R) :
  0 <= y1 <= 100 -> 0 <= y2 <= 100 -> 1 <= Contrast.ratioOfYs y1 y2 <= 21.
Proof.
  intros H1 H2; unfold Contrast.ratioOfYs.
  assert (Hdiv : forall l d, 0 <= d -> d <= l -> l <= 100 ->
                             1 <= (l + 5) / (d + 5) <= 21).
  { intros l d Hd Hdl Hl. unfold Rdiv.
    assert (Hinv : 0 < / (d + 5)) by (apply Rinv_0_lt_compat; lra).
    assert (Hone : (d + 5) * / (d + 5) = 1) by (apply Rinv_r; lra).
    split; nra. }
  cmp_cases; apply Hdiv; lra.
Qed.

(** ratioOfYs with the larger luminance first is the plain quotient. *)
Lemma ratioOfYs_ordered (hi lo : R) :
  lo <= hi -> Contrast.ratioOfYs hi lo = (hi + 5) / (lo + 5).
Proof.
  intros H; unfold Contrast.ratioOfYs; cmp_cases;
    try reflexivity; try (exfalso; lra);
    assert (hi = lo) by lra; subst; reflexivity.
Qed.

(** C10: for all numbers [toneA] and [toneB] (values outside [0, 100]
    are clamped), [Contrast.ratioOfTones toneA toneB] lies in the closed
    interval [1, 21]. *)
Theorem ratioOfTones_range (toneA toneB : R) :
  1 <= Contrast.ratioOfTones toneA toneB <= 21.
Proof.
  unfold Contrast.ratioOfTones.
  apply ratioOfYs_range; apply yFromLstar_range; apply clampDouble_range; lra.
Qed.

(** ** The sentinel of [Contrast.lighter] and [Contrast.darker] *)

Lemma undershoots_test (achieved ratio : R) :
(achieved <? ratio) && (Math_abs (achieved - ratio) >? 0.04) = true
<-> Spec.undershoots achieved ratio.
Proof.
unfold Spec.undershoots, Math_abs, Rabs.
destruct (Rcase_abs (achieved - ratio)); cmp_cases; split; intros; try lra; congruence.
Qed.

Lemma lighter_cases (tone ratio : R) :
Contrast.lighter tone ratio =
if (tone <? 0) || (tone >? 100) then -1
else if (Spec.lighter_achieved tone ratio <? ratio)
        && (Math_abs (Spec.lighter_achieved tone ratio - ratio) >? 0.04) then -1
else if (Spec.lighter_candidate tone ratio <? 0)
        || (Spec.lighter_candidate tone ratio >? 100) then -1
else Spec.lighter_candidate tone ratio.
Proof. reflexivity. Qed.

Lemma darker_cases (tone ratio : R) :
Contrast.darker tone ratio =
if (tone <? 0) || (tone >? 100) then -1
else if (Spec.darker_achieved tone ratio <? ratio)
        && (Math_abs (Spec.darker_achieved tone ratio - ratio) >? 0.04) then -1
else if (Spec.darker_candidate tone ratio <? 0)
        || (Spec.darker_candidate tone ratio >? 100) then -1
else Spec.darker_candidate tone ratio.
Proof. reflexivity. Qed.

(** The shape shared by the two functions: three guards that return -1,
    else a candidate that the last guard has confined to [0, 100]. *)
Lemma sentinel_iff (outside : bool) (achieved ratio candidate : R) :
(if outside then -1
 else if (achieved <? ratio) && (Math_abs (achieved - ratio) >? 0.04) then -1
 else if (candidate <? 0) || (candidate >? 100) then -1
 else candidate) = -1
<-> outside = true \/ Spec.undershoots achieved ratio
    \/ candidate < 0 \/ candidate > 100.
Proof.
destruct outside; [intuition|].
destruct ((achieved <? ratio) && (Math_abs (achieved - ratio) >? 0.04)) eqn:Hu.
- apply undershoots_test in Hu. intuition.
- assert (Hn : ~ Spec.undershoots achieved ratio).
  { intros H. apply undershoots_test in H. congruence. }
  cmp_cases; split; intros; try lra; intuition (try lra; try discriminate).
Qed.

Lemma outside_iff (tone : R) :
(tone <? 0) || (tone >? 100) = true <-> tone < 0 \/ tone > 100.
Proof. cmp_cases; split; intros; try lra; intuition discriminate. Qed.

Lemma cube_root_above_1 (x : R) : 1 < x -> 1 < Math_pow x (1 / 3).
Proof.
intros H. unfold Math_pow. destruct (Rlt_dec 0 x); [|lra].
rewrite <- (Rpower_O x) at 1 by lra.
apply Rpower_lt; lra.
Qed.

(** C4, as the specification states it, fails at [tone = 100], [ratio = 2]:
    [Contrast.lighter] returns -1 although the ratio it achieves is the
    requested one.  (The tone that would reach the ratio is above 100.) *)
Lemma lighter_sentinel_without_undershoot :
Contrast.lighter 100 2 = -1
/\ ~ Spec.undershoots (Spec.lighter_achieved 100 2) 2.
Proof.
assert (Hach : Spec.lighter_achieved 100 2 = 2).
{ unfold Spec.lighter_achieved. cbv zeta. rewrite yFromLstar_100.
  rewrite ratioOfYs_ordered by lra. lra. }
split.
- apply sentinel_iff. right; right; right.
  unfold Spec.lighter_candidate. cbv zeta. rewrite yFromLstar_100.
  unfold lstarFromY, labF. cbv zeta.
  replace ((2 * (100 + 5) - 5) / 100) with 2.05 by lra.
  pose proof (cube_root_above_1 2.05 ltac:(lra)).
  cmp_cases; lra.
- rewrite Hach. unfold Spec.undershoots. lra.
Qed.

(** C4, amended: [Contrast.lighter] and [Contrast.darker] return -1
    exactly when the given tone is outside [0, 100], or the achieved ratio
    undershoots the requested one by more than 0.04, or the tone they would
    propose is outside [0, 100]; [lighterUnsafe] returns 100 and
    [darkerUnsafe] returns 0 when the safe function returns -1, and the
    safe function's value otherwise. *)
Theorem contrast_sentinel (tone ratio : R) :
(Contrast.lighter tone ratio = -1
 <-> (tone < 0 \/ tone > 100)
     \/ Spec.undershoots (Spec.lighter_achieved tone ratio) ratio
     \/ Spec.lighter_candidate tone ratio < 0
     \/ Spec.lighter_candidate tone ratio > 100)
/\ (Contrast.darker tone ratio = -1
    <-> (tone < 0 \/ tone > 100)
        \/ Spec.undershoots (Spec.darker_achieved tone ratio) ratio
        \/ Spec.darker_candidate tone ratio < 0
        \/ Spec.darker_candidate tone ratio > 100)
/\ Contrast.lighterUnsafe tone ratio =
   (if Contrast.lighter tone ratio =? -1 then 100
    else Contrast.lighter tone ratio)
/\ Contrast.darkerUnsafe tone ratio =
   (if Contrast.darker tone ratio =? -1 then 0
    else Contrast.darker tone ratio).
Proof.
repeat split.
- intros H. apply sentinel_iff in H. rewrite outside_iff in H. exact H.
- intros H. apply sentinel_iff. rewrite outside_iff. exact H.
- intros H. apply sentinel_iff in H. rewrite outside_iff in H. exact H.
- intros H. apply sentinel_iff. rewrite outside_iff. exact H.
- unfold Contrast.lighterUnsafe. cbv zeta. rewrite lighter_cases.
  cmp_cases; lra.
- unfold Contrast.darkerUnsafe. cbv zeta. rewrite darker_cases.
  cmp_cases; lra.
Qed.

(** ** [HctSolver.sanitizeRadians] *)

Lemma trunc_nonneg (x : R) : 0 <= x -> trunc x = Zfloor x.
Proof. intros H; unfold trunc; destruct (Rle_dec 0 x); [reflexivity|lra]. Qed.

(** The remainder of a non-negative dividend by a positive divisor. *)
Lemma rem_nonneg (a b : R) :
0 <= a -> 0 < b ->
0 <= rem a b < b /\ rem a b = a - b * IZR (Zfloor (a / b)).
Proof.
intros Ha Hb.
assert (Hq : 0 <= a / b).
{ unfold Rdiv. apply Rmult_le_pos; [lra|]. left; apply Rinv_0_lt_compat; lra. }
unfold rem. rewrite (trunc_nonneg _ Hq).
split; [|reflexivity].
pose proof (Zfloor_bound (a / b)) as [Hlo Hhi].
assert (Hab : a / b * b = a) by (field; lra).
split; nra.
Qed.

(** C8, as the specification states it, fails at the angle -9 pi: the
    remainder operator keeps the sign of the dividend, so the result is
    -pi. *)
Lemma sanitizeRadians_negative_result :
HctSolver.sanitizeRadians (-9 * PI) = - PI
/\ ~ (0 <= HctSolver.sanitizeRadians (-9 * PI) < 2 * PI).
Proof.
pose proof PI_RGT_0 as Hpi.
assert (H : HctSolver.sanitizeRadians (-9 * PI) = - PI).
{ unfold HctSolver.sanitizeRadians, Math_PI, rem.
  replace ((-9 * PI + PI * 8) / (PI * 2)) with (- (1 / 2)) by (field; lra).
  unfold trunc. destruct (Rle_dec 0 (- (1 / 2))) as [Hle|_]; [lra|].
  rewrite (Zceil_eq 0) by (simpl; lra).
  simpl. lra. }
split; [exact H|]. rewrite H. lra.
Qed.

(** C8, amended: for every angle between -8 pi and 8 pi (the "small
    enough" angles of the source's documentation), [sanitizeRadians]
    returns an angle in [0, 2 pi) that is coterminal with it, at most four
    turns away.  Numbers are exact reals here. *)
Theorem sanitizeRadians_range (angle : R) :
-8 * PI <= angle <= 8 * PI ->
0 <= HctSolver.sanitizeRadians angle < 2 * PI
/\ Spec.coterminal angle (HctSolver.sanitizeRadians angle)
/\ Rabs (HctSolver.sanitizeRadians angle - angle) <= 8 * PI.
Proof.
intros Hangle.
pose proof PI_RGT_0 as Hpi.
unfold HctSolver.sanitizeRadians, Math_PI.
destruct (rem_nonneg (angle + PI * 8) (PI * 2)) as [Hrange Heq]; [lra|lra|].
split; [lra|].
split.
- exists (4 - Zfloor ((angle + PI * 8) / (PI * 2)))%Z.
  rewrite Heq, minus_IZR. lra.
- set (q := (angle + PI * 8) / (PI * 2)) in *.
  assert (Hq : 0 <= q <= 8).
  { assert (E : q * (PI * 2) = angle + PI * 8) by (unfold q; field; lra).
    split; nra. }
  pose proof (Zfloor_bound q) as [Hlo Hhi].
  assert (Hfloor : (0 <= Zfloor q)%Z).
  { apply Z.lt_succ_r, lt_IZR. rewrite succ_IZR. simpl. lra. }
  apply IZR_le in Hfloor. simpl in Hfloor.
  apply Rabs_le. rewrite Heq. nra.
Qed.

Lemma sanitizeRadians_range_witness :
0 <= HctSolver.sanitizeRadians 0 < 2 * PI
/\ Spec.coterminal 0 (HctSolver.sanitizeRadians 0)
/\ Rabs (HctSolver.sanitizeRadians 0 - 0) <= 8 * PI.
Proof.
apply (sanitizeRadians_range 0).
pose proof PI_RGT_0. split; lra.
Defined.

(** ** [HctSolver.solveToInt] and [Hct] *)

(** C2: when [chroma < 1e-4], or [tone < 1e-4], or [tone > 99.9999],
    [solveToInt] returns [argbFromLstar tone] for every hue, and it does so
    whatever the two solver tiers are: neither is consulted. *)
Theorem solveToInt_degenerate (hue chroma tone : R) :
chroma < 1e-4 \/ tone < 1e-4 \/ tone > 99.9999 ->
HctSolver.solveToInt hue chroma tone = argbFromLstar tone
/\ forall (tier1 : R -> R -> R -> Z) (tier2 : R -> R -> vec3),
     HctSolver.solveToIntWith tier1 tier2 hue chroma tone = argbFromLstar tone.
Proof.
intros H.
assert (Hguard : (chroma <? 1e-4) || (tone <? 1e-4) || (tone >? 99.9999) = true).
{ cmp_cases; try reflexivity; lra. }
split; [|intros tier1 tier2];
  unfold HctSolver.solveToInt, HctSolver.solveToIntWith;
  rewrite Hguard; reflexivity.
Qed.

Lemma solveToInt_degenerate_witness :
HctSolver.solveToInt 0 0 50 = argbFromLstar 50
/\ forall (tier1 : R -> R -> R -> Z) (tier2 : R -> R -> vec3),
     HctSolver.solveToIntWith tier1 tier2 0 0 50 = argbFromLstar 50.
Proof.
apply (solveToInt_degenerate 0 0 50).
left; lra.
Defined.

(** C1: for every ARGB integer, [Hct.fromInt(argb).toInt()] is [argb]. *)
Theorem Hct_fromInt_toInt (argb : Z) :
Hct.toInt (Hct.fromInt argb) = argb.
Proof. reflexivity. Qed.

Lemma Hct_from_toInt (hue chroma tone : R) :
Hct.toInt (Hct.from hue chroma tone) = HctSolver.solveToInt hue chroma tone.
Proof. reflexivity. Qed.

(** ** [Map] *)

Section MapFacts.

Context {K V : Type} (eqb : K -> K -> bool).
Hypothesis eqb_eq : forall x y, eqb x y = true <-> x = y.

Lemma eqb_refl (k : K) : eqb k k = true.
Proof. apply eqb_eq; reflexivity. Qed.

Lemma eqb_neq (k k' : K) : k <> k' -> eqb k k' = false.
Proof.
intros H. destruct (eqb k k') eqn:E; [|reflexivity].
apply eqb_eq in E. contradiction.
Qed.

Lemma get_set_same (k : K) (v : V) (m : list (K * V)) :
get eqb k (set eqb k v m) = Some v.
Proof.
induction m as [|[k' v'] m IH]; simpl.
- rewrite eqb_refl; reflexivity.
- destruct (eqb k k') eqn:E; simpl; rewrite E; [reflexivity|exact IH].
Qed.

Lemma get_set_other (k k' : K) (v : V) (m : list (K * V)) :
k <> k' -> get eqb k' (set eqb k v m) = get eqb k' m.
Proof.
intros Hne. induction m as [|[k0 v0] m IH]; simpl.
- rewrite eqb_neq by congruence. reflexivity.
- destruct (eqb k k0) eqn:E; simpl.
  + apply eqb_eq in E; subst k0.
    rewrite eqb_neq by congruence. reflexivity.
  + destruct (eqb k' k0); [reflexivity|exact IH].
Qed.

Lemma size_set_absent (k : K) (v : V) (m : list (K * V)) :
get eqb k m = None -> size (set eqb k v m) = S (size m).
Proof.
unfold size. induction m as [|[k' v'] m IH]; simpl; intros H.
- reflexivity.
- destruct (eqb k k'); [discriminate|]. simpl. rewrite IH by exact H. reflexivity.
Qed.

End MapFacts.

(** ** [TonalPalette.tone] *)

Lemma cache_ok_empty (this : TonalPalette.t) : Spec.cache_ok this [].
Proof. intros tone argb H; discriminate. Qed.

Lemma cache_ok_set (this : TonalPalette.t) (cache : TonalPalette.Cache) (tone : R) :
Spec.cache_ok this cache ->
Spec.cache_ok this (set JS.eq tone (Spec.tone_value this tone) cache).
Proof.
intros Hok tone' argb Hget.
destruct (Req_dec_T tone tone') as [->|Hne].
- rewrite (get_set_same JS.eq eq_true_iff) in Hget. congruence.
- rewrite (get_set_other JS.eq eq_true_iff) in Hget by exact Hne.
  exact (Hok _ _ Hget).
Qed.

(** A tone that does not take the yellow override needs one level. *)
Lemma tone_direct (fuel : nat) (this : TonalPalette.t) (tone : R)
  (cache : TonalPalette.Cache) :
Spec.cache_ok this cache ->
(tone =? 99) && Hct.isYellow (TonalPalette.hue this) = false ->
exists cache',
  TonalPalette.tone (S fuel) this tone cache = Some (Spec.solved this tone, cache')
  /\ Spec.cache_ok this cache'.
Proof.
intros Hok Hdirect.
assert (Hval : Spec.tone_value this tone = Spec.solved this tone).
{ unfold Spec.tone_value. rewrite Hdirect. reflexivity. }
cbn [TonalPalette.tone].
destruct (get JS.eq tone cache) as [argb|] eqn:Hget.
- exists cache. rewrite (Hok _ _ Hget), Hval. split; [reflexivity|exact Hok].
- rewrite Hdirect.
  exists (set JS.eq tone (Spec.solved this tone) cache).
  split; [reflexivity|]. rewrite <- Hval. apply cache_ok_set; exact Hok.
Qed.

Lemma not_99 (tone : R) (b : bool) : tone <> 99 -> (tone =? 99) && b = false.
Proof. intros H. apply eq_false_iff in H. rewrite H. reflexivity. Qed.

(** Two levels suffice for every tone, and the result is the value of the
    tone whatever the cache holds. *)
Lemma tone_cache_transparent (fuel : nat) (this : TonalPalette.t) (tone : R)
  (cache : TonalPalette.Cache) :
Spec.cache_ok this cache ->
exists cache',
  TonalPalette.tone (S (S fuel)) this tone cache
  = Some (Spec.tone_value this tone, cache')
  /\ Spec.cache_ok this cache'.
Proof.
intros Hok.
destruct ((tone =? 99) && Hct.isYellow (TonalPalette.hue this)) eqn:Hyellow.
- cbn [TonalPalette.tone].
  destruct (get JS.eq tone cache) as [argb|] eqn:Hget.
  + exists cache. rewrite (Hok _ _ Hget). split; [reflexivity|exact Hok].
  + rewrite Hyellow.
    destruct (tone_direct fuel this 98 cache Hok) as (c1 & H98 & Hok1).
    { apply not_99; lra. }
    destruct (tone_direct fuel this 100 c1 Hok1) as (c2 & H100 & Hok2).
    { apply not_99; lra. }
    cbn [TonalPalette.tone] in H98, H100.
    rewrite H98, H100.
    assert (Hval : Spec.tone_value this tone
                   = TonalPalette.averageArgb (Spec.solved this 98)
                                              (Spec.solved this 100)).
    { unfold Spec.tone_value. rewrite Hyellow. reflexivity. }
    rewrite <- Hval. eexists. split; [reflexivity|].
    apply cache_ok_set; exact Hok2.
- destruct (tone_direct (S fuel) this tone cache Hok Hyellow) as (c & H & Hokc).
  exists c. split; [|exact Hokc].
  rewrite H. unfold Spec.tone_value. rewrite Hyellow. reflexivity.
Qed.

Lemma request_ok (this : TonalPalette.t) (cache : TonalPalette.Cache) (tone : R) :
Spec.cache_ok this cache -> Spec.cache_ok this (Spec.request this cache tone).
Proof.
intros Hok. unfold Spec.request.
destruct (tone_cache_transparent 0 this tone cache Hok) as (c & H & Hokc).
rewrite H. exact Hokc.
Qed.

Lemma cache_after_ok (this : TonalPalette.t) (tones : list R) :
Spec.cache_ok this (Spec.cache_after this tones).
Proof.
unfold Spec.cache_after.
assert (H : forall cache, Spec.cache_ok this cache ->
                          Spec.cache_ok this (fold_left (Spec.request this) tones cache)).
{ induction tones as [|t tones IH]; intros cache Hok; simpl.
  - exact Hok.
  - apply IH. apply request_ok. exact Hok. }
apply H. apply cache_ok_empty.
Qed.

Lemma toneOf_value (this : TonalPalette.t) (tone : R) :
TonalPalette.toneOf this tone = Spec.tone_value this tone.
Proof.
unfold TonalPalette.toneOf.
destruct (tone_cache_transparent 0 this tone [] (cache_ok_empty this))
  as (c & H & _).
rewrite H. reflexivity.
Qed.

(** ** Bit operations on packed colors *)

Section BitFacts.

Local Open Scope Z_scope.

Lemma land_255 (x : Z) : Z.land x 255 = x mod 256.
Proof. change 255 with (Z.ones 8). rewrite Z.land_ones by lia. reflexivity. Qed.

Lemma lor_disjoint (k b n : Z) :
0 <= n -> 0 <= b < 2 ^ n -> Z.lor (k * 2 ^ n) b = k * 2 ^ n + b.
Proof.
intros Hn Hb.
assert (Hland : Z.land (k * 2 ^ n) b = 0).
{ apply Z.bits_inj'. intros i Hi.
  rewrite Z.land_spec, Z.bits_0.
  destruct (Z.lt_ge_cases i n) as [Hlt|Hge].
  - rewrite Z.mul_pow2_bits_low by lia. reflexivity.
  - rewrite <- (Z.mod_small b (2 ^ n)) by lia.
    rewrite Z.mod_pow2_bits_high by lia. apply andb_false_r. }
pose proof (Z.add_lor_land (k * 2 ^ n) b). lia.
Qed.

Lemma ToInt32_small (z : Z) : - 2 ^ 31 <= z < 2 ^ 31 -> ToInt32 z = z.
Proof. intros H. unfold ToInt32. rewrite Z.mod_small by lia. lia. Qed.

Lemma band_255 (x : Z) : x .& 255 = ToInt32 x mod 256.
Proof. unfold band. rewrite (ToInt32_small 255) by lia. apply land_255. Qed.

Lemma band_255_range (x : Z) : 0 <= x .& 255 <= 255.
Proof. rewrite band_255. pose proof (Z.mod_pos_bound (ToInt32 x) 256). lia. Qed.

Lemma argbFromRgb_value (r g b : Z) :
argbFromRgb r g b
= 4278190080 + (r .& 255) * 65536 + (g .& 255) * 256 + (b .& 255).
Proof.
pose proof (band_255_range r) as Hr.
pose proof (band_255_range g) as Hg.
pose proof (band_255_range b) as Hb.
unfold argbFromRgb.
set (R := r .& 255) in *. set (G := g .& 255) in *. set (B := b .& 255) in *.
assert (HA : 255 << 24 = -1 * 2 ^ 24) by reflexivity.
assert (HR : R << 16 = R * 2 ^ 16).
{ unfold shl. change (Z.land 16 31) with 16. rewrite (ToInt32_small R) by lia.
  rewrite Z.shiftl_mul_pow2 by lia. apply ToInt32_small. lia. }
assert (HG : G << 8 = G * 2 ^ 8).
{ unfold shl. change (Z.land 8 31) with 8. rewrite (ToInt32_small G) by lia.
  rewrite Z.shiftl_mul_pow2 by lia. apply ToInt32_small. lia. }
rewrite HA, HR, HG.
unfold bor at 3.
rewrite (ToInt32_small (-1 * 2 ^ 24)) by lia.
rewrite (ToInt32_small (R * 2 ^ 16)) by lia.
rewrite lor_disjoint by lia.
unfold bor at 2.
rewrite (ToInt32_small (-1 * 2 ^ 24 + R * 2 ^ 16)) by lia.
rewrite (ToInt32_small (G * 2 ^ 8)) by lia.
replace (-1 * 2 ^ 24 + R * 2 ^ 16) with ((-256 + R) * 2 ^ 16) by lia.
rewrite lor_disjoint by lia.
unfold bor.
rewrite (ToInt32_small ((-256 + R) * 2 ^ 16 + G * 2 ^ 8)) by lia.
rewrite (ToInt32_small B) by lia.
replace ((-256 + R) * 2 ^ 16 + G * 2 ^ 8) with (((-256 + R) * 256 + G) * 2 ^ 8) by lia.
rewrite lor_disjoint by lia.
unfold shr, ToUint32. change (Z.land 0 31) with 0. rewrite Z.shiftr_0_r.
replace (((-256 + R) * 256 + G) * 2 ^ 8 + B)
  with ((4278190080 + R * 65536 + G * 256 + B) + (-1) * 2 ^ 32) by lia.
rewrite Z.mod_add by lia. apply Z.mod_small. lia.
Qed.

Lemma channels_of_argb (r g b : Z) :
0 <= r <= 255 -> 0 <= g <= 255 -> 0 <= b <= 255 ->
let v := 4278190080 + r * 65536 + g * 256 + b in
alphaFromArgb v = 255 /\ redFromArgb v = r /\ greenFromArgb v = g
/\ blueFromArgb v = b.
Proof.
intros Hr Hg Hb v.
assert (Hv : ToInt32 v = v - 2 ^ 32).
{ unfold ToInt32. replace (v + 2 ^ 31) with ((v - 2 ^ 31) + 1 * 2 ^ 32) by lia.
  rewrite Z.mod_add by lia. rewrite Z.mod_small by (unfold v; lia). lia. }
unfold alphaFromArgb, redFromArgb, greenFromArgb, blueFromArgb.
rewrite !band_255. unfold sar.
change (Z.land 24 31) with 24. change (Z.land 16 31) with 16.
change (Z.land 8 31) with 8.
rewrite !Z.shiftr_div_pow2 by lia. rewrite Hv.
assert (H24 : (v - 2 ^ 32) / 2 ^ 24 = -1) by (unfold v; Z.div_mod_to_equations; lia).
assert (H16 : (v - 2 ^ 32) / 2 ^ 16 = -256 + r) by (unfold v; Z.div_mod_to_equations; lia).
assert (H8 : (v - 2 ^ 32) / 2 ^ 8 = (-256 + r) * 256 + g)
  by (unfold v; Z.div_mod_to_equations; lia).
rewrite H24, H16, H8.
rewrite !ToInt32_small by (unfold v; lia).
repeat split; unfold v; Z.div_mod_to_equations; lia.
Qed.

Lemma Math_round_half (n : Z) :
Math_round (IZR n / 2)%R = (n + 1) / 2.
Proof.
unfold Math_round. apply Zfloor_eq.
pose proof (Z.div_mod (n + 1) 2 ltac:(lia)) as Hdm.
pose proof (Z.mod_pos_bound (n + 1) 2 ltac:(lia)) as Hm.
assert (Hn : IZR n = (2 * IZR ((n + 1) / 2) + IZR ((n + 1) mod 2) - 1)%R).
{ rewrite <- mult_IZR, <- plus_IZR, <- minus_IZR. f_equal. lia. }
assert (H0 : (0 <= IZR ((n + 1) mod 2) <= 1)%R).
{ split; apply IZR_le; lia. }
lra.
Qed.


Lemma ToInt32_cases (z : Z) :
ToInt32 z = z mod 2 ^ 32 \/ ToInt32 z = z mod 2 ^ 32 - 2 ^ 32.
Proof.
unfold ToInt32.
pose proof (Z.mod_pos_bound z (2 ^ 32) ltac:(lia)).
pose proof (Z.mod_pos_bound (z + 2 ^ 31) (2 ^ 32) ltac:(lia)).
pose proof (Z.div_mod z (2 ^ 32) ltac:(lia)).
pose proof (Z.div_mod (z + 2 ^ 31) (2 ^ 32) ltac:(lia)).
lia.
Qed.

Lemma ToInt32_range (z : Z) : - 2 ^ 31 <= ToInt32 z < 2 ^ 31.
Proof.
unfold ToInt32. pose proof (Z.mod_pos_bound (z + 2 ^ 31) (2 ^ 32) ltac:(lia)). lia.
Qed.

Lemma shr16_band_255 (argb : Z) : argb >>> 16 .& 255 = redFromArgb argb.
Proof.
unfold redFromArgb. rewrite !band_255. unfold shr, sar, ToUint32.
change (Z.land 16 31) with 16. rewrite !Z.shiftr_div_pow2 by lia.
pose proof (Z.mod_pos_bound argb (2 ^ 32) ltac:(lia)) as Hu.
pose proof (ToInt32_range argb) as Hr.
rewrite (ToInt32_small (argb mod 2 ^ 32 / 2 ^ 16))
  by (Z.div_mod_to_equations; lia).
rewrite (ToInt32_small (ToInt32 argb / 2 ^ 16))
  by (Z.div_mod_to_equations; lia).
destruct (ToInt32_cases argb) as [H|H]; rewrite H.
- reflexivity.
- Z.div_mod_to_equations; lia.
Qed.

Lemma shr8_band_255 (argb : Z) : argb >>> 8 .& 255 = greenFromArgb argb.
Proof.
unfold greenFromArgb. rewrite !band_255. unfold shr, sar, ToUint32.
change (Z.land 8 31) with 8. rewrite !Z.shiftr_div_pow2 by lia.
pose proof (Z.mod_pos_bound argb (2 ^ 32) ltac:(lia)) as Hu.
pose proof (ToInt32_range argb) as Hr.
rewrite (ToInt32_small (argb mod 2 ^ 32 / 2 ^ 8))
  by (Z.div_mod_to_equations; lia).
rewrite (ToInt32_small (ToInt32 argb / 2 ^ 8))
  by (Z.div_mod_to_equations; lia).
destruct (ToInt32_cases argb) as [H|H]; rewrite H.
- reflexivity.
- Z.div_mod_to_equations; lia.
Qed.

Lemma channel_range (argb : Z) :
0 <= redFromArgb argb <= 255 /\ 0 <= greenFromArgb argb <= 255
/\ 0 <= blueFromArgb argb <= 255 /\ 0 <= alphaFromArgb argb <= 255.
Proof.
unfold redFromArgb, greenFromArgb, blueFromArgb, alphaFromArgb.
repeat split; apply band_255_range.
Qed.

Lemma mean_channel_range (c1 c2 : Z) :
0 <= c1 <= 255 -> 0 <= c2 <= 255 -> 0 <= Spec.mean_channel c1 c2 <= 255.
Proof. intros H1 H2. unfold Spec.mean_channel. Z.div_mod_to_equations; lia. Qed.

Lemma band_255_id (x : Z) : 0 <= x <= 255 -> x .& 255 = x.
Proof.
intros H. rewrite band_255, ToInt32_small by lia. apply Z.mod_small; lia.
Qed.


Lemma averageArgb_argbFromRgb (argb1 argb2 : Z) :
TonalPalette.averageArgb argb1 argb2 = argbFromRgb
                   (Spec.mean_channel (redFromArgb argb1) (redFromArgb argb2))
                   (Spec.mean_channel (greenFromArgb argb1) (greenFromArgb argb2))
                   (Spec.mean_channel (blueFromArgb argb1) (blueFromArgb argb2)).
Proof.
unfold TonalPalette.averageArgb. cbv zeta.
rewrite !Math_round_half.
rewrite !shr16_band_255, !shr8_band_255.
unfold argbFromRgb, Spec.mean_channel, blueFromArgb.
reflexivity.
Qed.

Lemma averageArgb_channels (argb1 argb2 : Z) :
alphaFromArgb (TonalPalette.averageArgb argb1 argb2) = 255
/\ redFromArgb (TonalPalette.averageArgb argb1 argb2)
   = Spec.mean_channel (redFromArgb argb1) (redFromArgb argb2)
/\ greenFromArgb (TonalPalette.averageArgb argb1 argb2)
   = Spec.mean_channel (greenFromArgb argb1) (greenFromArgb argb2)
/\ blueFromArgb (TonalPalette.averageArgb argb1 argb2)
   = Spec.mean_channel (blueFromArgb argb1) (blueFromArgb argb2).
Proof.
pose proof (channel_range argb1) as (Hr1 & Hg1 & Hb1 & _).
pose proof (channel_range argb2) as (Hr2 & Hg2 & Hb2 & _).
pose proof (mean_channel_range _ _ Hr1 Hr2) as HR.
pose proof (mean_channel_range _ _ Hg1 Hg2) as HG.
pose proof (mean_channel_range _ _ Hb1 Hb2) as HB.
rewrite averageArgb_argbFromRgb, argbFromRgb_value.
rewrite !band_255_id by assumption.
exact (channels_of_argb _ _ _ HR HG HB).
Qed.

End BitFacts.

(** ** C6: the yellow override of [TonalPalette.tone] *)

Lemma isYellow_iff (hue : R) : Hct.isYellow hue = true <-> 105 <= hue < 125.
Proof.
unfold Hct.isYellow. cmp_cases; split; intros; try lra; try discriminate;
  reflexivity.
Qed.

(** C6: on a palette object with any history of earlier [tone] calls, and
    with any nesting budget of at least two levels, [tone(99)] of a yellow
    palette (105 <= hue < 125) is [averageArgb] of the solved colors for
    tones 98 and 100, an opaque color whose red, green and blue channels are
    the rounded means of their channels; for every other hue or tone,
    [tone(t)] is the directly solved color; and the colors for 98 and 100 are
    what [tone(98)] and [tone(100)] return. *)
Theorem tone_yellow_override (this : TonalPalette.t) (tones : list R)
  (fuel : nat) (tone : R) :
let cache := Spec.cache_after this tones in
let hue := TonalPalette.hue this in
(105 <= hue < 125 ->
 exists cache',
   TonalPalette.tone (2 + fuel) this 99 cache
   = Some (TonalPalette.averageArgb (Spec.solved this 98) (Spec.solved this 100),
           cache')
   /\ alphaFromArgb (TonalPalette.averageArgb (Spec.solved this 98)
                                             (Spec.solved this 100)) = 255%Z
   /\ redFromArgb (TonalPalette.averageArgb (Spec.solved this 98)
                                           (Spec.solved this 100))
      = Spec.mean_channel (redFromArgb (Spec.solved this 98))
                          (redFromArgb (Spec.solved this 100))
   /\ greenFromArgb (TonalPalette.averageArgb (Spec.solved this 98)
                                             (Spec.solved this 100))
      = Spec.mean_channel (greenFromArgb (Spec.solved this 98))
                          (greenFromArgb (Spec.solved this 100))
   /\ blueFromArgb (TonalPalette.averageArgb (Spec.solved this 98)
                                            (Spec.solved this 100))
      = Spec.mean_channel (blueFromArgb (Spec.solved this 98))
                          (blueFromArgb (Spec.solved this 100)))
/\ (~ (tone = 99 /\ 105 <= hue < 125) ->
    exists cache',
      TonalPalette.tone (2 + fuel) this tone cache
      = Some (Hct.toInt (Hct.from hue (TonalPalette.chroma this) tone), cache')).
Proof.
intros cache hue.
change (2 + fuel)%nat with (S (S fuel)).
pose proof (cache_after_ok this tones) as Hok. fold cache in Hok.
split.
- intros Hyellow.
  destruct (tone_cache_transparent fuel this 99 cache Hok) as (c & H & _).
  exists c. split.
  + rewrite H. unfold Spec.tone_value.
    apply isYellow_iff in Hyellow. fold hue. rewrite Hyellow.
    assert (E : (99 =? 99) = true) by (apply eq_true_iff; reflexivity).
    rewrite E. reflexivity.
  + apply averageArgb_channels.
- intros Hnot.
  destruct (tone_cache_transparent fuel this tone cache Hok) as (c & H & _).
  exists c. rewrite H. unfold Spec.tone_value. fold hue.
  destruct ((tone =? 99) && Hct.isYellow hue) eqn:E; [|reflexivity].
  apply andb_true_iff in E. destruct E as [E1 E2].
  apply eq_true_iff in E1. apply isYellow_iff in E2. tauto.
Qed.

Lemma tone_yellow_override_witness :
exists cache',
  TonalPalette.tone 2 Spec.yellow_palette 99
    (Spec.cache_after Spec.yellow_palette [50; 99; 98])
  = Some (TonalPalette.averageArgb (Spec.solved Spec.yellow_palette 98)
                                   (Spec.solved Spec.yellow_palette 100),
          cache').
Proof.
destruct (tone_yellow_override Spec.yellow_palette [50; 99; 98] 0 99)
  as [Hyellow _].
destruct Hyellow as (cache' & H & _).
- simpl. lra.
- exists cache'. exact H.
Defined.

(** ** The cache of [DynamicColor.getHct] *)

Lemma nat_eqb_eq (x y : nat) : Nat.eqb x y = true <-> x = y.
Proof. apply Nat.eqb_eq. Qed.

Lemma size_set_le {K V : Type} (eqb : K -> K -> bool) (k : K) (v : V)
  (m : list (K * V)) :
(size (set eqb k v m) <= S (size m))%nat.
Proof.
unfold size. induction m as [|[k' v'] m IH]; simpl.
- lia.
- destruct (eqb k k'); simpl; lia.
Qed.

Lemma getHct_hit (color : DynamicColor.t) (scheme : Ref DynamicScheme.t)
  (cache : DynamicColor.HctCache) (hct : Hct.t) :
get Nat.eqb (ref_id scheme) cache = Some hct ->
DynamicColor.getHct color scheme cache = (hct, cache).
Proof. intros H. unfold DynamicColor.getHct. rewrite H. reflexivity. Qed.

Lemma getHct_miss (color : DynamicColor.t) (scheme : Ref DynamicScheme.t)
  (cache : DynamicColor.HctCache) :
get Nat.eqb (ref_id scheme) cache = None ->
DynamicColor.getHct color scheme cache
= (DynamicColor.delegate_getHct (deref scheme) color,
   set Nat.eqb (ref_id scheme)
       (DynamicColor.delegate_getHct (deref scheme) color)
       (if (4 <? size cache)%nat then [] else cache)).
Proof. intros H. unfold DynamicColor.getHct. rewrite H. reflexivity. Qed.

Lemma getHct_size (color : DynamicColor.t) (scheme : Ref DynamicScheme.t)
  (cache : DynamicColor.HctCache) :
(size cache <= 5)%nat ->
(size (snd (DynamicColor.getHct color scheme cache)) <= 5)%nat.
Proof.
intros H.
destruct (get Nat.eqb (ref_id scheme) cache) as [hct|] eqn:Hget.
- rewrite (getHct_hit _ _ _ _ Hget). exact H.
- rewrite (getHct_miss _ _ _ Hget). cbn [snd].
  destruct (4 <? size cache)%nat eqn:Hfull.
  + cbn. lia.
  + apply Nat.ltb_ge in Hfull.
    pose proof (size_set_le Nat.eqb (ref_id scheme)
                  (DynamicColor.delegate_getHct (deref scheme) color) cache).
    lia.
Qed.

Section ClientFacts.

Variable getSpec : SpecVersion -> DynamicScheme.DynamicSchemePalettesDelegate.
Variable color : DynamicColor.t.

Lemma step_size (w : Spec.World) (call : Spec.Call) :
(size (Spec.hctCache w) <= 5)%nat ->
(size (Spec.hctCache (Spec.step getSpec color w call)) <= 5)%nat.
Proof.
intros H. destruct call as [options|i|]; cbn.
- exact H.
- destruct (nth_error (Spec.schemes w) i); cbn; [|exact H].
  apply getHct_size; exact H.
- lia.
Qed.

Lemma run_from_size (calls : list Spec.Call) (w : Spec.World) :
(size (Spec.hctCache w) <= 5)%nat ->
(size (Spec.hctCache (Spec.run_from getSpec color w calls)) <= 5)%nat.
Proof.
revert w. induction calls as [|call calls IH]; intros w H; cbn.
- exact H.
- apply IH. apply step_size. exact H.
Qed.

End ClientFacts.

(** C7, as the specification states it, fails: after [getHct] on five
    different schemes the cache holds five entries. *)
Lemma hctCache_holds_five :
size (Spec.hctCache
        (Spec.run (fun _ => Spec.example_delegate) Spec.custom_surface
                  Spec.five_schemes)) = 5%nat
/\ ~ (size (Spec.hctCache
              (Spec.run (fun _ => Spec.example_delegate) Spec.custom_surface
                        Spec.five_schemes)) <= 4)%nat.
Proof.
assert (H : size (Spec.hctCache
        (Spec.run (fun _ => Spec.example_delegate) Spec.custom_surface
                  Spec.five_schemes)) = 5%nat).
{ unfold Spec.run, Spec.run_from, Spec.five_schemes.
  cbn [fold_left Spec.step Spec.newScheme snd Spec.schemes Spec.hctCache
       List.length app nth_error].
  unfold DynamicColor.getHct.
  cbn [ref_id get Nat.eqb snd set size List.length Nat.ltb Nat.leb clear].
  reflexivity. }
split; [exact H|]. rewrite H. lia.
Qed.

(** C7, amended: after any sequence of calls the cache of a
    [DynamicColor] holds at most 5 entries; and a [getHct] that misses while
    the cache holds more than 4 entries empties the whole cache before it
    stores the new answer, which is then the only entry. *)
Theorem hctCache_bounded
  (getSpec : SpecVersion -> DynamicScheme.DynamicSchemePalettesDelegate)
  (color : DynamicColor.t) (calls : list Spec.Call) :
(size (Spec.hctCache (Spec.run getSpec color calls)) <= 5)%nat
/\ forall (scheme : Ref DynamicScheme.t) (cache : DynamicColor.HctCache),
     get Nat.eqb (ref_id scheme) cache = None ->
     (4 < size cache)%nat ->
     snd (DynamicColor.getHct color scheme cache)
     = [(ref_id scheme, DynamicColor.delegate_getHct (deref scheme) color)].
Proof.
split.
- unfold Spec.run. apply run_from_size. cbn. lia.
- intros scheme cache Hmiss Hfull.
  rewrite (getHct_miss _ _ _ Hmiss).
  apply Nat.ltb_lt in Hfull. rewrite Hfull. reflexivity.
Qed.

(** ** C3: the cache never changes what [getHct] returns *)

Section Determinism.

Variable getSpec : SpecVersion -> DynamicScheme.DynamicSchemePalettesDelegate.
Variable color : DynamicColor.t.

Lemma world_ok_init : Spec.world_ok color (Spec.mkWorld [] []).
Proof.
split.
- intros i scheme H. destruct i; discriminate.
- intros id hct H. discriminate.
Qed.

Lemma newScheme_ok (options : DynamicScheme.DynamicSchemeOptions) (w : Spec.World) :
Spec.world_ok color w ->
Spec.world_ok color (snd (Spec.newScheme getSpec options w))
/\ nth_error (Spec.schemes (snd (Spec.newScheme getSpec options w)))
             (ref_id (fst (Spec.newScheme getSpec options w)))
   = Some (fst (Spec.newScheme getSpec options w))
/\ deref (fst (Spec.newScheme getSpec options w))
   = DynamicScheme.new getSpec options.
Proof.
intros [Hids Hcache].
unfold Spec.world_ok.
cbn [Spec.newScheme snd fst Spec.schemes Spec.hctCache ref_id deref].
repeat split.
- intros i scheme H.
  destruct (Nat.lt_ge_cases i (List.length (Spec.schemes w))) as [Hlt|Hge].
  + rewrite nth_error_app1 in H by exact Hlt. exact (Hids _ _ H).
  + rewrite nth_error_app2 in H by exact Hge.
    destruct (i - List.length (Spec.schemes w))%nat as [|k] eqn:Hk; cbn in H.
    * injection H as <-. cbn [ref_id]. lia.
    * destruct k; discriminate.
- intros id hct H. destruct (Hcache _ _ H) as (scheme & Hnth & Hhct).
  exists scheme. split; [|exact Hhct].
  rewrite nth_error_app1; [exact Hnth|].
  apply nth_error_Some. congruence.
- rewrite nth_error_app2 by lia. rewrite Nat.sub_diag. reflexivity.
Qed.

Lemma getHct_ok (schemes : list (Ref DynamicScheme.t))
  (cache : DynamicColor.HctCache) (scheme : Ref DynamicScheme.t) :
Spec.world_ok color (Spec.mkWorld schemes cache) ->
nth_error schemes (ref_id scheme) = Some scheme ->
fst (DynamicColor.getHct color scheme cache)
= DynamicColor.delegate_getHct (deref scheme) color
/\ Spec.world_ok color
     (Spec.mkWorld schemes (snd (DynamicColor.getHct color scheme cache))).
Proof.
intros [Hids Hcache] Hnth. cbn in Hids, Hcache.
destruct (get Nat.eqb (ref_id scheme) cache) as [hct|] eqn:Hget.
- rewrite (getHct_hit _ _ _ _ Hget). cbn [fst snd].
  split; [|split; assumption].
  destruct (Hcache _ _ Hget) as (scheme' & Hnth' & ->). congruence.
- rewrite (getHct_miss _ _ _ Hget). cbn [fst snd].
  split; [reflexivity|]. split; [exact Hids|].
  cbn [Spec.hctCache Spec.schemes].
  intros id hct H.
  destruct (Nat.eq_dec (ref_id scheme) id) as [<-|Hne].
  + rewrite (get_set_same Nat.eqb nat_eqb_eq) in H. injection H as <-.
    exists scheme. split; [exact Hnth|reflexivity].
  + rewrite (get_set_other Nat.eqb nat_eqb_eq) in H by exact Hne.
    destruct (4 <? size cache)%nat; [discriminate|].
    exact (Hcache _ _ H).
Qed.

Lemma step_ok (w : Spec.World) (call : Spec.Call) :
Spec.world_ok color w -> Spec.world_ok color (Spec.step getSpec color w call).
Proof.
intros Hok. destruct call as [options|i|]; cbn [Spec.step].
- apply newScheme_ok. exact Hok.
- destruct (nth_error (Spec.schemes w) i) as [scheme|] eqn:Hnth; [|exact Hok].
  destruct w as [schemes cache]. cbn in *.
  apply getHct_ok; [exact Hok|].
  destruct Hok as [Hids _]. cbn in Hids. rewrite (Hids _ _ Hnth). exact Hnth.
- destruct Hok as [Hids _]. split; [exact Hids|].
  intros id hct H. discriminate.
Qed.

Lemma step_keeps (w : Spec.World) (call : Spec.Call) (i : nat)
  (scheme : Ref DynamicScheme.t) :
nth_error (Spec.schemes w) i = Some scheme ->
nth_error (Spec.schemes (Spec.step getSpec color w call)) i = Some scheme.
Proof.
intros H. destruct call as [options|j|];
  cbn [Spec.step Spec.newScheme snd fst Spec.schemes Spec.hctCache].
- rewrite nth_error_app1; [exact H|]. apply nth_error_Some. congruence.
- destruct (nth_error (Spec.schemes w) j); exact H.
- exact H.
Qed.

Lemma run_from_ok (calls : list Spec.Call) (w : Spec.World) :
Spec.world_ok color w ->
Spec.world_ok color (Spec.run_from getSpec color w calls).
Proof.
revert w. induction calls as [|call calls IH]; intros w H; cbn.
- exact H.
- apply IH. apply step_ok. exact H.
Qed.

Lemma run_from_keeps (calls : list Spec.Call) (w : Spec.World) (i : nat)
  (scheme : Ref DynamicScheme.t) :
nth_error (Spec.schemes w) i = Some scheme ->
nth_error (Spec.schemes (Spec.run_from getSpec color w calls)) i = Some scheme.
Proof.
revert w. induction calls as [|call calls IH]; intros w H; cbn.
- exact H.
- apply IH. apply step_keeps. exact H.
Qed.

Lemma getArgb_ok (schemes : list (Ref DynamicScheme.t))
  (cache : DynamicColor.HctCache) (scheme : Ref DynamicScheme.t) :
Spec.world_ok color (Spec.mkWorld schemes cache) ->
nth_error schemes (ref_id scheme) = Some scheme ->
fst (DynamicColor.getArgb color scheme cache)
= Hct.toInt (DynamicColor.delegate_getHct (deref scheme) color)
/\ Spec.world_ok color
     (Spec.mkWorld schemes (snd (DynamicColor.getArgb color scheme cache))).
Proof.
intros Hok Hnth. unfold DynamicColor.getArgb.
destruct (getHct_ok schemes cache scheme Hok Hnth) as [Hval Hok'].
destruct (DynamicColor.getHct color scheme cache) as [hct cache'].
cbn in *. subst hct. split; [reflexivity|exact Hok'].
Qed.

End Determinism.

(** C3: take any role [color] and any history of calls on it.  Two
    scheme objects built from the same constructor arguments, at any two
    moments of the history, get the same ARGB value from the role, and
    asking again for the first one returns the same value: it is the value
    of the uncached computation on the scheme the constructor builds. *)
Theorem getArgb_deterministic
  (getSpec : SpecVersion -> DynamicScheme.DynamicSchemePalettesDelegate)
  (color : DynamicColor.t) (options : DynamicScheme.DynamicSchemeOptions)
  (calls1 calls2 calls3 : list Spec.Call) :
let w1 := Spec.run getSpec color calls1 in
let scheme1 := fst (Spec.newScheme getSpec options w1) in
let w2 := Spec.run_from getSpec color
            (snd (Spec.newScheme getSpec options w1)) calls2 in
let scheme2 := fst (Spec.newScheme getSpec options w2) in
let w3 := Spec.run_from getSpec color
            (snd (Spec.newScheme getSpec options w2)) calls3 in
let first := DynamicColor.getArgb color scheme1 (Spec.hctCache w3) in
let second := DynamicColor.getArgb color scheme2 (snd first) in
let again := DynamicColor.getArgb color scheme1 (snd second) in
fst first = fst second
/\ fst again = fst first
/\ fst first
   = Hct.toInt (DynamicColor.delegate_getHct
                  (DynamicScheme.new getSpec options) color).
Proof.
intros w1 scheme1 w2 scheme2 w3 first second again.
assert (Hok1 : Spec.world_ok color w1).
{ apply run_from_ok. apply world_ok_init. }
destruct (newScheme_ok getSpec color options w1 Hok1) as (Hok1' & Hnth1 & Hd1).
fold scheme1 in Hnth1, Hd1.
assert (Hok2 : Spec.world_ok color w2) by (apply run_from_ok; exact Hok1').
assert (Hnth1_2 : nth_error (Spec.schemes w2) (ref_id scheme1) = Some scheme1).
{ apply run_from_keeps. exact Hnth1. }
destruct (newScheme_ok getSpec color options w2 Hok2) as (Hok2' & Hnth2 & Hd2).
fold scheme2 in Hnth2, Hd2.
assert (Hnth1_2' :
  nth_error (Spec.schemes (snd (Spec.newScheme getSpec options w2)))
            (ref_id scheme1) = Some scheme1).
{ cbn [Spec.newScheme snd fst Spec.schemes].
  rewrite nth_error_app1; [exact Hnth1_2|].
  apply nth_error_Some. congruence. }
assert (Hok3 : Spec.world_ok color w3) by (apply run_from_ok; exact Hok2').
assert (Hnth1_3 : nth_error (Spec.schemes w3) (ref_id scheme1) = Some scheme1).
{ apply run_from_keeps. exact Hnth1_2'. }
assert (Hnth2_3 : nth_error (Spec.schemes w3) (ref_id scheme2) = Some scheme2).
{ apply run_from_keeps. exact Hnth2. }
destruct w3 as [schemes3 cache3]. cbn [Spec.schemes Spec.hctCache] in *.
destruct (getArgb_ok color schemes3 cache3 scheme1 Hok3 Hnth1_3) as [Hv1 Hok4].
fold first in Hv1, Hok4.
destruct (getArgb_ok color schemes3 (snd first) scheme2 Hok4 Hnth2_3)
  as [Hv2 Hok5].
fold second in Hv2, Hok5.
destruct (getArgb_ok color schemes3 (snd second) scheme1 Hok5 Hnth1_3)
  as [Hv3 _].
fold again in Hv3.
rewrite Hv1, Hv2, Hv3, Hd1, Hd2. repeat split; reflexivity.
Qed.

(** ** C5: the tone of a background role under the 2025 delegate *)

Lemma getTone_unfold (scheme : DynamicScheme.t) (this : DynamicColor.t) :
DynamicColor.getTone scheme this =
match DynamicScheme.specVersion scheme with
| SPEC_2025 => DynamicColor.getTone2025 DynamicColor.getTone scheme this
| SPEC_2021 => DynamicColor.getTone2021 DynamicColor.getTone scheme this
end.
Proof. destruct this; reflexivity. Qed.

(** The last step of the 2025 delegate for a background role. *)
Lemma bucket_stable (tone : R) :
Spec.stable_tone
  (if tone >=? 57 then clampDouble 65 100 tone else clampDouble 0 49 tone).
Proof.
unfold Spec.stable_tone.
destruct (tone >=? 57).
- right. apply clampDouble_range. lra.
- left. apply clampDouble_range. lra.
Qed.

(** C5, as the specification states it, fails for a background role that
    has no background of its own: the 2025 delegate returns the role's tone
    as it is, here 55. *)
Lemma getTone2025_unbucketed :
DynamicScheme.specVersion (Spec.example_scheme SPEC_2025) = SPEC_2025
/\ DynamicColor.isBackground Spec.custom_surface = true
/\ endsWith (DynamicColor.name Spec.custom_surface) "_fixed_dim" = false
/\ DynamicColor.getTone (Spec.example_scheme SPEC_2025) Spec.custom_surface = 55
/\ ~ Spec.stable_tone
       (DynamicColor.getTone (Spec.example_scheme SPEC_2025) Spec.custom_surface).
Proof.
assert (H : DynamicColor.getTone (Spec.example_scheme SPEC_2025)
                                 Spec.custom_surface = 55).
{ rewrite getTone_unfold. reflexivity. }
repeat split; try reflexivity; try exact H.
rewrite H. unfold Spec.stable_tone. lra.
Qed.

(** Without a tone delta pair, the 2025 delegate returns the tone of the
    role's own tone function as soon as the background or the contrast
    curve is missing. *)
Lemma getTone2025_own_tone (scheme : DynamicScheme.t) (color : DynamicColor.t) :
DynamicScheme.specVersion scheme = SPEC_2025 ->
Spec.toneDeltaPair_of scheme color = None ->
Spec.background_of scheme color = None
\/ Spec.contrastCurve_of scheme color = None ->
DynamicColor.getTone scheme color = DynamicColor.tone color scheme.
Proof.
intros Hspec Hpair Hmissing.
rewrite getTone_unfold, Hspec.
unfold DynamicColor.getTone2025.
unfold Spec.toneDeltaPair_of in Hpair.
unfold Spec.background_of, Spec.contrastCurve_of in Hmissing.
assert (Hsingle : DynamicColor.getTone2025_single DynamicColor.getTone
                    scheme color = DynamicColor.tone color scheme).
{ unfold DynamicColor.getTone2025_single. cbv zeta.
  destruct (DynamicColor.background color) as [fb|];
    destruct (DynamicColor.contrastCurve color) as [fc|];
    try reflexivity.
  destruct (fb scheme) as [bg|]; destruct (fc scheme) as [curve|];
    try reflexivity.
  destruct Hmissing; discriminate. }
destruct (DynamicColor.toneDeltaPair color) as [pair|]; [|exact Hsingle].
rewrite Hpair. exact Hsingle.
Qed.

(** C5, amended: under spec version 2025, a background role whose name
    does not end in "_fixed_dim" resolves to a tone in [0, 49] or [65, 100]
    when it has a tone delta pair, or when it has a background and a
    contrast curve and no second background.  A role that has no tone
    delta pair and lacks a background or a contrast curve keeps the tone of
    its own tone function.  (With a second background the tone may be
    replaced after the bucketing.) *)
Theorem getTone2025_background_stable (scheme : DynamicScheme.t)
  (color : DynamicColor.t) :
DynamicScheme.specVersion scheme = SPEC_2025 ->
DynamicColor.isBackground color = true ->
endsWith (DynamicColor.name color) "_fixed_dim" = false ->
(Spec.toneDeltaPair_of scheme color <> None
 \/ (Spec.background_of scheme color <> None
     /\ Spec.contrastCurve_of scheme color <> None
     /\ Spec.secondBackground_of scheme color = None) ->
 Spec.stable_tone (DynamicColor.getTone scheme color))
/\ (Spec.toneDeltaPair_of scheme color = None ->
    Spec.background_of scheme color = None
    \/ Spec.contrastCurve_of scheme color = None ->
    DynamicColor.getTone scheme color = DynamicColor.tone color scheme).
Proof.
intros Hspec Hbg Hname.
split; [|apply (getTone2025_own_tone scheme color Hspec)].
intros Hshape.
rewrite getTone_unfold, Hspec.
unfold DynamicColor.getTone2025.
unfold Spec.toneDeltaPair_of, Spec.background_of, Spec.contrastCurve_of,
  Spec.secondBackground_of in Hshape.
destruct (DynamicColor.toneDeltaPair color) as [pair|] eqn:Hpair.
- destruct (pair scheme) as [toneDeltaPair|] eqn:Hpair'.
  + unfold DynamicColor.getTone2025_pair. cbv zeta.
    rewrite Hbg, Hname. cbn [andb negb]. apply bucket_stable.
  + destruct Hshape as [Hshape|Hshape]; [congruence|].
    unfold DynamicColor.getTone2025_single. cbv zeta.
    destruct Hshape as (Hb & Hc & Hs).
    destruct (DynamicColor.background color) as [fb|]; [|congruence].
    destruct (DynamicColor.contrastCurve color) as [fc|]; [|congruence].
    destruct (fb scheme) as [bg|]; [|congruence].
    destruct (fc scheme) as [curve|]; [|congruence].
    rewrite Hbg, Hname. cbn [andb negb].
    destruct (DynamicColor.secondBackground color) as [fs|].
    * rewrite Hs. apply bucket_stable.
    * apply bucket_stable.
- destruct Hshape as [Hshape|Hshape]; [congruence|].
  unfold DynamicColor.getTone2025_single. cbv zeta.
  destruct Hshape as (Hb & Hc & Hs).
  destruct (DynamicColor.background color) as [fb|]; [|congruence].
  destruct (DynamicColor.contrastCurve color) as [fc|]; [|congruence].
  destruct (fb scheme) as [bg|]; [|congruence].
  destruct (fc scheme) as [curve|]; [|congruence].
  rewrite Hbg, Hname. cbn [andb negb].
  destruct (DynamicColor.secondBackground color) as [fs|].
  + rewrite Hs. apply bucket_stable.
  + apply bucket_stable.
Qed.

Lemma getTone2025_background_stable_witness :
Spec.stable_tone
  (DynamicColor.getTone (Spec.example_scheme SPEC_2025) Spec.custom_container)
/\ DynamicColor.getTone (Spec.example_scheme SPEC_2025) Spec.custom_surface
   = DynamicColor.tone Spec.custom_surface (Spec.example_scheme SPEC_2025).
Proof.
split.
- apply (getTone2025_background_stable (Spec.example_scheme SPEC_2025)
           Spec.custom_container).
  + reflexivity.
  + reflexivity.
  + reflexivity.
  + right. cbn. repeat split; discriminate.
- apply (getTone2025_background_stable (Spec.example_scheme SPEC_2025)
           Spec.custom_surface).
  + reflexivity.
  + reflexivity.
  + reflexivity.
  + reflexivity.
  + left. reflexivity.
Defined.

Lemma hctCache_bounded_witness :
snd (DynamicColor.getHct Spec.custom_surface
       (mkRef 7 (Spec.example_scheme SPEC_2021)) Spec.full_cache)
= [(7%nat, DynamicColor.delegate_getHct (Spec.example_scheme SPEC_2021)
                                        Spec.custom_surface)].
Proof.
apply (proj2 (hctCache_bounded (fun _ => Spec.example_delegate)
                Spec.custom_surface [])
         (mkRef 7 (Spec.example_scheme SPEC_2021)) Spec.full_cache).
- reflexivity.
- cbn. lia.
Defined.

(** ** C9: translucent pixels in the quantizers *)

Lemma quantize_step_translucent (countByColor : QuantizerMap.CountByColor)
  (pixel : Z) :
isOpaque pixel = false ->
QuantizerMap.quantize_step countByColor pixel = countByColor.
Proof.
unfold isOpaque, QuantizerMap.quantize_step. intros H. cbv zeta.
destruct (alphaFromArgb pixel <? 255)%Z eqn:E; [reflexivity|].
apply Z.ltb_ge in E. rewrite Z.geb_leb in H.
apply Z.leb_gt in H. lia.
Qed.

Lemma QuantizerMap_fold_opaque (pixels : list Z)
  (countByColor : QuantizerMap.CountByColor) :
fold_left QuantizerMap.quantize_step pixels countByColor
= fold_left QuantizerMap.quantize_step (Spec.opaque pixels) countByColor.
Proof.
revert countByColor.
induction pixels as [|pixel pixels IH]; intros countByColor; [reflexivity|].
unfold Spec.opaque in *. cbn [filter fold_left].
destruct (isOpaque pixel) eqn:E.
- cbn [fold_left]. apply IH.
- rewrite quantize_step_translucent by exact E. apply IH.
Qed.

Lemma QuantizerMap_quantize_opaque (pixels : list Z) :
QuantizerMap.quantize pixels = QuantizerMap.quantize (Spec.opaque pixels).
Proof. apply QuantizerMap_fold_opaque. Qed.

(** ** [QuantizerWsmeans] on one distinct pixel *)

Lemma wsmeans_empty (random : nat -> R) (maxColors : Z) :
QuantizerWsmeans.quantize random [] [] maxColors = [].
Proof.
unfold QuantizerWsmeans.quantize.
cbn [QuantizerWsmeans.dedup fold_left QuantizerWsmeans.d_pointCount].
assert (Hcc : Z.min maxColors 0 = 0%Z \/ (Z.min maxColors 0 < 0)%Z) by lia.
cbv zeta.
cbn [List.length Nat.ltb Nat.leb].
set (cc := Z.min maxColors 0).
assert (Hupto : upto cc = []).
{ unfold upto. replace (Z.to_nat cc) with O by lia. reflexivity. }
rewrite Hupto.
match goal with |- (let '(_, _) := ?c in _) = _ => destruct c as [clusters drawn] end.
reflexivity.
Qed.

Lemma move_point_single (points : list vec3) (clusters : list vec3)
  (dtim : list (list QuantizerWsmeans.DistanceAndIndex))
  (clusterIndices : list Z) (pointsMoved : Z) (i : Z) :
atZ clusterIndices i 0%Z = 0%Z ->
QuantizerWsmeans.move_point points 1 clusters dtim (clusterIndices, pointsMoved) i
= (clusterIndices, pointsMoved).
Proof.
intros Hprev.
unfold QuantizerWsmeans.move_point. cbv zeta. rewrite Hprev.
change (upto 1) with [0%Z]. cbn [fold_left].
set (prev := LabPointProvider.distance _ _).
destruct (_ >=? 4 * prev).
- reflexivity.
- assert (E : (prev <? prev) = false) by (apply lt_false_iff; lra).
  rewrite E. reflexivity.
Qed.

Lemma Math_floor_zero : Math_floor (0 * IZR 1) = 0%Z.
Proof. unfold Math_floor. apply Zfloor_eq. simpl. lra. Qed.



Lemma distances_single (clusters : list vec3) (entry : Z)
  (cell : QuantizerWsmeans.DistanceAndIndex) :
fold_left (QuantizerWsmeans.distances_row 1 clusters) (upto 1)
          ([[entry]], [[cell]])
= ([[QuantizerWsmeans.index cell]], [[cell]]).
Proof. reflexivity. Qed.

Lemma iterate_round_single (point cluster : vec3) (n : nat) (iteration : Z)
  (entry : Z) (cell : QuantizerWsmeans.DistanceAndIndex) (sums : Z) :
exists cluster',
  QuantizerWsmeans.iterate [point] [1%Z] 1 1 (S n) iteration
    (QuantizerWsmeans.mkState [cluster] [0%Z] [[entry]] [[cell]] [sums])
  = if negb (iteration =? 0)%Z
    then QuantizerWsmeans.mkState [cluster] [0%Z]
           [[QuantizerWsmeans.index cell]] [[cell]] [sums]
    else QuantizerWsmeans.iterate [point] [1%Z] 1 1 n (iteration + 1)
           (QuantizerWsmeans.mkState [cluster'] [0%Z]
              [[QuantizerWsmeans.index cell]] [[cell]] [1%Z]).
Proof.
eexists.
cbn [QuantizerWsmeans.iterate QuantizerWsmeans.st_clusters
     QuantizerWsmeans.st_clusterIndices QuantizerWsmeans.st_indexMatrix
     QuantizerWsmeans.st_distanceToIndexMatrix
     QuantizerWsmeans.st_pixelCountSums].
rewrite distances_single.
change (upto 1) with [0%Z].
cbn [fold_left].
rewrite move_point_single by reflexivity.
cbn [Z.eqb andb].
destruct (iteration =? 0)%Z; cbn [negb].
- reflexivity.
- reflexivity.
Qed.

Lemma iterate_single (point cluster : vec3) (n : nat)
  (entry : Z) (cell : QuantizerWsmeans.DistanceAndIndex) (sums : Z) :
exists cluster' entry',
  QuantizerWsmeans.iterate [point] [1%Z] 1 1 (S (S n)) 0
    (QuantizerWsmeans.mkState [cluster] [0%Z] [[entry]] [[cell]] [sums])
  = QuantizerWsmeans.mkState [cluster'] [0%Z] [[entry']] [[cell]] [1%Z].
Proof.
destruct (iterate_round_single point cluster (S n) 0 entry cell sums)
  as [cluster1 H1].
destruct (iterate_round_single point cluster1 n (0 + 1)
            (QuantizerWsmeans.index cell) cell 1) as [cluster2 H2].
cbn [Z.eqb negb] in H1. rewrite H1.
change ((0 + 1 =? 0)%Z) with false in H2. cbn [negb] in H2.
rewrite H2. eexists. eexists. reflexivity.
Qed.

Lemma wsmeans_single (pixel : Z) :
exists argb : Z,
  QuantizerWsmeans.quantize Spec.random_zero [pixel] [] 1 = [(argb, 1%Z)].
Proof.
unfold QuantizerWsmeans.quantize.
cbv -[LabPointProvider.fromInt LabPointProvider.toInt LabPointProvider.distance
      Rmult Rplus Rminus Ropp Rdiv Rinv IZR Math_floor JS.ge JS.lt JS.gt
      Math_abs Math_sqrt QuantizerWsmeans.iterate QuantizerWsmeans.move_point
      Z.eqb vec3].
rewrite Z.eqb_refl, Math_floor_zero.
cbv beta iota.
match goal with
| |- context [QuantizerWsmeans.iterate ?ps ?cs ?pc ?cc ?r ?it
                (QuantizerWsmeans.mkState [?c] ?ci [[?e]] [[?d]] [?s])] =>
    match ps with
    | [?p] =>
        destruct (iterate_single p c 8 e d s) as (cluster' & entry' & H);
        match type of H with
        | ?lhs = _ =>
            change (QuantizerWsmeans.iterate ps cs pc cc r it
                      (QuantizerWsmeans.mkState [c] ci [[e]] [[d]] [s]))
              with lhs
        end
    end
end.
rewrite H.
eexists. reflexivity.
Qed.

(** C9, as the specification states it, fails for [QuantizerWsmeans]: the
    image of one fully transparent pixel (ARGB 0, alpha 0) gives one color
    with population 1, whereas its opaque pixels, none, give nothing. *)
Lemma wsmeans_counts_translucent :
alphaFromArgb 0 = 0%Z
/\ Spec.opaque [0%Z] = []
/\ (exists argb : Z,
      QuantizerWsmeans.quantize Spec.random_zero [0%Z] [] 1 = [(argb, 1%Z)])
/\ QuantizerWsmeans.quantize Spec.random_zero (Spec.opaque [0%Z]) [] 1 = []
/\ QuantizerWsmeans.quantize Spec.random_zero [0%Z] [] 1
   <> QuantizerWsmeans.quantize Spec.random_zero (Spec.opaque [0%Z]) [] 1.
Proof.
assert (Hopaque : Spec.opaque [0%Z] = []) by reflexivity.
destruct (wsmeans_single 0) as [argb Hsingle].
split; [reflexivity|].
split; [exact Hopaque|].
split; [exists argb; exact Hsingle|].
split.
- rewrite Hopaque. apply wsmeans_empty.
- rewrite Hopaque, Hsingle, wsmeans_empty. discriminate.
Qed.

(** C9, amended: [QuantizerMap.quantize] returns on every pixel array
    what it returns on the array's fully opaque pixels; so does
    [QuantizerWu.quantize], which reads the pixels through [QuantizerMap]
    only; and [QuantizerCelebi.quantize] seeds its clusters from the opaque
    pixels only. *)
Theorem quantizers_ignore_translucent (pixels : list Z) :
QuantizerMap.quantize pixels = QuantizerMap.quantize (Spec.opaque pixels)
/\ (forall (fuel : nat) (this : QuantizerWu.t) (maxColors : Z),
      QuantizerWu.constructHistogram this pixels
      = QuantizerWu.constructHistogram this (Spec.opaque pixels)
      /\ QuantizerWu.quantize fuel this pixels maxColors
         = QuantizerWu.quantize fuel this (Spec.opaque pixels) maxColors
      /\ forall random : nat -> R,
           QuantizerCelebi.quantize fuel random pixels maxColors
           = match QuantizerWu.quantize fuel QuantizerWu.new
                     (Spec.opaque pixels) maxColors with
             | Some (Ok wuResult) =>
                 Some (Ok (QuantizerWsmeans.quantize random pixels wuResult
                             maxColors))
             | Some (Throw e) => Some (Throw e)
             | None => None
             end).
Proof.
split; [apply QuantizerMap_quantize_opaque|].
intros fuel this maxColors.
assert (Hhist : forall this,
          QuantizerWu.constructHistogram this pixels
          = QuantizerWu.constructHistogram this (Spec.opaque pixels)).
{ intros this0. unfold QuantizerWu.constructHistogram.
  rewrite <- QuantizerMap_quantize_opaque. reflexivity. }
assert (Hwu : forall this,
          QuantizerWu.quantize fuel this pixels maxColors
          = QuantizerWu.quantize fuel this (Spec.opaque pixels) maxColors).
{ intros this0. unfold QuantizerWu.quantize. rewrite <- Hhist. reflexivity. }
split; [apply Hhist|].
split; [apply Hwu|].
intros random. unfold QuantizerCelebi.quantize. rewrite <- Hwu.
reflexivity.
Qed.

(** ** [KeyColor.create] terminates *)

Lemma Math_floor_half (n : Z) : Math_floor (IZR n / 2) = (n / 2)%Z.
Proof.
unfold Math_floor. apply Zfloor_eq.
pose proof (Z.div_mod n 2 ltac:(lia)) as Hdm.
pose proof (Z.mod_pos_bound n 2 ltac:(lia)) as Hm.
assert (Hn : IZR n = 2 * IZR (n / 2) + IZR (n mod 2)).
{ rewrite <- mult_IZR, <- plus_IZR. f_equal. lia. }
assert (H0 : 0 <= IZR (n mod 2) <= 1).
{ split; apply IZR_le; lia. }
lra.
Qed.

(** The binary search of [create] narrows [lowerTone, upperTone] in every
    iteration: more iterations than the width of the interval are never
    needed. *)
Lemma create_loop_total (fuel : nat) (this : KeyColor.t)
  (lowerTone upperTone : Z) (chromaCache : KeyColor.ChromaCache) :
(Z.to_nat (upperTone - lowerTone) < fuel)%nat ->
exists keyColor,
  KeyColor.create_loop fuel this lowerTone upperTone chromaCache = Some keyColor.
Proof.
revert lowerTone upperTone chromaCache.
induction fuel as [|fuel IH]; intros lowerTone upperTone chromaCache Hfuel.
- lia.
- cbn [KeyColor.create_loop].
  destruct (lowerTone <? upperTone)%Z eqn:Hlt; [|eexists; reflexivity].
  apply Z.ltb_lt in Hlt.
  rewrite Math_floor_half.
  assert (Hmid : (lowerTone <= (lowerTone + upperTone) / 2 < upperTone)%Z).
  { split.
    - apply Z.div_le_lower_bound; lia.
    - apply Z.div_lt_upper_bound; lia. }
  set (midTone := ((lowerTone + upperTone) / 2)%Z) in *.
  destruct (KeyColor.maxChroma this midTone chromaCache) as [c1 cache1].
  destruct (KeyColor.maxChroma this (midTone + 1) cache1) as [c2 cache2].
  destruct (KeyColor.maxChroma this midTone cache2) as [c3 cache3].
  destruct (c3 >=? KeyColor.requestedChroma this - 0.01).
  + destruct (Z.abs (lowerTone - 50) <? Z.abs (upperTone - 50))%Z.
    * apply IH. lia.
    * destruct (lowerTone =? midTone)%Z eqn:Heq; [eexists; reflexivity|].
      apply Z.eqb_neq in Heq. apply IH. lia.
  + destruct (c1 <? c2); apply IH; lia.
Qed.

Lemma create_returns (this : KeyColor.t) :
exists keyColor,
  KeyColor.create_loop 101 this 0 100 [] = Some keyColor
  /\ KeyColor.create this = keyColor.
Proof.
destruct (create_loop_total 101 this 0 100 []) as [keyColor H]; [cbn; lia|].
exists keyColor. split; [exact H|].
unfold KeyColor.create. rewrite H. reflexivity.
Qed.

(* ===================================================================== *)
(** * Further properties                                                  *)
(* ===================================================================== *)

(** ** Angles in degrees *)

Lemma Zceil_bounds (x : R) : x <= IZR (Zceil x) < x + 1.
Proof. pose proof (Zceil_bound x). lra. Qed.

Lemma rem_bounds (a b : R) :
0 < b ->
- b < rem a b < b /\ exists k : Z, rem a b = a - b * IZR k.
Proof.
intros Hb. unfold rem, trunc.
assert (Hq : a = b * (a / b)) by (field; lra).
destruct (Rle_dec 0 (a / b)) as [Hs | Hs].
- pose proof (Zfloor_bound (a / b)) as [Hl Hu].
  assert (Ha : 0 <= a) by (rewrite Hq; apply Rmult_le_pos; lra).
  assert (H1 : b * IZR (Zfloor (a / b)) <= b * (a / b))
    by (apply Rmult_le_compat_l; lra).
  assert (H2 : b * (a / b) < b * (IZR (Zfloor (a / b)) + 1))
    by (apply Rmult_lt_compat_l; lra).
  repeat split; try lra.
  eexists. reflexivity.
- pose proof (Zceil_bounds (a / b)) as [Hl Hu].
  assert (Ha : a < 0).
  { destruct (Rlt_dec a 0) as [|Hn]; [assumption|]. exfalso. apply Hs.
    apply Rmult_le_pos; [lra|]. left. apply Rinv_0_lt_compat. lra. }
  assert (H1 : b * (a / b) <= b * IZR (Zceil (a / b)))
    by (apply Rmult_le_compat_l; lra).
  assert (H2 : b * IZR (Zceil (a / b)) < b * (a / b + 1))
    by (apply Rmult_lt_compat_l; lra).
  repeat split; try lra.
  eexists. reflexivity.
Qed.

Lemma sanitizeDegreesDouble_bounds (degrees : R) :
0 <= sanitizeDegreesDouble degrees < 360
/\ exists k : Z, sanitizeDegreesDouble degrees = degrees + 360 * IZR k.
Proof.
unfold sanitizeDegreesDouble.
destruct (rem_bounds degrees 360 ltac:(lra)) as (Hr & k & Hk).
cmp_cases.
- split; [lra|]. exists (1 - k)%Z. rewrite Hk, minus_IZR. lra.
- split; [lra|]. exists (- k)%Z. rewrite Hk, opp_IZR. lra.
Qed.

Lemma sanitizeDegreesInt_bounds (degrees : Z) :
sanitizeDegreesInt degrees = (degrees mod 360)%Z
/\ (0 <= sanitizeDegreesInt degrees < 360)%Z.
Proof.
assert (H : sanitizeDegreesInt degrees = (degrees mod 360)%Z).
{ unfold sanitizeDegreesInt. cbv zeta.
  pose proof (Z.rem_bound_pos_neg degrees 360).
  pose proof (Z.quot_rem degrees 360 ltac:(lia)) as Hqr.
  pose proof (Z.rem_bound_abs degrees 360 ltac:(lia)) as Habs.
  pose proof (Z.rem_sign_nz degrees 360 ltac:(lia)) as Hsign.
  destruct (Z.ltb_spec (Z.rem degrees 360) 0).
  - apply (Z.mod_unique_pos _ _ (Z.quot degrees 360 - 1)); lia.
  - apply (Z.mod_unique_pos _ _ (Z.quot degrees 360)); lia. }
split; [exact H|]. rewrite H. apply Z.mod_pos_bound. lia.
Qed.

(** X1: for every number of degrees, taken as an exact real,
    [sanitizeDegreesDouble] returns the coterminal angle in [0, 360) (the
    rounding of a double, by which a tiny negative input plus 360 is 360,
    is not part of these numbers); for every whole number of degrees,
    [sanitizeDegreesInt] returns the number modulo 360, in [0, 360). *)
Theorem sanitizeDegrees_range (degrees : R) (whole : Z) :
(0 <= sanitizeDegreesDouble degrees < 360
 /\ exists k : Z, sanitizeDegreesDouble degrees = degrees + 360 * IZR k)
/\ sanitizeDegreesInt whole = (whole mod 360)%Z
/\ (0 <= sanitizeDegreesInt whole < 360)%Z.
Proof.
split; [apply sanitizeDegreesDouble_bounds|apply sanitizeDegreesInt_bounds].
Qed.

(** X2: [differenceDegrees] is symmetric, is 0 on equal angles, and on
    two sanitized angles it lies in [0, 180]. *)
Theorem differenceDegrees_circle (a b : R) :
differenceDegrees a b = differenceDegrees b a
/\ 0 <= differenceDegrees (sanitizeDegreesDouble a) (sanitizeDegreesDouble b)
   <= 180
/\ differenceDegrees a a = 0.
Proof.
pose proof (sanitizeDegreesDouble_bounds a) as [Ha _].
pose proof (sanitizeDegreesDouble_bounds b) as [Hb _].
unfold differenceDegrees, Math_abs.
repeat split; unfold Rabs; repeat destruct Rcase_abs; lra.
Qed.

(** ** Packing and unpacking of colors *)

Lemma argbFromRgb_channels (r g b : Z) :
alphaFromArgb (argbFromRgb r g b) = 255%Z
/\ redFromArgb (argbFromRgb r g b) = r .& 255
/\ greenFromArgb (argbFromRgb r g b) = g .& 255
/\ blueFromArgb (argbFromRgb r g b) = b .& 255.
Proof.
rewrite argbFromRgb_value.
exact (channels_of_argb _ _ _ (band_255_range r) (band_255_range g)
                        (band_255_range b)).
Qed.

Lemma band_255_mod (x : Z) : x .& 255 = (x mod 256)%Z.
Proof.
rewrite band_255.
pose proof (Z.div_mod x (2 ^ 32) ltac:(lia)) as Hdm.
destruct (ToInt32_cases x) as [E | E]; rewrite E.
- replace (x mod 2 ^ 32)%Z
    with (x + (- (x / 2 ^ 32) * 16777216) * 256)%Z by lia.
  apply Z.mod_add. lia.
- replace (x mod 2 ^ 32 - 2 ^ 32)%Z
    with (x + ((- (x / 2 ^ 32) - 1) * 16777216) * 256)%Z by lia.
  apply Z.mod_add. lia.
Qed.

(** X3: for all integers [red], [green] and [blue], the color that
    [argbFromRgb] packs is opaque and its channels are the arguments
    modulo 256; so channels between 0 and 255 are read back unchanged. *)
Theorem argbFromRgb_unpack (red green blue : Z) :
alphaFromArgb (argbFromRgb red green blue) = 255%Z
/\ redFromArgb (argbFromRgb red green blue) = (red mod 256)%Z
/\ greenFromArgb (argbFromRgb red green blue) = (green mod 256)%Z
/\ blueFromArgb (argbFromRgb red green blue) = (blue mod 256)%Z
/\ argbFromRgb red green blue
   = (4278190080 + red mod 256 * 65536 + green mod 256 * 256
      + blue mod 256)%Z.
Proof.
destruct (argbFromRgb_channels red green blue) as (Ha & Hr & Hg & Hb).
rewrite Ha, Hr, Hg, Hb, argbFromRgb_value, !band_255_mod. repeat split.
Qed.

Lemma argb_of_channels (argb : Z) :
argbFromRgb (redFromArgb argb) (greenFromArgb argb) (blueFromArgb argb)
= (4278190080 + redFromArgb argb * 65536 + greenFromArgb argb * 256
   + blueFromArgb argb)%Z.
Proof.
destruct (channel_range argb) as (Hr & Hg & Hb & _).
rewrite argbFromRgb_value, !band_255_id by assumption. reflexivity.
Qed.

(** ** L* and Y *)

Lemma cube_pos (x : R) : 0 < x * x * x -> 0 < x.
Proof. intros H. destruct (Rlt_dec 0 x); [assumption|]. nra. Qed.

Lemma cube_le (x y : R) : x <= y -> x * x * x <= y * y * y.
Proof.
intros H.
assert (y * y * y - x * x * x
        = (y - x) * ((x + y / 2) * (x + y / 2) + 3 / 4 * (y * y))) by field.
pose proof (Rle_0_sqr (x + y / 2)) as H1. unfold Rsqr in H1.
pose proof (Rle_0_sqr y) as H2. unfold Rsqr in H2.
assert (0 <= (y - x) * ((x + y / 2) * (x + y / 2) + 3 / 4 * (y * y)))
  by (apply Rmult_le_pos; lra).
lra.
Qed.

Lemma cube_lt (x y : R) : x < y -> x * x * x < y * y * y.
Proof.
intros H.
assert (Heq : y * y * y - x * x * x
        = (y - x) * ((x + y / 2) * (x + y / 2) + 3 / 4 * (y * y))) by field.
pose proof (Rle_0_sqr (x + y / 2)) as H1. unfold Rsqr in H1.
pose proof (Rle_0_sqr y) as H2. unfold Rsqr in H2.
assert (Hq : 0 < (x + y / 2) * (x + y / 2) + 3 / 4 * (y * y)).
{ destruct (Req_dec_T y 0) as [-> | Hy].
  - assert (0 < x * x) by nra. nra.
  - assert (0 < y * y) by nra. lra. }
assert (0 < (y - x) * ((x + y / 2) * (x + y / 2) + 3 / 4 * (y * y)))
  by (apply Rmult_lt_0_compat; lra).
lra.
Qed.

Lemma cube_lt_inv (x y : R) : x * x * x < y * y * y -> x < y.
Proof.
intros H. destruct (Rlt_dec x y); [assumption|].
pose proof (cube_le y x ltac:(lra)). lra.
Qed.

Lemma Rpower_3 (x : R) : 0 < x -> Rpower x 3 = x * x * x.
Proof.
intros H. replace 3 with (INR 3) by (simpl; lra).
rewrite Rpower_pow by assumption. simpl. ring.
Qed.

Lemma root_cube (x : R) : 0 < x -> Rpower (x * x * x) (1 / 3) = x.
Proof.
intros H.
rewrite <- Rpower_3 by assumption.
rewrite Rpower_mult. replace (3 * (1 / 3)) with 1 by field.
apply Rpower_1. assumption.
Qed.

Lemma cube_root (t : R) :
0 < t -> Rpower t (1 / 3) * Rpower t (1 / 3) * Rpower t (1 / 3) = t.
Proof.
intros H.
assert (Hp : 0 < Rpower t (1 / 3)) by (unfold Rpower; apply exp_pos).
rewrite <- Rpower_3 by assumption.
rewrite Rpower_mult. replace (1 / 3 * 3) with 1 by field.
apply Rpower_1. assumption.
Qed.

Lemma Math_pow_pos (x y : R) : 0 < x -> Math_pow x y = Rpower x y.
Proof. intros H. unfold Math_pow. destruct (Rlt_dec 0 x); [reflexivity|lra]. Qed.

Lemma labF_labInvf (ft : R) : labF (labInvf ft) = ft.
Proof.
unfold labInvf. cbv zeta. cmp_cases.
- unfold labF. cbv zeta. cmp_cases; [|lra].
  rewrite Math_pow_pos by lra. apply root_cube. apply cube_pos. lra.
- assert (Hft : ft <= 6 / 29).
  { destruct (Rle_dec ft (6 / 29)); [assumption|].
    pose proof (cube_lt (6 / 29) ft ltac:(lra)). lra. }
  unfold labF. cbv zeta. cmp_cases.
  + exfalso. 
    assert ((116 * ft - 16) / (24389 / 27) <= 216 / 24389).
    { apply Rmult_le_reg_r with (24389 / 27); [lra|].
      replace ((116 * ft - 16) / (24389 / 27) * (24389 / 27))
        with (116 * ft - 16) by (field; lra). lra. }
    lra.
  + field.
Qed.

Lemma labInvf_labF (t : R) : labInvf (labF t) = t.
Proof.
unfold labF. cbv zeta. cmp_cases.
- rewrite Math_pow_pos by lra. unfold labInvf. cbv zeta.
  rewrite cube_root by lra. cmp_cases; [reflexivity|lra].
- unfold labInvf. cbv zeta.
  set (f := (24389 / 27 * t + 16) / 116).
  assert (Hf : f <= 6 / 29) by (unfold f; lra).
  pose proof (cube_le f (6 / 29) Hf).
  cmp_cases; [lra|]. unfold f. field.
Qed.

Lemma labInvf_mono (a b : R) : a <= b -> labInvf a <= labInvf b.
Proof.
intros H. pose proof (cube_le a b H) as Hc.
unfold labInvf. cbv zeta. cmp_cases; try lra.
assert (Ha : a <= 6 / 29).
{ destruct (Rle_dec a (6 / 29)); [assumption|].
  pose proof (cube_lt (6 / 29) a ltac:(lra)). lra. }
lra.
Qed.

Lemma labF_mono (a b : R) : a <= b -> labF a <= labF b.
Proof.
intros H.
destruct (Rle_dec (labF a) (labF b)) as [|Hn]; [assumption|].
exfalso. pose proof (labInvf_mono (labF b) (labF a) ltac:(lra)) as Hm.
rewrite !labInvf_labF in Hm.
assert (a = b) by lra. subst. lra.
Qed.

Lemma yFromLstar_mono (a b : R) : a <= b -> yFromLstar a <= yFromLstar b.
Proof.
intros H. unfold yFromLstar.
pose proof (labInvf_mono ((a + 16) / 116) ((b + 16) / 116) ltac:(lra)). lra.
Qed.

Lemma lstarFromY_mono (a b : R) : a <= b -> lstarFromY a <= lstarFromY b.
Proof.
intros H. unfold lstarFromY.
pose proof (labF_mono (a / 100) (b / 100) ltac:(lra)). lra.
Qed.

Lemma lstarFromY_yFromLstar (x : R) : lstarFromY (yFromLstar x) = x.
Proof.
unfold lstarFromY, yFromLstar.
replace (100 * labInvf ((x + 16) / 116) / 100)
  with (labInvf ((x + 16) / 116)) by field.
rewrite labF_labInvf. field.
Qed.

Lemma yFromLstar_lstarFromY (x : R) : yFromLstar (lstarFromY x) = x.
Proof.
unfold lstarFromY, yFromLstar.
replace ((labF (x / 100) * 116 - 16 + 16) / 116) with (labF (x / 100))
  by field.
rewrite labInvf_labF. field.
Qed.

(** X4: [lstarFromY] and [yFromLstar] are inverse to each other on every
    number. *)
Theorem lstar_y_inverse (x : R) :
lstarFromY (yFromLstar x) = x /\ yFromLstar (lstarFromY x) = x.
Proof.
split; [apply lstarFromY_yFromLstar|apply yFromLstar_lstarFromY].
Qed.

Lemma clampInt_range (lo hi x : Z) : (lo <= hi)%Z -> (lo <= clampInt lo hi x <= hi)%Z.
Proof.
intros H. unfold clampInt.
destruct (Z.ltb_spec x lo); [lia|].
rewrite Z.gtb_ltb. destruct (Z.ltb_spec hi x); lia.
Qed.

Lemma delinearized_range (c : R) : (0 <= delinearized c <= 255)%Z.
Proof. unfold delinearized. apply clampInt_range. lia. Qed.

(** ** The tone of a color *)

Lemma Rpower_le_1 (x y : R) : 0 < x <= 1 -> 0 <= y -> Rpower x y <= 1.
Proof.
intros Hx Hy. unfold Rpower.
rewrite <- exp_0.
destruct (Req_dec_T (y * ln x) 0) as [-> | Hne]; [lra|].
left. apply exp_increasing.
assert (ln x <= 0).
{ destruct (Req_dec_T x 1) as [-> | H1]; [rewrite ln_1; lra|].
  rewrite <- ln_1. left. apply ln_increasing; lra. }
assert (y * ln x <= 0) by nra. lra.
Qed.

Lemma linearized_range (c : Z) : (0 <= c <= 255)%Z -> 0 <= linearized c <= 100.
Proof.
intros H. unfold linearized. cbv zeta.
assert (H0 : 0 <= IZR c) by (apply IZR_le; lia).
assert (H1 : IZR c <= 255) by (apply IZR_le; lia).
cmp_cases.
- lra.
- assert (Hb : 0 < (IZR c / 255 + 0.055) / 1.055 <= 1) by lra.
  rewrite Math_pow_pos by lra.
  pose proof (Rpower_le_1 _ 2.4 Hb ltac:(lra)).
  assert (0 < Rpower ((IZR c / 255 + 0.055) / 1.055) 2.4)
    by (unfold Rpower; apply exp_pos).
  lra.
Qed.

Lemma labF_range (t : R) : 0 <= t <= 1 -> 16 / 116 <= labF t <= 1.
Proof.
intros H.
pose proof (labF_mono 0 t ltac:(lra)) as H0.
pose proof (labF_mono t 1 ltac:(lra)) as H1.
assert (E0 : labF 0 = 16 / 116).
{ unfold labF. cbv zeta. cmp_cases; [lra|field]. }
assert (E1 : labF 1 = 1).
{ unfold labF. cbv zeta. cmp_cases; [|lra].
  rewrite Math_pow_pos by lra. 
  replace 1 with (1 * 1 * 1) at 1 by ring. apply root_cube. lra. }
lra.
Qed.

Lemma lstarFromArgb_bounds (argb : Z) : 0 <= lstarFromArgb argb <= 100.
Proof.
unfold lstarFromArgb, xyzFromArgb. cbv zeta.
destruct (channel_range argb) as (Hr & Hg & Hb & _).
pose proof (linearized_range _ Hr) as Lr.
pose proof (linearized_range _ Hg) as Lg.
pose proof (linearized_range _ Hb) as Lb.
unfold matrixMultiply, SRGB_TO_XYZ. cbn [at3 fst snd].
set (y := _ + _ + _).
assert (Hy : 0 <= y / 100 <= 1) by (unfold y; lra).
pose proof (labF_range _ Hy). lra.
Qed.

(** X5: the tone of every color is in [0, 100]: [lstarFromArgb], and so
    the tone of [Hct.fromInt]. *)
Theorem Hct_tone_range (argb : Z) :
0 <= lstarFromArgb argb <= 100
/\ 0 <= Hct.tone (Hct.fromInt argb) <= 100.
Proof.
split; [apply lstarFromArgb_bounds|].
unfold Hct.fromInt, Hct.new, Hct.tone. cbn. apply lstarFromArgb_bounds.
Qed.

(** ** Contrast *)

Lemma ratioOfYs_sym (y1 y2 : R) :
Contrast.ratioOfYs y1 y2 = Contrast.ratioOfYs y2 y1.
Proof.
unfold Contrast.ratioOfYs. cbv zeta. cmp_cases; try reflexivity; try lra;
  subst; try reflexivity; try (exfalso; lra).
all: assert (y1 = y2) by lra; subst; reflexivity.
Qed.

(** X6: [ratioOfTones] does not depend on the order of its arguments, and
    is 1 on equal tones. *)
Theorem ratioOfTones_symmetric (toneA toneB : R) :
Contrast.ratioOfTones toneA toneB = Contrast.ratioOfTones toneB toneA
/\ Contrast.ratioOfTones toneA toneA = 1.
Proof.
unfold Contrast.ratioOfTones. cbv zeta. split; [apply ratioOfYs_sym|].
pose proof (clampDouble_range 0 100 toneA ltac:(lra)) as H.
pose proof (yFromLstar_range _ H) as Hy.
rewrite ratioOfYs_ordered by lra. field. lra.
Qed.

Lemma ratio_le (a b c : R) : 0 < c -> a <= b -> a / c <= b / c.
Proof.
intros Hc H. unfold Rdiv. apply Rmult_le_compat_r; [|assumption].
left. apply Rinv_0_lt_compat. assumption.
Qed.

Lemma lighter_sound (tone ratio : R) :
1 <= ratio ->
Contrast.lighter tone ratio = -1
\/ (tone < Contrast.lighter tone ratio <= 100
    /\ ratio <= Contrast.ratioOfTones (Contrast.lighter tone ratio) tone).
Proof.
intros Hratio. rewrite lighter_cases.
destruct ((tone <? 0) || (tone >? 100)) eqn:Hout; [left; reflexivity|].
destruct (_ && _); [left; reflexivity|].
destruct ((Spec.lighter_candidate tone ratio <? 0)
          || (Spec.lighter_candidate tone ratio >? 100)) eqn:Hc;
  [left; reflexivity|].
right.
apply orb_false_iff in Hout as [H0 H100]. apply orb_false_iff in Hc as [C0 C100].
apply lt_false_iff in H0, C0. unfold JS.gt in *.
apply lt_false_iff in H100, C100.
unfold Spec.lighter_candidate in *. cbv zeta in *.
set (darkY := yFromLstar tone) in *.
set (lightY := ratio * (darkY + 5) - 5) in *.
assert (HdY : 0 <= darkY <= 100) by (apply yFromLstar_range; lra).
assert (Hle : darkY <= lightY) by (unfold lightY; nra).
pose proof (lstarFromY_mono _ _ Hle) as Hm.
unfold darkY in Hm at 1. rewrite lstarFromY_yFromLstar in Hm.
split; [lra|].
unfold Contrast.ratioOfTones. cbv zeta.
rewrite !clampDouble_id by lra. fold darkY.
assert (Hy : lightY <= yFromLstar (lstarFromY lightY + 0.4)).
{ rewrite <- (yFromLstar_lstarFromY lightY) at 1.
  apply yFromLstar_mono. lra. }
rewrite ratioOfYs_ordered by lra.
replace ratio with ((lightY + 5) / (darkY + 5))
  by (unfold lightY; field; lra).
apply ratio_le; lra.
Qed.

Lemma darker_sound (tone ratio : R) :
1 <= ratio ->
Contrast.darker tone ratio = -1
\/ (0 <= Contrast.darker tone ratio < tone
    /\ ratio <= Contrast.ratioOfTones tone (Contrast.darker tone ratio)).
Proof.
intros Hratio. rewrite darker_cases.
destruct ((tone <? 0) || (tone >? 100)) eqn:Hout; [left; reflexivity|].
destruct (_ && _); [left; reflexivity|].
destruct ((Spec.darker_candidate tone ratio <? 0)
          || (Spec.darker_candidate tone ratio >? 100)) eqn:Hc;
  [left; reflexivity|].
right.
apply orb_false_iff in Hout as [H0 H100]. apply orb_false_iff in Hc as [C0 C100].
apply lt_false_iff in H0, C0. unfold JS.gt in *.
apply lt_false_iff in H100, C100.
unfold Spec.darker_candidate in *. cbv zeta in *.
set (lightY := yFromLstar tone) in *.
set (darkY := (lightY + 5) / ratio - 5) in *.
assert (HlY : 0 <= lightY <= 100) by (apply yFromLstar_range; lra).
assert (Hinv : 0 < / ratio <= 1).
{ split; [apply Rinv_0_lt_compat; lra|].
  rewrite <- Rinv_1. apply Rinv_le_contravar; lra. }
assert (Hle : darkY <= lightY) by (unfold darkY, Rdiv; nra).
assert (Hpos : 0 < darkY + 5) by (unfold darkY, Rdiv; nra).
pose proof (lstarFromY_mono _ _ Hle) as Hm.
unfold lightY in Hm at 1. rewrite lstarFromY_yFromLstar in Hm.
split; [lra|].
unfold Contrast.ratioOfTones. cbv zeta.
rewrite !clampDouble_id by lra. fold lightY.
assert (Hy : yFromLstar (lstarFromY darkY - 0.4) <= darkY).
{ rewrite <- (yFromLstar_lstarFromY darkY) at 2.
  apply yFromLstar_mono. lra. }
assert (Hy0 : 0 <= yFromLstar (lstarFromY darkY - 0.4))
  by (apply yFromLstar_range; lra).
rewrite ratioOfYs_ordered by lra.
replace ratio with ((lightY + 5) / (darkY + 5))
  by (unfold darkY; field; lra).
unfold Rdiv. apply Rmult_le_compat_l; [lra|].
apply Rinv_le_contravar; lra.
Qed.

Lemma lighter_values (tone ratio : R) :
Contrast.lighter tone ratio = -1 \/ 0 <= Contrast.lighter tone ratio <= 100.
Proof.
rewrite lighter_cases.
destruct (_ || _); [left; reflexivity|].
destruct (_ && _); [left; reflexivity|].
destruct ((Spec.lighter_candidate tone ratio <? 0)
          || (Spec.lighter_candidate tone ratio >? 100)) eqn:Hc;
  [left; reflexivity|].
right. apply orb_false_iff in Hc as [C0 C100].
apply lt_false_iff in C0. unfold JS.gt in *. apply lt_false_iff in C100. lra.
Qed.

Lemma darker_values (tone ratio : R) :
Contrast.darker tone ratio = -1 \/ 0 <= Contrast.darker tone ratio <= 100.
Proof.
rewrite darker_cases.
destruct (_ || _); [left; reflexivity|].
destruct (_ && _); [left; reflexivity|].
destruct ((Spec.darker_candidate tone ratio <? 0)
          || (Spec.darker_candidate tone ratio >? 100)) eqn:Hc;
  [left; reflexivity|].
right. apply orb_false_iff in Hc as [C0 C100].
apply lt_false_iff in C0. unfold JS.gt in *. apply lt_false_iff in C100. lra.
Qed.

Lemma lighterUnsafe_range (tone ratio : R) :
0 <= Contrast.lighterUnsafe tone ratio <= 100.
Proof.
unfold Contrast.lighterUnsafe. cbv zeta.
destruct (lighter_values tone ratio) as [-> | H]; cmp_cases; lra.
Qed.

Lemma darkerUnsafe_range (tone ratio : R) :
0 <= Contrast.darkerUnsafe tone ratio <= 100.
Proof.
unfold Contrast.darkerUnsafe. cbv zeta.
destruct (darker_values tone ratio) as [-> | H]; cmp_cases; lra.
Qed.

(** X7: for a ratio of at least 1, [Contrast.lighter] returns -1 or a tone
    above the given one, at most 100, whose contrast ratio to the given
    tone is at least the requested ratio; [Contrast.darker] returns -1 or a
    tone below the given one, at least 0, with the same guarantee. *)
Theorem contrast_sound (tone ratio : R) :
1 <= ratio ->
(Contrast.lighter tone ratio = -1
 \/ (tone < Contrast.lighter tone ratio <= 100
     /\ ratio <= Contrast.ratioOfTones (Contrast.lighter tone ratio) tone))
/\ (Contrast.darker tone ratio = -1
    \/ (0 <= Contrast.darker tone ratio < tone
        /\ ratio <= Contrast.ratioOfTones tone (Contrast.darker tone ratio))).
Proof.
intros H. split; [apply lighter_sound|apply darker_sound]; exact H.
Qed.

Lemma contrast_sound_witness :
(Contrast.lighter 50 3 = -1
 \/ (50 < Contrast.lighter 50 3 <= 100
     /\ 3 <= Contrast.ratioOfTones (Contrast.lighter 50 3) 50))
/\ (Contrast.darker 50 3 = -1
    \/ (0 <= Contrast.darker 50 3 < 50
        /\ 3 <= Contrast.ratioOfTones 50 (Contrast.darker 50 3))).
Proof. apply (contrast_sound 50 3). lra. Defined.

(** ** Opaque colors *)

Lemma alpha_argbFromRgb (r g b : Z) : alphaFromArgb (argbFromRgb r g b) = 255%Z.
Proof. exact (proj1 (argbFromRgb_channels r g b)). Qed.

Lemma alpha_argbFromLinrgb (linrgb : vec3) :
alphaFromArgb (argbFromLinrgb linrgb) = 255%Z.
Proof. unfold argbFromLinrgb. cbv zeta. apply alpha_argbFromRgb. Qed.

Lemma alpha_argbFromXyz (x y z : R) : alphaFromArgb (argbFromXyz x y z) = 255%Z.
Proof. unfold argbFromXyz. cbv zeta. cbn [XYZ_TO_SRGB]. apply alpha_argbFromRgb. Qed.

(** X8: every color that [argbFromLinrgb], [argbFromXyz], [argbFromLab]
    and [argbFromLstar] build is opaque, and the color of [argbFromLstar]
    is a gray: its three channels are equal. *)
Theorem color_constructors_opaque (linrgb : vec3) (x y z l a b lstar : R) :
alphaFromArgb (argbFromLinrgb linrgb) = 255%Z
/\ alphaFromArgb (argbFromXyz x y z) = 255%Z
/\ alphaFromArgb (argbFromLab l a b) = 255%Z
/\ alphaFromArgb (argbFromLstar lstar) = 255%Z
/\ redFromArgb (argbFromLstar lstar) = delinearized (yFromLstar lstar)
/\ greenFromArgb (argbFromLstar lstar) = redFromArgb (argbFromLstar lstar)
/\ blueFromArgb (argbFromLstar lstar) = redFromArgb (argbFromLstar lstar).
Proof.
split; [apply alpha_argbFromLinrgb|].
split; [apply alpha_argbFromXyz|].
split; [unfold argbFromLab; cbv zeta; apply alpha_argbFromXyz|].
unfold argbFromLstar. cbv zeta.
pose proof (delinearized_range (yFromLstar lstar)) as H.
destruct (argbFromRgb_channels (delinearized (yFromLstar lstar))
            (delinearized (yFromLstar lstar))
            (delinearized (yFromLstar lstar))) as (Ha & Hr & _ & _).
rewrite band_255_id in Hr by exact H.
destruct (argbFromRgb_channels (delinearized (yFromLstar lstar))
            (delinearized (yFromLstar lstar))
            (delinearized (yFromLstar lstar))) as (_ & _ & Hg & Hb).
rewrite band_255_id in Hg, Hb by exact H.
rewrite Ha, Hr, Hg, Hb. repeat split.
Qed.

Lemma findResultByJ_loop_values (rounds : nat) :
forall (iterationRound : Z) (hCos hSin p1 tInnerCoeff chroma y j : R),
HctSolver.findResultByJ_loop rounds iterationRound hCos hSin p1 tInnerCoeff
                             chroma y j = 0%Z
\/ exists linrgb : vec3,
     HctSolver.findResultByJ_loop rounds iterationRound hCos hSin p1
                                  tInnerCoeff chroma y j
     = argbFromLinrgb linrgb.
Proof.
induction rounds as [|rounds IH]; intros.
- left. reflexivity.
- cbn [HctSolver.findResultByJ_loop]. cbv zeta.
  destruct (_ || _); [left; reflexivity|].
  destruct (_ <=? 0); [left; reflexivity|].
  destruct ((iterationRound =? 4)%Z || _).
  + destruct (_ || _); [left; reflexivity|]. right. eexists. reflexivity.
  + apply IH.
Qed.

Lemma findResultByJ_values (hueRadians chroma y : R) :
HctSolver.findResultByJ hueRadians chroma y = 0%Z
\/ exists linrgb : vec3,
     HctSolver.findResultByJ hueRadians chroma y = argbFromLinrgb linrgb.
Proof. unfold HctSolver.findResultByJ. apply findResultByJ_loop_values. Qed.

Lemma alpha_solveToIntWith (tier1 : R -> R -> R -> Z) (tier2 : R -> R -> vec3)
  (hue chroma tone : R) :
(forall a b c, tier1 a b c = 0%Z
               \/ exists linrgb : vec3, tier1 a b c = argbFromLinrgb linrgb) ->
alphaFromArgb (HctSolver.solveToIntWith tier1 tier2 hue chroma tone) = 255%Z.
Proof.
intros Htier. unfold HctSolver.solveToIntWith. cbv zeta.
destruct (_ || _).
- unfold argbFromLstar. cbv zeta. apply alpha_argbFromRgb.
- set (exactAnswer := tier1 _ _ _).
  destruct (Htier (sanitizeDegreesDouble hue / 180 * Math_PI) chroma
                  (yFromLstar tone)) as [H0 | [l Hl]];
    fold exactAnswer in H0 || fold exactAnswer in Hl.
  + rewrite H0. change (negb (0 =? 0)%Z) with false. cbv iota.
    apply alpha_argbFromLinrgb.
  + destruct (negb _); [rewrite Hl|]; apply alpha_argbFromLinrgb.
Qed.

Lemma alpha_solveToInt (hue chroma tone : R) :
alphaFromArgb (HctSolver.solveToInt hue chroma tone) = 255%Z.
Proof.
unfold HctSolver.solveToInt. apply alpha_solveToIntWith.
exact findResultByJ_values.
Qed.

(** X9: for every hue, chroma and tone, the color that [solveToInt]
    returns is opaque, and so is the color of [Hct.from]. *)
Theorem solveToInt_opaque (hue chroma tone : R) :
alphaFromArgb (HctSolver.solveToInt hue chroma tone) = 255%Z
/\ alphaFromArgb (Hct.toInt (Hct.from hue chroma tone)) = 255%Z.
Proof. split; apply alpha_solveToInt. Qed.

Lemma alpha_tone_value (this : TonalPalette.t) (tone : R) :
alphaFromArgb (Spec.tone_value this tone) = 255%Z.
Proof.
unfold Spec.tone_value. destruct (_ && _).
- exact (proj1 (averageArgb_channels _ _)).
- unfold Spec.solved. rewrite Hct_from_toInt. apply alpha_solveToInt.
Qed.

(** X10: after any history of calls on a palette, [tone(t)] returns the
    color that a fresh palette returns for [t], and that color is opaque:
    the cache changes no result. *)
Theorem tone_history_independent (this : TonalPalette.t) (tones : list R)
  (fuel : nat) (tone : R) :
exists cache' : TonalPalette.Cache,
  TonalPalette.tone (2 + fuel) this tone (Spec.cache_after this tones)
  = Some (TonalPalette.toneOf this tone, cache')
  /\ alphaFromArgb (TonalPalette.toneOf this tone) = 255%Z.
Proof.
destruct (tone_cache_transparent fuel this tone (Spec.cache_after this tones)
            (cache_after_ok this tones)) as (cache' & H & _).
exists cache'. rewrite toneOf_value. split; [exact H|].
apply alpha_tone_value.
Qed.

Lemma alpha_delegate_getHct (scheme : DynamicScheme.t) (color : DynamicColor.t) :
alphaFromArgb (Hct.toInt (DynamicColor.delegate_getHct scheme color)) = 255%Z.
Proof.
unfold DynamicColor.delegate_getHct.
destruct (DynamicScheme.specVersion scheme).
- unfold DynamicColor.getHct2021, TonalPalette.getHct. cbv zeta.
  match goal with |- context [Hct.toInt (Hct.fromInt ?x)] =>
    change (Hct.toInt (Hct.fromInt x)) with x end.
  rewrite toneOf_value. apply alpha_tone_value.
- unfold DynamicColor.getHct2025. cbv zeta. rewrite Hct_from_toInt.
  apply alpha_solveToInt.
Qed.

(** X11: take any role and any history of calls on it.  For a scheme
    created at any moment of the history, [getArgb] returns an opaque
    color. *)
Theorem getArgb_opaque
  (getSpec : SpecVersion -> DynamicScheme.DynamicSchemePalettesDelegate)
  (color : DynamicColor.t) (options : DynamicScheme.DynamicSchemeOptions)
  (calls1 calls2 : list Spec.Call) :
let w1 := Spec.run getSpec color calls1 in
let scheme := fst (Spec.newScheme getSpec options w1) in
let w2 := Spec.run_from getSpec color
            (snd (Spec.newScheme getSpec options w1)) calls2 in
alphaFromArgb (fst (DynamicColor.getArgb color scheme (Spec.hctCache w2)))
= 255%Z.
Proof.
intros w1 scheme w2.
assert (Hok1 : Spec.world_ok color w1).
{ apply run_from_ok. apply world_ok_init. }
destruct (newScheme_ok getSpec color options w1 Hok1) as (Hok1' & Hnth & _).
fold scheme in Hnth.
assert (Hok2 : Spec.world_ok color w2) by (apply run_from_ok; exact Hok1').
assert (Hnth2 : nth_error (Spec.schemes w2) (ref_id scheme) = Some scheme).
{ apply run_from_keeps. exact Hnth. }
destruct w2 as [schemes2 cache2]. cbn [Spec.schemes Spec.hctCache] in *.
destruct (getArgb_ok color schemes2 cache2 scheme Hok2 Hnth2) as [Hv _].
rewrite Hv. apply alpha_delegate_getHct.
Qed.

(** ** The hue of a color *)

Lemma atan_nonneg (x : R) : 0 <= x -> 0 <= atan x.
Proof.
intros H. destruct (Req_dec_T x 0) as [-> | Hne]; [rewrite atan_0; lra|].
rewrite <- atan_0. left. apply atan_increasing. lra.
Qed.

Lemma atan_nonpos (x : R) : x <= 0 -> atan x <= 0.
Proof.
intros H. destruct (Req_dec_T x 0) as [-> | Hne]; [rewrite atan_0; lra|].
rewrite <- atan_0. left. apply atan_increasing. lra.
Qed.

Lemma Math_atan2_range (y x : R) : - PI <= Math_atan2 y x <= PI.
Proof.
pose proof PI_RGT_0 as Hpi.
unfold Math_atan2.
destruct (Rlt_dec 0 x) as [Hx | Hx].
- pose proof (atan_bound (y / x)). lra.
- destruct (Rlt_dec x 0) as [Hx' | Hx'].
  + assert (Hinv : / x < 0) by (apply Rinv_lt_0_compat; assumption).
    destruct (Rle_dec 0 y) as [Hy | Hy].
    * pose proof (atan_bound (y / x)).
      assert (y / x <= 0) by (unfold Rdiv; nra).
      pose proof (atan_nonpos _ H0). lra.
    * pose proof (atan_bound (y / x)).
      assert (0 <= y / x) by (unfold Rdiv; nra).
      pose proof (atan_nonneg _ H0). lra.
  + destruct (Rlt_dec 0 y); [lra|]. destruct (Rlt_dec y 0); lra.
Qed.

Lemma degrees_range (a : R) : - PI <= a <= PI -> -180 <= a * 180 / Math_PI <= 180.
Proof.
intros H. pose proof PI_RGT_0 as Hpi. unfold Math_PI.
assert (E : a * 180 / PI = a / PI * 180) by (field; lra).
rewrite E.
assert (a / PI <= 1).
{ replace 1 with (PI / PI) by (field; lra). apply ratio_le; lra. }
assert (-1 <= a / PI).
{ replace (-1) with (- PI / PI) by (field; lra). apply ratio_le; lra. }
lra.
Qed.

Lemma Cam16_hue_range (argb : Z) (viewingConditions : ViewingConditions.t) :
0 <= Cam16.hue (Cam16.fromIntInViewingConditions argb viewingConditions) < 360.
Proof.
unfold Cam16.fromIntInViewingConditions. cbv zeta. cbn [Cam16.hue].
match goal with
| |- context [Math_atan2 ?y ?x] =>
    pose proof (degrees_range _ (Math_atan2_range y x)) as H;
    set (deg := Math_atan2 y x * 180 / Math_PI) in *
end.
cmp_cases; lra.
Qed.

Lemma Hct_hue_bounds (argb : Z) : 0 <= Hct.hue (Hct.fromInt argb) < 360.
Proof.
unfold Hct.fromInt, Hct.new, Hct.hue. cbv zeta. cbn [Hct.internalHue].
apply Cam16_hue_range.
Qed.


Lemma sanitizeDegreesDouble_near (x : R) :
-360 <= x < 720 ->
0 <= sanitizeDegreesDouble x < 360
/\ (sanitizeDegreesDouble x = x \/ sanitizeDegreesDouble x = x + 360
    \/ sanitizeDegreesDouble x = x - 360).
Proof.
intros Hx. destruct (sanitizeDegreesDouble_bounds x) as [Hr [k Hk]].
split; [exact Hr|].
assert (H1 : IZR k < 2) by lra.
assert (H2 : -2 < IZR k) by lra.
apply lt_IZR in H1, H2.
assert (Hcases : (k = -1 \/ k = 0 \/ k = 1)%Z) by lia.
destruct Hcases as [-> | [-> | ->]]; lra.
Qed.

Lemma rotationDirection_values (from to : R) :
rotationDirection from to = 1 \/ rotationDirection from to = -1.
Proof. unfold rotationDirection. cbv zeta. cmp_cases; auto. Qed.

Lemma differenceDegrees_range (a b : R) :
0 <= a < 360 -> 0 <= b < 360 -> 0 <= differenceDegrees a b <= 180.
Proof.
intros Ha Hb. unfold differenceDegrees, Math_abs, Rabs.
repeat destruct Rcase_abs; lra.
Qed.

Lemma harmonize_hue (h t : R) :
0 <= h < 360 -> 0 <= t < 360 ->
let rotationDegrees := Math_min (differenceDegrees h t * 0.5) 15 in
let outputHue :=
  sanitizeDegreesDouble (h + rotationDegrees * rotationDirection h t) in
0 <= outputHue < 360
/\ differenceDegrees outputHue h = rotationDegrees
/\ 0 <= rotationDegrees <= 15.
Proof.
intros Hh Ht rotationDegrees outputHue.
pose proof (differenceDegrees_range h t Hh Ht) as Hd.
assert (Hrot : 0 <= rotationDegrees <= 15).
{ unfold rotationDegrees, Math_min, Rmin. destruct Rle_dec; lra. }
destruct (sanitizeDegreesDouble_near
            (h + rotationDegrees * rotationDirection h t)) as [Hr Hc].
{ destruct (rotationDirection_values h t) as [-> | ->]; lra. }
fold outputHue in Hr, Hc.
split; [exact Hr|]. split; [|exact Hrot].
unfold differenceDegrees, Math_abs, Rabs.
destruct (rotationDirection_values h t) as [E | E]; rewrite E in Hc;
  destruct Hc as [Hc | [Hc | Hc]]; repeat destruct Rcase_abs; lra.
Qed.


(** ** Interpolation *)

Lemma lerp_between (start stop amount : R) :
0 <= amount <= 1 ->
Rmin start stop <= lerp start stop amount <= Rmax start stop.
Proof.
intros H. unfold lerp, Rmin, Rmax. destruct Rle_dec; nra.
Qed.

(** X14: with numbers taken as exact reals, [ContrastCurve.get] stays
    between the smallest and the largest of the four values of the curve
    (the rounding of the interpolation in doubles is not part of these
    numbers); it is [low] for every level up to -1, [normal] at 0,
    [medium] at 0.5 and [high] for every level from 1 on. *)
Theorem ContrastCurve_get_bounds (this : ContrastCurve.t) (contrastLevel : R) :
let low := ContrastCurve.low this in
let normal := ContrastCurve.normal this in
let medium := ContrastCurve.medium this in
let high := ContrastCurve.high this in
Rmin (Rmin low normal) (Rmin medium high)
  <= ContrastCurve.get this contrastLevel
  <= Rmax (Rmax low normal) (Rmax medium high)
/\ ContrastCurve.get this (Rmin contrastLevel (-1)) = low
/\ ContrastCurve.get this 0 = normal
/\ ContrastCurve.get this 0.5 = medium
/\ ContrastCurve.get this (Rmax contrastLevel 1) = high.
Proof.
intros low normal medium high.
split; [|split; [|split; [|split]]].
- unfold ContrastCurve.get. fold low normal medium high.
  destruct (contrastLevel <=? -1) eqn:E1;
    [unfold Rmin, Rmax; repeat destruct Rle_dec; lra|].
  apply le_false_iff in E1.
  destruct (contrastLevel <? 0) eqn:E2.
  { apply lt_true_iff in E2.
    pose proof (lerp_between low normal ((contrastLevel - -1) / 1)
                  ltac:(lra)) as H.
    revert H. unfold Rmin, Rmax; repeat destruct Rle_dec; lra. }
  apply lt_false_iff in E2.
  destruct (contrastLevel <? 0.5) eqn:E3.
  { apply lt_true_iff in E3.
    pose proof (lerp_between normal medium ((contrastLevel - 0) / 0.5)
                  ltac:(lra)) as H.
    revert H. unfold Rmin, Rmax; repeat destruct Rle_dec; lra. }
  apply lt_false_iff in E3.
  destruct (contrastLevel <? 1) eqn:E4.
  { apply lt_true_iff in E4.
    pose proof (lerp_between medium high ((contrastLevel - 0.5) / 0.5)
                  ltac:(lra)) as H.
    revert H. unfold Rmin, Rmax; repeat destruct Rle_dec; lra. }
  unfold Rmin, Rmax; repeat destruct Rle_dec; lra.
- unfold ContrastCurve.get. fold low.
  assert (Rmin contrastLevel (-1) <= -1) by apply Rmin_r.
  destruct (Rmin contrastLevel (-1) <=? -1) eqn:E; [reflexivity|].
  apply le_false_iff in E. lra.
- unfold ContrastCurve.get, lerp. fold normal. cmp_cases; try lra.
- unfold ContrastCurve.get, lerp. fold medium. cmp_cases; try lra.
- unfold ContrastCurve.get. fold high.
  assert (1 <= Rmax contrastLevel 1) by apply Rmax_r.
  destruct (Rmax contrastLevel 1 <=? -1) eqn:E1;
    [apply le_true_iff in E1; lra|].
  destruct (Rmax contrastLevel 1 <? 0) eqn:E2;
    [apply lt_true_iff in E2; lra|].
  destruct (Rmax contrastLevel 1 <? 0.5) eqn:E3;
    [apply lt_true_iff in E3; lra|].
  destruct (Rmax contrastLevel 1 <? 1) eqn:E4;
    [apply lt_true_iff in E4; lra|].
  reflexivity.
Qed.

(** ** Foreground tones *)

Lemma foregroundTone_range (bgTone ratio : R) :
0 <= DynamicColor.foregroundTone bgTone ratio <= 100.
Proof.
pose proof (lighterUnsafe_range bgTone ratio).
pose proof (darkerUnsafe_range bgTone ratio).
unfold DynamicColor.foregroundTone. cbv zeta.
destruct (DynamicColor.tonePrefersLightForeground bgTone);
  match goal with |- context [if ?c then _ else _] => destruct c end;
  assumption.
Qed.

Lemma Math_round_49 : Math_round 49 = 49%Z.
Proof. unfold Math_round. apply Zfloor_eq. lra. Qed.

(** X15: [lighterUnsafe], [darkerUnsafe] and [foregroundTone] return a
    tone in [0, 100] for every input; [enableLightForeground] returns its
    argument or 49, a tone which no longer prefers a light foreground
    without allowing one, so applying it twice changes nothing. *)
Theorem foreground_tones (tone ratio : R) :
let enabled := DynamicColor.enableLightForeground tone in
0 <= Contrast.lighterUnsafe tone ratio <= 100
/\ 0 <= Contrast.darkerUnsafe tone ratio <= 100
/\ 0 <= DynamicColor.foregroundTone tone ratio <= 100
/\ (enabled = tone \/ enabled = 49)
/\ DynamicColor.tonePrefersLightForeground enabled
   && negb (DynamicColor.toneAllowsLightForeground enabled) = false
/\ DynamicColor.enableLightForeground enabled = enabled.
Proof.
intros enabled.
split; [apply lighterUnsafe_range|].
split; [apply darkerUnsafe_range|].
split; [apply foregroundTone_range|].
assert (H49 : DynamicColor.tonePrefersLightForeground 49
              && negb (DynamicColor.toneAllowsLightForeground 49) = false).
{ unfold DynamicColor.tonePrefersLightForeground,
    DynamicColor.toneAllowsLightForeground. rewrite Math_round_49. reflexivity. }
unfold enabled, DynamicColor.enableLightForeground.
destruct (DynamicColor.tonePrefersLightForeground tone
          && negb (DynamicColor.toneAllowsLightForeground tone)) eqn:E.
- rewrite H49. auto.
- rewrite E. auto.
Qed.

(** ** The constructor of [DynamicColor] *)

(** X16: the constructor of [DynamicColor] returns the color with the
    fields given exactly when a background comes with a contrast curve and
    the other way round, and a second background comes with a background;
    otherwise it throws. *)
Theorem DynamicColor_new_valid (name : string)
  (palette : DynamicScheme.t -> TonalPalette.t) (tone : DynamicScheme.t -> R)
  (isBackground : bool) (chromaMultiplier : option (DynamicScheme.t -> R))
  (background secondBackground : option (DynamicScheme.t -> option DynamicColor.t))
  (contrastCurve : option (DynamicScheme.t -> option ContrastCurve.t))
  (toneDeltaPair :
     option (DynamicScheme.t -> option (ToneDeltaPair.t DynamicColor.t))) :
let made :=
  DynamicColor.new name palette tone isBackground chromaMultiplier background
                   secondBackground contrastCurve toneDeltaPair in
(made = Ok (DynamicColor.mk name palette tone isBackground chromaMultiplier
              background secondBackground contrastCurve toneDeltaPair)
 <-> DynamicColor.isSome background = DynamicColor.isSome contrastCurve
     /\ implb (DynamicColor.isSome secondBackground)
              (DynamicColor.isSome background) = true)
/\ (made = Ok (DynamicColor.mk name palette tone isBackground chromaMultiplier
                 background secondBackground contrastCurve toneDeltaPair)
    \/ exists message, made = Throw message).
Proof.
intros made. unfold made, DynamicColor.new.
destruct background, secondBackground, contrastCurve; cbn;
  (split; [split; [intros H; try discriminate; auto
                  |intros [H1 H2]; try discriminate; reflexivity]
          |try (left; reflexivity); right; eexists; reflexivity]).
Qed.

Lemma clone_new (this : DynamicColor.t) :
DynamicColor.isSome (DynamicColor.background this)
= DynamicColor.isSome (DynamicColor.contrastCurve this) ->
implb (DynamicColor.isSome (DynamicColor.secondBackground this))
      (DynamicColor.isSome (DynamicColor.background this)) = true ->
DynamicColor.clone this = Ok this.
Proof.
destruct this as [n p t b cm bg sbg cc tdp]. cbn [DynamicColor.background
  DynamicColor.contrastCurve DynamicColor.secondBackground].
intros H1 H2. unfold DynamicColor.clone, DynamicColor.fromPalette.
cbn [DynamicColor.args_name DynamicColor.args_palette DynamicColor.args_tone
     DynamicColor.args_isBackground DynamicColor.args_chromaMultiplier
     DynamicColor.args_background DynamicColor.args_secondBackground
     DynamicColor.args_contrastCurve DynamicColor.args_toneDeltaPair
     DynamicColor.name DynamicColor.palette DynamicColor.tone
     DynamicColor.isBackground DynamicColor.chromaMultiplier
     DynamicColor.background DynamicColor.secondBackground
     DynamicColor.contrastCurve DynamicColor.toneDeltaPair].
unfold DynamicColor.new.
destruct bg, sbg, cc; cbn in *; try discriminate; reflexivity.
Qed.

(** X17: [clone()] of a color that the constructor returned does not
    throw, and returns a color with the same fields. *)
Theorem clone_constructed (name : string)
  (palette : DynamicScheme.t -> TonalPalette.t) (tone : DynamicScheme.t -> R)
  (isBackground : bool) (chromaMultiplier : option (DynamicScheme.t -> R))
  (background secondBackground : option (DynamicScheme.t -> option DynamicColor.t))
  (contrastCurve : option (DynamicScheme.t -> option ContrastCurve.t))
  (toneDeltaPair :
     option (DynamicScheme.t -> option (ToneDeltaPair.t DynamicColor.t)))
  (color : DynamicColor.t) :
DynamicColor.new name palette tone isBackground chromaMultiplier background
                 secondBackground contrastCurve toneDeltaPair = Ok color ->
DynamicColor.clone color = Ok color.
Proof.
intros H. apply clone_new;
  unfold DynamicColor.new in H;
  destruct background, secondBackground, contrastCurve; cbn in H;
  try discriminate; injection H as <-; reflexivity.
Qed.

Lemma clone_constructed_witness :
DynamicColor.clone Spec.custom_container = Ok Spec.custom_container.
Proof.
apply (clone_constructed "custom_container" DynamicScheme.neutralPalette
         (fun _ => 55) true None (Some (fun _ => Some Spec.custom_surface)) None
         (Some (fun _ => Some (ContrastCurve.new 3 3 4.5 7))) None).
reflexivity.
Defined.

(** ** The 2021 delegate *)

(** X18: under spec version 2021, a background role without tone delta
    pair that has a background and a contrast curve, and no second
    background, never resolves to a tone in [50, 60): it is below 50, or
    60 or above. *)
Theorem getTone2021_background_zone (scheme : DynamicScheme.t)
  (color : DynamicColor.t) :
DynamicScheme.specVersion scheme = SPEC_2021 ->
DynamicColor.isBackground color = true ->
Spec.toneDeltaPair_of scheme color = None ->
Spec.background_of scheme color <> None ->
Spec.contrastCurve_of scheme color <> None ->
Spec.secondBackground_of scheme color = None ->
DynamicColor.getTone scheme color < 50
\/ 60 <= DynamicColor.getTone scheme color.
Proof.
intros Hspec Hbg Hpair Hb Hc Hs.
assert (Hzone : ~ (50 <= DynamicColor.getTone scheme color < 60));
  [|destruct (Rlt_dec (DynamicColor.getTone scheme color) 50);
    [left; assumption|right; lra]].
rewrite getTone_unfold, Hspec.
unfold DynamicColor.getTone2021.
unfold Spec.toneDeltaPair_of, Spec.background_of, Spec.contrastCurve_of,
  Spec.secondBackground_of in *.
assert (Hsingle :
  ~ (50 <= DynamicColor.getTone2021_single DynamicColor.getTone scheme color
     < 60)).
{ unfold DynamicColor.getTone2021_single. cbv zeta.
  destruct (DynamicColor.background color) as [fb|]; [|congruence].
  destruct (DynamicColor.contrastCurve color) as [fc|]; [|congruence].
  destruct (fb scheme) as [bg|]; [|congruence].
  destruct (fc scheme) as [curve|]; [|congruence].
  rewrite Hbg. cbn [andb].
  set (answer := if DynamicScheme.contrastLevel scheme <? 0 then _ else _).
  assert (Hzone' :
    ~ (50 <= (if (50 <=? answer) && (answer <? 60)
              then if Contrast.ratioOfTones 49 (DynamicColor.getTone scheme bg)
                      >=? ContrastCurve.get curve
                            (DynamicScheme.contrastLevel scheme)
                   then 49 else 60
              else answer) < 60)).
  { destruct ((50 <=? answer) && (answer <? 60)) eqn:E.
    - match goal with
      | |- context [if ?c then 49 else 60] => destruct c
      end; lra.
    - apply andb_false_iff in E. destruct E as [E | E].
      + apply le_false_iff in E. lra.
      + apply lt_false_iff in E. lra. }
  destruct (DynamicColor.secondBackground color) as [fs|].
  - rewrite Hs. exact Hzone'.
  - exact Hzone'. }
destruct (DynamicColor.toneDeltaPair color) as [pair|].
- rewrite Hpair. exact Hsingle.
- exact Hsingle.
Qed.

Lemma getTone2021_background_zone_witness :
DynamicColor.getTone (Spec.example_scheme SPEC_2021) Spec.custom_container < 50
\/ 60 <= DynamicColor.getTone (Spec.example_scheme SPEC_2021)
           Spec.custom_container.
Proof.
apply (getTone2021_background_zone (Spec.example_scheme SPEC_2021)
         Spec.custom_container).
- reflexivity.
- reflexivity.
- reflexivity.
- cbn. discriminate.
- cbn. discriminate.
- reflexivity.
Defined.

(** ** Piecewise hues *)


(** ** Key colors *)

Lemma create_loop_result (fuel : nat) (this : KeyColor.t)
  (lowerTone upperTone : Z) (chromaCache : KeyColor.ChromaCache) :
(Z.to_nat (upperTone - lowerTone) < fuel)%nat ->
(0 <= lowerTone)%Z -> (lowerTone <= 100)%Z -> (upperTone <= 100)%Z ->
exists tone : Z,
  (0 <= tone <= 100)%Z
  /\ KeyColor.create_loop fuel this lowerTone upperTone chromaCache
     = Some (Hct.from (KeyColor.hue this) (KeyColor.requestedChroma this)
                      (IZR tone)).
Proof.
revert lowerTone upperTone chromaCache.
induction fuel as [|fuel IH]; intros lowerTone upperTone chromaCache Hfuel H0 H1 H2.
- lia.
- cbn [KeyColor.create_loop].
  destruct (lowerTone <? upperTone)%Z eqn:Hlt;
    [|exists lowerTone; split; [lia|reflexivity]].
  apply Z.ltb_lt in Hlt.
  rewrite Math_floor_half.
  assert (Hmid : (lowerTone <= (lowerTone + upperTone) / 2 < upperTone)%Z).
  { split.
    - apply Z.div_le_lower_bound; lia.
    - apply Z.div_lt_upper_bound; lia. }
  set (midTone := ((lowerTone + upperTone) / 2)%Z) in *.
  destruct (KeyColor.maxChroma this midTone chromaCache) as [c1 cache1].
  destruct (KeyColor.maxChroma this (midTone + 1) cache1) as [c2 cache2].
  destruct (KeyColor.maxChroma this midTone cache2) as [c3 cache3].
  destruct (c3 >=? KeyColor.requestedChroma this - 0.01).
  + destruct (Z.abs (lowerTone - 50) <? Z.abs (upperTone - 50))%Z.
    * apply IH; lia.
    * destruct (lowerTone =? midTone)%Z eqn:Heq;
        [exists lowerTone; split; [lia|reflexivity]|].
      apply Z.eqb_neq in Heq. apply IH; lia.
  + destruct (c1 <? c2); apply IH; lia.
Qed.

(** X20: the binary search of [KeyColor.create] always ends, within 101
    iterations, and returns [Hct.from(hue, requestedChroma, t)] for a whole
    tone [t] between 0 and 100; the key color is opaque. *)
Theorem KeyColor_create_tone (this : KeyColor.t) :
exists tone : Z,
  (0 <= tone <= 100)%Z
  /\ KeyColor.create_loop 101 this 0 100 []
     = Some (KeyColor.create this)
  /\ KeyColor.create this
     = Hct.from (KeyColor.hue this) (KeyColor.requestedChroma this) (IZR tone)
  /\ alphaFromArgb (Hct.toInt (KeyColor.create this)) = 255%Z.
Proof.
destruct (create_loop_result 101 this 0 100 []) as (tone & Ht & H);
  [cbn; lia|lia|lia|lia|].
exists tone. split; [exact Ht|].
assert (E : KeyColor.create this
            = Hct.from (KeyColor.hue this) (KeyColor.requestedChroma this)
                       (IZR tone)).
{ unfold KeyColor.create. rewrite H. reflexivity. }
split; [rewrite E; exact H|]. split; [exact E|].
rewrite E, Hct_from_toInt. apply alpha_solveToInt.
Qed.


(** ** [QuantizerMap] *)

Lemma Z_eqb_iff (x y : Z) : Z.eqb x y = true <-> x = y.
Proof. apply Z.eqb_eq. Qed.

Lemma QuantizerMap_fold_counts (pixels : list Z) :
forall (countByColor : QuantizerMap.CountByColor) (pixel : Z),
get Z.eqb pixel (fold_left QuantizerMap.quantize_step pixels countByColor)
= if isOpaque pixel && (0 <? Z.of_nat (count_occ Z.eq_dec pixels pixel))%Z
  then Some (match get Z.eqb pixel countByColor with
             | Some count => count
             | None => 0%Z
             end + Z.of_nat (count_occ Z.eq_dec pixels pixel))%Z
  else get Z.eqb pixel countByColor.
Proof.
induction pixels as [|p pixels IH]; intros countByColor pixel.
- cbn. rewrite andb_false_r. reflexivity.
- cbn [fold_left]. rewrite IH. clear IH.
  cbn [count_occ]. unfold QuantizerMap.quantize_step. cbv zeta.
  unfold isOpaque. rewrite Z.geb_leb.
  destruct (Z.eq_dec p pixel) as [-> | Hne].
  + destruct (Z.ltb_spec (alphaFromArgb pixel) 255) as [Hlt | Hge].
    * destruct (Z.leb_spec 255 (alphaFromArgb pixel)); [lia|]. reflexivity.
    * destruct (Z.leb_spec 255 (alphaFromArgb pixel)); [|lia].
      cbn [andb]. rewrite (get_set_same Z.eqb Z_eqb_iff).
      destruct (Z.ltb_spec 0 (Z.of_nat (S (count_occ Z.eq_dec pixels pixel))));
        [|lia].
      destruct (Z.ltb_spec 0 (Z.of_nat (count_occ Z.eq_dec pixels pixel))).
      -- f_equal. lia.
      -- f_equal. lia.
  + destruct (Z.ltb_spec (alphaFromArgb p) 255); [reflexivity|].
    rewrite (get_set_other Z.eqb Z_eqb_iff) by exact Hne. reflexivity.
Qed.

(** X21: the map of [QuantizerMap.quantize] holds, for every opaque color
    that occurs in the pixels, the number of its occurrences, and has no
    entry for any other color. *)
Theorem QuantizerMap_counts (pixels : list Z) (pixel : Z) :
get Z.eqb pixel (QuantizerMap.quantize pixels)
= if isOpaque pixel && (0 <? Z.of_nat (count_occ Z.eq_dec pixels pixel))%Z
  then Some (Z.of_nat (count_occ Z.eq_dec pixels pixel))
  else None.
Proof.
unfold QuantizerMap.quantize. rewrite QuantizerMap_fold_counts.
cbn [get]. reflexivity.
Qed.

(** ** [QuantizerWu] *)

Lemma createBoxes_empty (fuel : nat) (this : QuantizerWu.t) (maxColors : Z) :
(maxColors <= 0)%Z ->
QuantizerWu.createBoxes fuel this maxColors
= Some (Throw "TypeError: Cannot set properties of undefined").
Proof.
intros H. unfold QuantizerWu.createBoxes, filled.
replace (Z.to_nat maxColors) with O by lia. reflexivity.
Qed.

(** X22: with [maxColors] of 0 or less, [QuantizerWu.quantize] and
    [QuantizerCelebi.quantize] throw a [TypeError], whatever the pixels:
    [createBoxes] assigns to the first of no boxes. *)
Theorem Wu_quantize_no_colors (fuel : nat) (random : nat -> R)
  (this : QuantizerWu.t) (pixels : list Z) (maxColors : Z) :
(maxColors <= 0)%Z ->
QuantizerWu.quantize fuel this pixels maxColors
= Some (Throw "TypeError: Cannot set properties of undefined")
/\ QuantizerCelebi.quantize fuel random pixels maxColors
   = Some (Throw "TypeError: Cannot set properties of undefined").
Proof.
intros H.
assert (Hwu : forall this,
          QuantizerWu.quantize fuel this pixels maxColors
          = Some (Throw "TypeError: Cannot set properties of undefined")).
{ intros this0. unfold QuantizerWu.quantize. cbv zeta.
  rewrite createBoxes_empty by exact H. reflexivity. }
split; [apply Hwu|].
unfold QuantizerCelebi.quantize. cbv zeta. rewrite Hwu. reflexivity.
Qed.

Lemma Wu_quantize_no_colors_witness :
QuantizerWu.quantize 0 QuantizerWu.new [] 0
= Some (Throw "TypeError: Cannot set properties of undefined")
/\ QuantizerCelebi.quantize 0 Spec.random_zero [] 0
   = Some (Throw "TypeError: Cannot set properties of undefined").
Proof. apply Wu_quantize_no_colors. lia. Defined.


(** ** [Score.score] *)

Lemma population_step_colors (colorsToPopulation : list (Z * Z)) :
forall (colorsHct : list Hct.t) (huePopulation : list Z) (populationSum : Z),
fst (fst (fold_left Score.population_step colorsToPopulation
                    (colorsHct, huePopulation, populationSum)))
= colorsHct ++ map Hct.fromInt (map fst colorsToPopulation).
Proof.
induction colorsToPopulation as [|[argb population] rest IH]; intros.
- cbn. rewrite app_nil_r. reflexivity.
- cbn [fold_left map fst]. unfold Score.population_step at 2.
  rewrite IH, <- app_assoc. reflexivity.
Qed.

Lemma score_step_subset (filter : bool) (hueExcitedProportions : list R)
  (colorsHct : list Hct.t) :
forall (scoredHct : list (Hct.t * R)) (hct : Hct.t),
In hct (map fst (fold_left (Score.score_step filter hueExcitedProportions)
                           colorsHct scoredHct)) ->
In hct (map fst scoredHct) \/ In hct colorsHct.
Proof.
induction colorsHct as [|c colorsHct IH]; intros scoredHct hct H.
- left. exact H.
- cbn [fold_left] in H. apply IH in H. destruct H as [H | H].
  + unfold Score.score_step in H. cbv zeta in H.
    destruct (filter && _) in H; [left; exact H|].
    rewrite map_app, in_app_iff in H. destruct H as [H | H]; [left; exact H|].
    cbn in H. destruct H as [<- | []]. right. left. reflexivity.
  + right. right. exact H.
Qed.

Lemma insert_In (a x : Hct.t * R) (sorted : list (Hct.t * R)) :
In x (Score.insert a sorted) <-> x = a \/ In x sorted.
Proof.
induction sorted as [|b sorted IH]; cbn [Score.insert].
- cbn. intuition congruence.
- destruct (Score.compare a b <=? 0)%Z; cbn [In].
  + intuition congruence.
  + rewrite IH. intuition congruence.
Qed.

Lemma sort_In (x : Hct.t * R) (scoredHct : list (Hct.t * R)) :
In x (Score.sort scoredHct) <-> In x scoredHct.
Proof.
unfold Score.sort. induction scoredHct as [|a scoredHct IH]; cbn [fold_right].
- reflexivity.
- rewrite insert_In, IH. cbn [In]. intuition congruence.
Qed.

Lemma choose_facts (desired differenceDegrees1 : Z)
  (scoredHct : list (Hct.t * R)) :
forall chosenColors : list Hct.t,
let result := Score.choose desired differenceDegrees1 scoredHct chosenColors in
(Z.of_nat (List.length result)
 <= Z.max (Z.of_nat (List.length chosenColors) + 1) desired)%Z
/\ (forall hct, In hct result ->
                In hct chosenColors \/ In hct (map fst scoredHct)).
Proof.
induction scoredHct as [|[hct score] scoredHct IH]; intros chosenColors result.
- subst result. cbn. split; [lia|]. auto.
- subst result. cbn [Score.choose]. cbv zeta.
  set (chosen' := match find _ chosenColors with
                  | None => chosenColors ++ [hct]
                  | Some _ => chosenColors
                  end).
  assert (Hlen : (List.length chosen' <= List.length chosenColors + 1)%nat).
  { unfold chosen'. destruct (find _ chosenColors);
      [lia|rewrite length_app; cbn; lia]. }
  assert (Hin : forall h, In h chosen' -> In h chosenColors \/ h = hct).
  { unfold chosen'. intros h Hh. destruct (find _ chosenColors);
      [left; exact Hh|].
    apply in_app_iff in Hh. destruct Hh as [Hh | [<- | []]]; auto. }
  rewrite Z.geb_leb.
  destruct (Z.leb_spec desired (Z.of_nat (List.length chosen'))) as [Hd | Hd].
  + split; [lia|]. intros h Hh. apply Hin in Hh.
    destruct Hh as [Hh | ->]; [left; exact Hh|right; left; reflexivity].
  + destruct (IH chosen') as [IH1 IH2]. split; [lia|].
    intros h Hh. apply IH2 in Hh. destruct Hh as [Hh | Hh].
    * apply Hin in Hh.
      destruct Hh as [Hh | ->]; [left; exact Hh|right; left; reflexivity].
    * right. right. exact Hh.
Qed.

Lemma choose_rounds_facts (desired : Z) (scoredHct : list (Hct.t * R))
  (rounds : list Z) :
forall chosenColors : list Hct.t,
let result := Score.choose_rounds desired scoredHct rounds chosenColors in
((Z.of_nat (List.length result) <= Z.max 1 desired)%Z
 /\ (forall hct, In hct result -> In hct (map fst scoredHct)))
\/ result = chosenColors.
Proof.
induction rounds as [|d rounds IH]; intros chosenColors result.
- right. reflexivity.
- subst result. cbn [Score.choose_rounds]. cbv zeta.
  destruct (choose_facts desired d scoredHct []) as [H1 H2].
  cbn [List.length] in H1.
  assert (H2' : forall hct, In hct (Score.choose desired d scoredHct []) ->
                            In hct (map fst scoredHct)).
  { intros h Hh. apply H2 in Hh. destruct Hh as [[] | Hh]. exact Hh. }
  destruct (_ >=? _)%Z.
  + left. split; [lia|exact H2'].
  + destruct (IH (Score.choose desired d scoredHct [])) as [IH' | ->].
    * left. exact IH'.
    * left. split; [lia|exact H2'].
Qed.

Lemma chosen_from (filter : bool) (hueExcitedProportions : list R)
  (colorsHct : list Hct.t) (desired : Z) (rounds : list Z) :
let chosenColors :=
  Score.choose_rounds desired
    (Score.sort (fold_left (Score.score_step filter hueExcitedProportions)
                           colorsHct []))
    rounds [] in
(Z.of_nat (List.length chosenColors) <= Z.max 1 desired)%Z
/\ (forall hct, In hct chosenColors -> In hct colorsHct).
Proof.
intros chosenColors.
destruct (choose_rounds_facts desired
            (Score.sort (fold_left (Score.score_step filter
                                      hueExcitedProportions) colorsHct []))
            rounds []) as [[H1 H2] | H]; fold chosenColors in H1, H2 || fold chosenColors in H.
- split; [exact H1|]. intros hct Hh. apply H2 in Hh.
  apply in_map_iff in Hh. destruct Hh as ([h sc] & Hfst & Hh).
  cbn [fst] in Hfst. subst h.
  apply (proj1 (sort_In _ _)) in Hh.
  assert (Hin : In hct (map fst
            (fold_left (Score.score_step filter hueExcitedProportions)
                       colorsHct []))).
  { apply in_map_iff. exists (hct, sc). split; [reflexivity|exact Hh]. }
  apply score_step_subset in Hin. destruct Hin as [[] | Hin]. exact Hin.
- rewrite H. cbn. split; [lia|]. intros hct [].
Qed.

Lemma score_result (colorsToPopulation : list (Z * Z))
  (options : option Score.ScoreOptions) :
exists chosenColors : list Hct.t,
  Score.score colorsToPopulation options
  = (if (List.length chosenColors =? 0)%nat
     then [match options with
           | Some {| Score.opt_fallbackColorARGB := Some fallback |} => fallback
           | _ => Score.DEFAULT_fallbackColorARGB
           end]
     else [])
    ++ map Hct.toInt chosenColors
  /\ (Z.of_nat (List.length chosenColors)
      <= Z.max 1 (match options with
                  | Some {| Score.opt_desired := Some desired |} => desired
                  | _ => Score.DEFAULT_desired
                  end))%Z
  /\ (forall hct, In hct chosenColors ->
                  In hct (map Hct.fromInt (map fst colorsToPopulation))).
Proof.
unfold Score.score. cbv zeta.
pose proof (population_step_colors colorsToPopulation [] (filled 360 0%Z) 0%Z)
  as Hcolors.
destruct (fold_left Score.population_step colorsToPopulation
                    ([], filled 360 0%Z, 0%Z))
  as [[colorsHct huePopulation] populationSum].
cbn [fst app] in Hcolors. subst colorsHct.
eexists. split; [reflexivity|]. apply chosen_from.
Qed.

Lemma score_nonempty (colorsToPopulation : list (Z * Z))
  (options : option Score.ScoreOptions) :
Score.score colorsToPopulation options <> [].
Proof.
destruct (score_result colorsToPopulation options) as (chosenColors & E & _).
rewrite E. destruct chosenColors; cbn; discriminate.
Qed.

(** X23: [Score.score] never returns an empty list; it returns at most
    [desired] colors (one when [desired] is below 1); every color it
    returns is the fallback color or a color of the map it was given; and
    on the empty map it returns the fallback color alone. *)
Theorem Score_score_ranked (colorsToPopulation : list (Z * Z))
  (options : option Score.ScoreOptions) :
let desired :=
  match options with
  | Some {| Score.opt_desired := Some desired |} => desired
  | _ => Score.DEFAULT_desired
  end in
let fallbackColorARGB :=
  match options with
  | Some {| Score.opt_fallbackColorARGB := Some fallback |} => fallback
  | _ => Score.DEFAULT_fallbackColorARGB
  end in
let ranked := Score.score colorsToPopulation options in
ranked <> []
/\ (Z.of_nat (List.length ranked) <= Z.max 1 desired)%Z
/\ Forall (fun argb => argb = fallbackColorARGB
                       \/ In argb (map fst colorsToPopulation)) ranked
/\ Score.score [] options = [fallbackColorARGB].
Proof.
intros desired fallbackColorARGB ranked.
destruct (score_result colorsToPopulation options)
  as (chosenColors & E & Hlen & Hin).
fold desired in Hlen. fold fallbackColorARGB in E. fold ranked in E.
assert (Hmembers : Forall (fun argb => argb = fallbackColorARGB
                       \/ In argb (map fst colorsToPopulation))
                     (map Hct.toInt chosenColors)).
{ apply Forall_forall. intros argb Ha. right.
  apply in_map_iff in Ha. destruct Ha as (hct & <- & Hh).
  apply Hin in Hh. apply in_map_iff in Hh. destruct Hh as (argb & <- & Ha).
  exact Ha. }
split; [|split; [|split]].
- rewrite E. destruct chosenColors; cbn; discriminate.
- rewrite E. destruct chosenColors as [|c chosenColors].
  + cbn [List.length Nat.eqb app map]. lia.
  + cbn [List.length Nat.eqb app map]. rewrite length_map.
    cbn [List.length] in Hlen. lia.
- rewrite E. apply Forall_app. split; [|exact Hmembers].
  destruct (_ =? 0)%nat; constructor; [left; reflexivity|constructor].
- destruct (score_result [] options) as (chosen0 & E0 & _ & Hin0).
  fold fallbackColorARGB in E0. rewrite E0.
  destruct chosen0 as [|c chosen0]; [reflexivity|].
  destruct (Hin0 c (or_introl eq_refl)).
Qed.

(** ** Hexadecimal colors *)

Lemma twoDigits_all : forallb Notions.twoDigits_ok (upto 256) = true.
Proof. vm_compute. reflexivity. Qed.

Lemma twoDigits_facts (channel : Z) :
(0 <= channel <= 255)%Z ->
exists x y : ascii,
  Notions.twoDigits channel = String x (String y EmptyString)
  /\ parseIntHex (String x (String y EmptyString)) = Some channel
  /\ Ascii.eqb x "#"%char = false.
Proof.
intros H.
assert (Hin : In channel (upto 256)).
{ unfold upto. apply in_map_iff. exists (Z.to_nat channel).
  split; [lia|]. apply in_seq. cbn. lia. }
pose proof (proj1 (forallb_forall _ _) twoDigits_all channel Hin) as Hok.
unfold Notions.twoDigits_ok in Hok.
apply andb_true_iff in Hok. destruct Hok as [Hok Hhash].
apply andb_true_iff in Hok. destruct Hok as [Hlen Hparse].
destruct (Notions.twoDigits channel) as [|x [|y [|z s]]];
  cbn [String.length Nat.eqb] in Hlen; try discriminate.
exists x, y. split; [reflexivity|].
destruct (parseIntHex (String x (String y EmptyString))) as [n|];
  [|discriminate].
apply Z.eqb_eq in Hparse. subst n. split; [reflexivity|].
cbn [list_ascii_of_string existsb] in Hhash.
apply negb_true_iff, orb_false_iff in Hhash. destruct Hhash as [E _].
rewrite Ascii.eqb_sym. exact E.
Qed.

Lemma channels_mod (argb : Z) :
(redFromArgb argb * 65536 + greenFromArgb argb * 256 + blueFromArgb argb
 = argb mod 16777216)%Z.
Proof.
unfold redFromArgb, greenFromArgb, blueFromArgb.
rewrite !band_255. unfold sar.
change (Z.land 16 31) with 16%Z. change (Z.land 8 31) with 8%Z.
rewrite !Z.shiftr_div_pow2 by lia.
pose proof (ToInt32_range argb) as Hr.
assert (H16 : (- 2 ^ 31 <= ToInt32 argb / 2 ^ 16 < 2 ^ 31)%Z)
  by (Z.div_mod_to_equations; lia).
assert (H8 : (- 2 ^ 31 <= ToInt32 argb / 2 ^ 8 < 2 ^ 31)%Z)
  by (Z.div_mod_to_equations; lia).
rewrite (ToInt32_small (ToInt32 argb / 2 ^ 16)) by exact H16.
rewrite (ToInt32_small (ToInt32 argb / 2 ^ 8)) by exact H8.
assert (Hc : exists k, ToInt32 argb = (argb + k * 2 ^ 32)%Z).
{ destruct (ToInt32_cases argb) as [E | E]; rewrite E.
  - exists (- (argb / 2 ^ 32))%Z. pose proof (Z.div_mod argb (2 ^ 32)). lia.
  - exists (- (argb / 2 ^ 32) - 1)%Z. pose proof (Z.div_mod argb (2 ^ 32)). lia. }
destruct Hc as [k Hk]. rewrite Hk in *.
change (2 ^ 16)%Z with 65536%Z. change (2 ^ 8)%Z with 256%Z.
change (2 ^ 32)%Z with 4294967296%Z in *.
Z.div_mod_to_equations. lia.
Qed.

Lemma packed_eq (r g b : Z) :
(255 << 24 .| (r .& 255) << 16 .| (g .& 255) << 8 .| b .& 255) >>> 0
= argbFromRgb r g b.
Proof. unfold argbFromRgb. reflexivity. Qed.

Lemma removeHash_first (s : string) : removeHash (String "#"%char s) = s.
Proof. cbn [removeHash]. rewrite Ascii.eqb_refl. reflexivity. Qed.


Lemma alpha_packed (r g b : Z) :
alphaFromArgb ((255 << 24 .| (r .& 255) << 16 .| (g .& 255) << 8 .| b .& 255)
               >>> 0) = 255%Z.
Proof. rewrite packed_eq. apply alpha_argbFromRgb. Qed.

(** X25: [argbFromHex] throws ["unexpected hex ..."] when the string,
    after its first ["#"] is removed, has a length other than 3, 6 and 8;
    for these three lengths it returns an opaque color, whatever the
    characters are. *)
Theorem argbFromHex_lengths (hex : string) :
let digits := removeHash hex in
let length := String.length digits in
(length <> 3%nat /\ length <> 6%nat /\ length <> 8%nat
 /\ argbFromHex hex = Throw ("unexpected hex " ++ digits))
\/ ((length = 3%nat \/ length = 6%nat \/ length = 8%nat)
    /\ exists argb : Z,
         argbFromHex hex = Ok argb /\ alphaFromArgb argb = 255%Z).
Proof.
intros digits length. unfold argbFromHex. fold digits. cbv zeta. fold length.
destruct (Nat.eqb_spec length 3) as [E3 | E3].
- right. split; [auto|]. cbn [negb andb]. eexists. split; [reflexivity|].
  apply alpha_packed.
- destruct (Nat.eqb_spec length 6) as [E6 | E6].
  + right. split; [auto|]. cbn [negb andb]. eexists. split; [reflexivity|].
    apply alpha_packed.
  + destruct (Nat.eqb_spec length 8) as [E8 | E8].
    * right. split; [auto|]. cbn [negb andb]. eexists. split; [reflexivity|].
      apply alpha_packed.
    * left. cbn [negb andb]. auto.
Qed.

(** ** Images *)

Lemma length_bytes_of (image : list (Z * Z * Z * Z)) :
List.length (Notions.bytes_of image) = (4 * List.length image)%nat.
Proof.
unfold Notions.bytes_of.
induction image as [|[[[r g] b] a] image IH]; [reflexivity|].
cbn [flat_map app List.length]. rewrite IH. lia.
Qed.

Lemma pixels_of_bytes (image : list (Z * Z * Z * Z)) :
forall (before : list Z) (m : nat) (pixels : list Z),
List.length before = (4 * m)%nat ->
fold_left (pixel_step (before ++ Notions.bytes_of image))
          (map (fun k => (4 * k)%nat) (seq m (List.length image))) pixels
= pixels ++ Notions.colors_of (Notions.solid image).
Proof.
induction image as [|[[[r g] b] a] image IH]; intros before m pixels Hlen.
- cbn. rewrite app_nil_r. reflexivity.
- cbn [List.length seq map fold_left].
  assert (Hstep : pixel_step (before ++ Notions.bytes_of ((r, g, b, a) :: image))
                             pixels (4 * m)
                  = pixels ++ Notions.colors_of (Notions.solid [(r, g, b, a)])).
  { unfold pixel_step. cbv zeta.
    rewrite !nth_error_app2 by lia.
    replace (4 * m - List.length before)%nat with 0%nat by lia.
    replace (4 * m + 1 - List.length before)%nat with 1%nat by lia.
    replace (4 * m + 2 - List.length before)%nat with 2%nat by lia.
    replace (4 * m + 3 - List.length before)%nat with 3%nat by lia.
    cbn [Notions.bytes_of flat_map app nth_error orZero Notions.solid filter].
    destruct (a <? 255)%Z; cbn [negb Notions.colors_of map].
    - rewrite app_nil_r. reflexivity.
    - reflexivity. }
  rewrite Hstep.
  replace (before ++ Notions.bytes_of ((r, g, b, a) :: image))
    with ((before ++ [r; g; b; a]) ++ Notions.bytes_of image)
    by (rewrite <- app_assoc; reflexivity).
  rewrite (IH (before ++ [r; g; b; a]) (S m))
    by (rewrite length_app; cbn [List.length]; lia).
  rewrite <- app_assoc. f_equal.
  cbn [Notions.solid filter]. destruct (a <? 255)%Z; reflexivity.
Qed.

Lemma pixels_of_image (image : list (Z * Z * Z * Z)) :
fold_left (pixel_step (Notions.bytes_of image))
          (map (fun k => (4 * k)%nat)
               (seq 0 ((List.length (Notions.bytes_of image) + 3) / 4)))
          []
= Notions.colors_of (Notions.solid image).
Proof.
rewrite length_bytes_of.
replace ((4 * List.length image + 3) / 4)%nat with (List.length image).
- apply (pixels_of_bytes image [] 0 []). reflexivity.
- apply Nat.div_unique with 3%nat; lia.
Qed.

Lemma solid_solid (image : list (Z * Z * Z * Z)) : Notions.solid (Notions.solid image) = Notions.solid image.
Proof.
unfold Notions.solid. induction image as [|[[[r g] b] a] image IH]; [reflexivity|].
cbn [filter]. destruct (negb (a <? 255)%Z) eqn:E; [|exact IH].
cbn [filter]. rewrite E, IH. reflexivity.
Qed.


(** ** Termination of [QuantizerWu.createBoxes] *)

Lemma positives_update_le (k : nat) (v : R) (volumeVariance : list R) :
(Notions.positives (update k (fun _ => v) volumeVariance)
 <= S (Notions.positives volumeVariance))%nat.
Proof.
unfold Notions.positives. revert k.
induction volumeVariance as [|x l IH]; intros k; [destruct k; cbn; lia|].
destruct k as [|k]; cbn [update filter].
- destruct (0 <? v), (0 <? x); cbn [List.length]; lia.
- specialize (IH k). destruct (0 <? x); cbn [List.length]; lia.
Qed.

Lemma positives_update_zero (k : nat) (volumeVariance : list R) :
0 < nth k volumeVariance 0 ->
S (Notions.positives (update k (fun _ => 0) volumeVariance)) = Notions.positives volumeVariance.
Proof.
unfold Notions.positives. revert k.
induction volumeVariance as [|x l IH]; intros k H.
- destruct k; cbn in H; lra.
- destruct k as [|k]; cbn [update filter nth] in *.
  + destruct (0 <? 0) eqn:E0; [apply lt_true_iff in E0; lra|].
    destruct (0 <? x) eqn:Ex; [reflexivity|].
    apply lt_false_iff in Ex. lra.
  + specialize (IH k H). destruct (0 <? x); cbn [List.length]; lia.
Qed.

Lemma positives_none (volumeVariance : list R) (j : Z) :
Notions.positives volumeVariance = 0%nat -> atZ volumeVariance j 0 <= 0.
Proof.
unfold Notions.positives, atZ. intros H.
destruct (j <? 0)%Z; [lra|].
generalize (Z.to_nat j). clear j.
induction volumeVariance as [|x l IH]; intros k.
- destruct k; cbn; lra.
- cbn [filter] in H. destruct (0 <? x) eqn:Ex; [discriminate|].
  apply lt_false_iff in Ex.
  destruct k as [|k]; cbn [nth]; [exact Ex|]. apply IH. exact H.
Qed.

Lemma positives_update_none (k : nat) (volumeVariance : list R) :
Notions.positives volumeVariance = 0%nat ->
Notions.positives (update k (fun _ => 0) volumeVariance) = 0%nat.
Proof.
unfold Notions.positives. revert k.
induction volumeVariance as [|x l IH]; intros k H; [destruct k; reflexivity|].
cbn [filter] in H. destruct (0 <? x) eqn:Ex; [discriminate|].
destruct k as [|k]; cbn [update filter].
- destruct (0 <? 0) eqn:E0; [apply lt_true_iff in E0; lra|]. exact H.
- rewrite Ex. apply IH. exact H.
Qed.

Lemma largest_variance_at (volumeVariance : list R) (i : Z) :
fst (QuantizerWu.largest_variance volumeVariance i)
= atZ volumeVariance (snd (QuantizerWu.largest_variance volumeVariance i)) 0.
Proof.
unfold QuantizerWu.largest_variance.
generalize (range 1 (i + 1)).
assert (H0 : fst (atZ volumeVariance 0 0, 0%Z)
             = atZ volumeVariance (snd (atZ volumeVariance 0 0, 0%Z)) 0)
  by reflexivity.
revert H0. generalize (atZ volumeVariance 0 0, 0%Z).
intros acc H0 l. revert acc H0.
induction l as [|j l IH]; intros acc H0; [exact H0|].
cbn [fold_left]. apply IH.
destruct (_ >? _); [reflexivity|exact H0].
Qed.

Lemma createBoxes_loop_returns (this : QuantizerWu.t) (maxColors : Z)
  (fuel : nat) :
forall (cubes : list QuantizerWu.Box) (volumeVariance : list R) (next i : Z),
(Z.to_nat (3 * (maxColors - i)) + Notions.positives volumeVariance < fuel)%nat ->
0 < atZ volumeVariance next 0 \/ Notions.positives volumeVariance = 0%nat ->
exists generated : Z * list QuantizerWu.Box,
  QuantizerWu.createBoxes_loop fuel this maxColors cubes volumeVariance next i
  = Some generated.
Proof.
induction fuel as [|fuel IH]; intros cubes volumeVariance next i Hfuel Hnext;
  [lia|].
cbn [QuantizerWu.createBoxes_loop].
destruct (Z.ltb_spec i maxColors) as [Hi | Hi]; [|eexists; reflexivity].
cbv zeta.
destruct (QuantizerWu.cut this _ _) as [[ok one] two].
destruct ok.
- match goal with
  | |- context [QuantizerWu.largest_variance ?vv ?j] =>
      pose proof (largest_variance_at vv j) as Hat;
      assert (Hpos : (Notions.positives vv <= S (S (Notions.positives volumeVariance)))%nat);
      [|destruct (QuantizerWu.largest_variance vv j) as [temp next'] eqn:El]
  end.
  { etransitivity; [apply positives_update_le|].
    pose proof (positives_update_le (Z.to_nat next)
                  (if (QuantizerWu.vol one >? 1)%Z
                   then QuantizerWu.variance this one else 0) volumeVariance).
    lia. }
  cbn [fst snd] in Hat.
  destruct (temp <=? 0) eqn:Et; [eexists; reflexivity|].
  apply le_false_iff in Et. apply IH.
  + lia.
  + left. rewrite <- Hat. exact Et.
- match goal with
  | |- context [QuantizerWu.largest_variance ?vv ?j] =>
      pose proof (largest_variance_at vv j) as Hat;
      destruct (QuantizerWu.largest_variance vv j) as [temp next'] eqn:El
  end.
  cbn [fst snd] in Hat.
  destruct (temp <=? 0) eqn:Et; [eexists; reflexivity|].
  apply le_false_iff in Et.
  destruct Hnext as [Hnext | Hnone].
  + assert (Hn : 0 < nth (Z.to_nat next) volumeVariance 0).
    { unfold atZ in Hnext. destruct (next <? 0)%Z; [lra|exact Hnext]. }
    pose proof (positives_update_zero _ _ Hn) as Hdec.
    replace (i - 1 + 1)%Z with i by lia.
    apply IH.
    * lia.
    * left. rewrite <- Hat. exact Et.
  + exfalso.
    pose proof (positives_update_none (Z.to_nat next) _ Hnone) as Hnone'.
    pose proof (positives_none _ next' Hnone'). lra.
Qed.

Lemma positives_filled (n : Z) : Notions.positives (filled n 0) = 0%nat.
Proof.
unfold Notions.positives, filled. induction (Z.to_nat n) as [|k IH]; [reflexivity|].
cbn [repeat filter]. destruct (0 <? 0) eqn:E; [apply lt_true_iff in E; lra|].
exact IH.
Qed.

Lemma createBoxes_returns (this : QuantizerWu.t) (maxColors : Z) (fuel : nat) :
(Z.to_nat (3 * maxColors) <= fuel)%nat ->
exists outcome, QuantizerWu.createBoxes fuel this maxColors = Some outcome.
Proof.
intros Hfuel. unfold QuantizerWu.createBoxes. cbv zeta.
destruct (filled maxColors (QuantizerWu.mkBox 0 0 0 0 0 0 0)) as [|c cubes] eqn:Ec;
  [eexists; reflexivity|].
assert (Hmax : (0 < maxColors)%Z).
{ unfold filled in Ec. destruct (Z.to_nat maxColors) eqn:E; [discriminate|lia]. }
match goal with
| |- context [QuantizerWu.createBoxes_loop fuel this maxColors ?cs ?vv 0 1] =>
    destruct (createBoxes_loop_returns this maxColors fuel cs vv 0%Z 1%Z)
      as [[count boxes] H]
end.
- rewrite positives_filled. lia.
- right. apply positives_filled.
- rewrite H. eexists. reflexivity.
Qed.


(** ** The colors of [QuantizerWu] *)

Section SignedColors.
Local Open Scope Z_scope.

Lemma signed_color (r g b : Z) :
255 << 24 .| (r .& 255) << 16 .| (g .& 255) << 8 .| b .& 255
= argbFromRgb r g b - 4294967296.
Proof.
rewrite argbFromRgb_value.
pose proof (band_255_range r) as Hr.
pose proof (band_255_range g) as Hg.
pose proof (band_255_range b) as Hb.
set (R := r .& 255) in *. set (G := g .& 255) in *. set (B := b .& 255) in *.
assert (HA : 255 << 24 = -1 * 2 ^ 24) by reflexivity.
assert (HR : R << 16 = R * 2 ^ 16).
{ unfold shl. change (Z.land 16 31) with 16. rewrite (ToInt32_small R) by lia.
  rewrite Z.shiftl_mul_pow2 by lia. apply ToInt32_small. lia. }
assert (HG : G << 8 = G * 2 ^ 8).
{ unfold shl. change (Z.land 8 31) with 8. rewrite (ToInt32_small G) by lia.
  rewrite Z.shiftl_mul_pow2 by lia. apply ToInt32_small. lia. }
rewrite HA, HR, HG.
unfold bor at 3.
rewrite (ToInt32_small (-1 * 2 ^ 24)) by lia.
rewrite (ToInt32_small (R * 2 ^ 16)) by lia.
rewrite lor_disjoint by lia.
unfold bor at 2.
rewrite (ToInt32_small (-1 * 2 ^ 24 + R * 2 ^ 16)) by lia.
rewrite (ToInt32_small (G * 2 ^ 8)) by lia.
replace (-1 * 2 ^ 24 + R * 2 ^ 16) with ((-256 + R) * 2 ^ 16) by lia.
rewrite lor_disjoint by lia.
unfold bor.
rewrite (ToInt32_small ((-256 + R) * 2 ^ 16 + G * 2 ^ 8)) by lia.
rewrite (ToInt32_small B) by lia.
replace ((-256 + R) * 2 ^ 16 + G * 2 ^ 8) with (((-256 + R) * 256 + G) * 2 ^ 8) by lia.
rewrite lor_disjoint by lia.
lia.
Qed.

Lemma ToInt32_shift (z k : Z) : ToInt32 (z + k * 4294967296) = ToInt32 z.
Proof.
unfold ToInt32. change (2 ^ 32) with 4294967296.
replace (z + k * 4294967296 + 2 ^ 31) with (z + 2 ^ 31 + k * 4294967296) by lia.
rewrite Z.mod_add by lia. reflexivity.
Qed.

Lemma alpha_shift (z k : Z) : alphaFromArgb (z + k * 4294967296) = alphaFromArgb z.
Proof. unfold alphaFromArgb, sar. rewrite ToInt32_shift. reflexivity. Qed.

Lemma signed_color_facts (r g b : Z) :
let color := 255 << 24 .| (r .& 255) << 16 .| (g .& 255) << 8 .| b .& 255 in
-16777216 <= color < 0 /\ alphaFromArgb color = 255
/\ color = argbFromRgb r g b - 4294967296.
Proof.
intros color. unfold color. rewrite signed_color.
pose proof (argbFromRgb_value r g b) as Hv.
pose proof (band_255_range r) as Hr.
pose proof (band_255_range g) as Hg.
pose proof (band_255_range b) as Hb.
split; [lia|]. split; [|reflexivity].
replace (argbFromRgb r g b - 4294967296)
  with (argbFromRgb r g b + (-1) * 4294967296) by lia.
rewrite alpha_shift. exact (proj1 (argbFromRgb_channels r g b)).
Qed.

End SignedColors.

Lemma fold_collect {A B : Type} (P : A -> Prop) (F : list A -> B -> list A) :
(forall acc i, F acc i = acc \/ exists c, P c /\ F acc i = acc ++ [c]) ->
forall (l : list B) (acc : list A),
Forall P acc ->
(List.length (fold_left F l acc) <= List.length acc + List.length l)%nat
/\ Forall P (fold_left F l acc).
Proof.
intros HF. induction l as [|i l IH]; intros acc Hacc.
- cbn. split; [lia|exact Hacc].
- cbn [fold_left List.length].
  destruct (HF acc i) as [E | (c & Hc & E)]; rewrite E.
  + destruct (IH acc Hacc). split; [lia|assumption].
  + destruct (IH (acc ++ [c])) as [I1 I2].
    * apply Forall_app. split; [exact Hacc|]. constructor; [exact Hc|constructor].
    * rewrite length_app in I1. cbn [List.length] in I1. split; [lia|exact I2].
Qed.

Lemma createResult_colors (this : QuantizerWu.t) (colorCount : Z) :
(List.length (QuantizerWu.createResult this colorCount)
 <= Z.to_nat colorCount)%nat
/\ Forall Notions.signed_opaque (QuantizerWu.createResult this colorCount).
Proof.
unfold QuantizerWu.createResult.
match goal with
| |- context [fold_left ?F (upto colorCount) []] =>
    destruct (fold_collect Notions.signed_opaque F) with (l := upto colorCount)
                                                 (acc := @nil Z) as [H1 H2]
end.
- intros acc i. cbv zeta. destruct (_ >? 0)%Z; [|left; reflexivity].
  right. eexists. split; [|reflexivity]. split; apply signed_color_facts.
- constructor.
- split; [|exact H2]. unfold upto in H1 at 2.
  rewrite length_map, length_seq in H1. cbn [List.length] in H1. lia.
Qed.

Lemma createBoxes_loop_count (this : QuantizerWu.t) (maxColors : Z)
  (fuel : nat) :
forall (cubes : list QuantizerWu.Box) (volumeVariance : list R) (next i : Z)
       (count : Z) (boxes : list QuantizerWu.Box),
QuantizerWu.createBoxes_loop fuel this maxColors cubes volumeVariance next i
= Some (count, boxes) ->
(count <= Z.max maxColors i)%Z.
Proof.
induction fuel as [|fuel IH]; intros cubes volumeVariance next i count boxes.
- cbn [QuantizerWu.createBoxes_loop].
  destruct (Z.ltb_spec i maxColors); [discriminate|].
  intros E. injection E as <- <-. lia.
- cbn [QuantizerWu.createBoxes_loop].
  destruct (Z.ltb_spec i maxColors) as [Hi | Hi];
    [|intros E; injection E as <- <-; lia].
  cbv zeta.
  destruct (QuantizerWu.cut this _ _) as [[ok one] two].
  destruct (QuantizerWu.largest_variance _ _) as [temp next'].
  destruct (temp <=? 0).
  + intros E. injection E as <- <-. destruct ok; lia.
  + intros E. apply IH in E. destruct ok; lia.
Qed.

Lemma createBoxes_count (fuel : nat) (this : QuantizerWu.t) (maxColors : Z)
  (r : QuantizerWu.CreateBoxesResult) (t : QuantizerWu.t) :
QuantizerWu.createBoxes fuel this maxColors = Some (Ok (r, t)) ->
(QuantizerWu.resultCount r <= maxColors)%Z /\ (0 < maxColors)%Z.
Proof.
unfold QuantizerWu.createBoxes. cbv zeta.
destruct (filled maxColors (QuantizerWu.mkBox 0 0 0 0 0 0 0)) as [|c cubes] eqn:Ec;
  [discriminate|].
assert (Hmax : (0 < maxColors)%Z).
{ unfold filled in Ec. destruct (Z.to_nat maxColors) eqn:E; [discriminate|lia]. }
destruct (QuantizerWu.createBoxes_loop fuel _ maxColors _ _ 0 1)
  as [[count boxes]|] eqn:Hl; [|discriminate].
intros E. injection E as <- <-. cbn [QuantizerWu.resultCount].
apply createBoxes_loop_count in Hl. lia.
Qed.


(** ** The result of [QuantizerWsmeans] *)

Lemma set_absent {K V : Type} (eqb : K -> K -> bool) (k : K) (v : V)
  (m : list (K * V)) :
has eqb k m = false -> set eqb k v m = m ++ [(k, v)].
Proof.
unfold has. induction m as [|[k' v'] m IH]; cbn [get set app]; [reflexivity|].
destruct (eqb k k'); [discriminate|]. intros H. rewrite IH by exact H.
reflexivity.
Qed.

Lemma length_upto (n : Z) : List.length (upto n) = Z.to_nat n.
Proof. unfold upto. rewrite length_map, length_seq. reflexivity. Qed.

Lemma dedup_pointCount (inputPixels : list Z) :
forall d : QuantizerWsmeans.Dedup,
(0 <= QuantizerWsmeans.d_pointCount d)%Z ->
(0 <= QuantizerWsmeans.d_pointCount
        (fold_left QuantizerWsmeans.dedup_step inputPixels d)
 <= QuantizerWsmeans.d_pointCount d + Z.of_nat (List.length inputPixels))%Z.
Proof.
induction inputPixels as [|p l IH]; intros d Hd.
- cbn. lia.
- cbn [fold_left List.length].
  assert (Hs : (QuantizerWsmeans.d_pointCount d
                <= QuantizerWsmeans.d_pointCount
                     (QuantizerWsmeans.dedup_step d p)
                <= QuantizerWsmeans.d_pointCount d + 1)%Z).
  { unfold QuantizerWsmeans.dedup_step.
    destruct (get Z.eqb p (QuantizerWsmeans.d_pixelToCount d)); cbn; lia. }
  specialize (IH (QuantizerWsmeans.dedup_step d p) ltac:(lia)). lia.
Qed.

Lemma Wsmeans_result (random : nat -> R)
  (inputPixels startingClusters : list Z) (maxColors : Z) :
let result :=
  QuantizerWsmeans.quantize random inputPixels startingClusters maxColors in
(Z.of_nat (List.length result) <= Z.max 0 maxColors)%Z
/\ (List.length result <= List.length inputPixels)%nat
/\ Forall (fun entry => snd entry <> 0%Z) result.
Proof.
intros result. unfold result, QuantizerWsmeans.quantize. cbv zeta.
assert (Hpc : (0 <= QuantizerWsmeans.d_pointCount
                        (QuantizerWsmeans.dedup inputPixels)
                <= Z.of_nat (List.length inputPixels))%Z).
{ pose proof (dedup_pointCount inputPixels
                (QuantizerWsmeans.mkDedup [] [] [] 0) ltac:(cbn; lia)) as H.
  exact H. }
set (pointCount := QuantizerWsmeans.d_pointCount
                     (QuantizerWsmeans.dedup inputPixels)) in *.
set (clusterCount :=
       if (0 <? List.length startingClusters)%nat
       then Z.min (Z.min maxColors pointCount)
                  (Z.of_nat (List.length startingClusters))
       else Z.min maxColors pointCount).
assert (Hcc : (clusterCount <= maxColors /\ clusterCount <= pointCount)%Z).
{ unfold clusterCount. destruct (0 <? List.length startingClusters)%nat; lia. }
destruct (if _ && _ then _ else _) as [clusters drawn].
match goal with
| |- context [fold_left ?F (upto clusterCount) []] =>
    destruct (fold_collect (fun entry : Z * Z => snd entry <> 0%Z) F)
      with (l := upto clusterCount) (acc := @nil (Z * Z)) as [H1 H2]
end.
- intros acc i. cbv beta zeta.
  match goal with
  | |- context [if (?c =? 0)%Z then _ else _] =>
      destruct (Z.eqb_spec c 0) as [E | E]
  end; [left; reflexivity|].
  destruct (has Z.eqb _ acc) eqn:Hhas; [left; reflexivity|].
  right. eexists. split; [|apply set_absent; exact Hhas]. exact E.
- constructor.
- rewrite length_upto in H1.
  cbn [List.length] in H1. split; [lia|]. split; [lia|exact H2].
Qed.

(** X26: for [maxColors] above 0, [QuantizerWsmeans.quantize] returns at
    most [maxColors] colors and at most as many as there are pixels, each
    with a population other than 0; on no pixels it returns the empty
    map.  (With [maxColors] of 0 or less the source can throw.) *)
Theorem Wsmeans_quantize_result (random : nat -> R)
  (inputPixels startingClusters : list Z) (maxColors : Z) :
(0 < maxColors)%Z ->
(Z.of_nat (List.length
             (QuantizerWsmeans.quantize random inputPixels startingClusters
                                        maxColors)) <= maxColors)%Z
/\ (List.length
      (QuantizerWsmeans.quantize random inputPixels startingClusters maxColors)
    <= List.length inputPixels)%nat
/\ Forall (fun entry => snd entry <> 0%Z)
          (QuantizerWsmeans.quantize random inputPixels startingClusters
                                     maxColors)
/\ QuantizerWsmeans.quantize random [] startingClusters maxColors = [].
Proof.
intros HmaxColors.
destruct (Wsmeans_result random inputPixels startingClusters maxColors)
  as (H1 & H2 & H3).
split; [lia|]. split; [exact H2|]. split; [exact H3|].
destruct (Wsmeans_result random [] startingClusters maxColors) as (_ & H & _).
destruct (QuantizerWsmeans.quantize random [] startingClusters maxColors);
  [reflexivity|cbn in H; lia].
Qed.

Lemma Wsmeans_quantize_result_witness :
(Z.of_nat (List.length
             (QuantizerWsmeans.quantize Spec.random_zero
                [4294901760%Z; 4294901760%Z; 4278190335%Z] [] 2)) <= 2)%Z
/\ (List.length
      (QuantizerWsmeans.quantize Spec.random_zero
         [4294901760%Z; 4294901760%Z; 4278190335%Z] [] 2) <= 3)%nat
/\ Forall (fun entry => snd entry <> 0%Z)
          (QuantizerWsmeans.quantize Spec.random_zero
             [4294901760%Z; 4294901760%Z; 4278190335%Z] [] 2)
/\ QuantizerWsmeans.quantize Spec.random_zero [] [] 2 = [].
Proof.
apply (Wsmeans_quantize_result Spec.random_zero
         [4294901760%Z; 4294901760%Z; 4278190335%Z] [] 2).
lia.
Defined.

(** ** [QuantizerWu] and [QuantizerCelebi] return *)

Lemma createBoxes_ok (this : QuantizerWu.t) (maxColors : Z) (fuel : nat) :
(0 < maxColors)%Z ->
(Z.to_nat (3 * maxColors) <= fuel)%nat ->
exists r t, QuantizerWu.createBoxes fuel this maxColors = Some (Ok (r, t)).
Proof.
intros Hmax Hfuel.
destruct (createBoxes_returns this maxColors fuel Hfuel) as [[[r t]|e] H].
- exists r, t. exact H.
- exfalso. unfold QuantizerWu.createBoxes in H. cbv zeta in H.
  unfold filled in H. destruct (Z.to_nat maxColors) eqn:E; [lia|].
  cbn [repeat] in H.
  destruct (QuantizerWu.createBoxes_loop _ _ _ _ _ _ _) as [[c b]|];
    discriminate.
Qed.

Lemma Wu_quantize_ok (fuel : nat) (this : QuantizerWu.t) (pixels : list Z)
  (maxColors : Z) :
(0 < maxColors)%Z ->
(Z.to_nat (3 * maxColors) <= fuel)%nat ->
exists colors : list Z,
  QuantizerWu.quantize fuel this pixels maxColors = Some (Ok colors)
  /\ (Z.of_nat (List.length colors) <= maxColors)%Z
  /\ Forall Notions.signed_opaque colors.
Proof.
intros Hmax Hfuel. unfold QuantizerWu.quantize. cbv zeta.
match goal with
| |- context [QuantizerWu.createBoxes fuel ?t maxColors] =>
    destruct (createBoxes_ok t maxColors fuel Hmax Hfuel) as (r & t' & H)
end.
rewrite H. eexists. split; [reflexivity|].
destruct (createResult_colors t' (QuantizerWu.resultCount r)) as [H1 H2].
split; [|exact H2]. apply createBoxes_count in H. lia.
Qed.

Lemma Celebi_quantize_ok (fuel : nat) (random : nat -> R)
  (pixels : list Z) (maxColors : Z) :
(0 < maxColors)%Z ->
(Z.to_nat (3 * maxColors) <= fuel)%nat ->
exists result : list (Z * Z),
  QuantizerCelebi.quantize fuel random pixels maxColors = Some (Ok result)
  /\ (Z.of_nat (List.length result) <= maxColors)%Z
  /\ (List.length result <= List.length pixels)%nat
  /\ Forall (fun entry => snd entry <> 0%Z) result.
Proof.
intros Hmax Hfuel. unfold QuantizerCelebi.quantize. cbv zeta.
destruct (Wu_quantize_ok fuel QuantizerWu.new pixels maxColors Hmax Hfuel)
  as (colors & E & _).
rewrite E. eexists. split; [reflexivity|].
destruct (Wsmeans_result random pixels colors maxColors) as (H1 & H2 & H3).
split; [lia|]. split; [exact H2|exact H3].
Qed.

(** X27: for [maxColors] above 0 the loop of [createBoxes] ends within
    [3 * maxColors] iterations, although its body may decrement the
    counter.  [QuantizerWu.quantize] then returns at most [maxColors]
    colors, each a negative number whose alpha byte is 255 (the color is
    not converted to an unsigned number); [QuantizerCelebi.quantize]
    returns at most [maxColors] colors with populations other than 0. *)
Theorem quantizers_return (fuel : nat) (random : nat -> R)
  (this : QuantizerWu.t) (pixels : list Z) (maxColors : Z) :
(0 < maxColors)%Z ->
(Z.to_nat (3 * maxColors) <= fuel)%nat ->
(exists colors : list Z,
   QuantizerWu.quantize fuel this pixels maxColors = Some (Ok colors)
   /\ (Z.of_nat (List.length colors) <= maxColors)%Z
   /\ Forall Notions.signed_opaque colors)
/\ (exists result : list (Z * Z),
      QuantizerCelebi.quantize fuel random pixels maxColors = Some (Ok result)
      /\ (Z.of_nat (List.length result) <= maxColors)%Z
      /\ (List.length result <= List.length pixels)%nat
      /\ Forall (fun entry => snd entry <> 0%Z) result).
Proof.
intros Hmax Hfuel.
split; [apply Wu_quantize_ok|apply Celebi_quantize_ok]; assumption.
Qed.

Lemma quantizers_return_witness :
(exists colors : list Z,
   QuantizerWu.quantize 6 QuantizerWu.new [4278190080%Z] 2 = Some (Ok colors)
   /\ (Z.of_nat (List.length colors) <= 2)%Z
   /\ Forall Notions.signed_opaque colors)
/\ (exists result : list (Z * Z),
      QuantizerCelebi.quantize 6 Spec.random_zero [4278190080%Z] 2
      = Some (Ok result)
      /\ (Z.of_nat (List.length result) <= 2)%Z
      /\ (List.length result <= List.length [4278190080%Z])%nat
      /\ Forall (fun entry => snd entry <> 0%Z) result).
Proof.
apply (quantizers_return 6 Spec.random_zero QuantizerWu.new [4278190080%Z] 2).
- lia.
- cbn. lia.
Defined.

(** X28: on the bytes of an image, [sourceColorFromImageBytes] returns
    what it returns on the image without its translucent pixels (alpha
    below 255), and it always returns a color, never [undefined]: 384
    iterations of the loop of [createBoxes] are enough. *)
Theorem sourceColor_total (fuel : nat) (random : nat -> R)
  (image : list (Z * Z * Z * Z)) :
(384 <= fuel)%nat ->
sourceColorFromImageBytes fuel random (Notions.bytes_of image)
= sourceColorFromImageBytes fuel random (Notions.bytes_of (Notions.solid image))
/\ exists color : Z,
     sourceColorFromImageBytes fuel random (Notions.bytes_of image)
     = Some (Ok (Some color)).
Proof.
intros Hfuel.
unfold sourceColorFromImageBytes. cbv zeta.
rewrite !pixels_of_image, solid_solid. split; [reflexivity|].
destruct (Celebi_quantize_ok fuel random
            (Notions.colors_of (Notions.solid image)) 128)
  as (result & E & _); [lia|cbn; lia|].
rewrite E.
pose proof (score_nonempty result None) as Hne.
destruct (Score.score result None) as [|color ranked]; [congruence|].
exists color. reflexivity.
Qed.

Lemma sourceColor_total_witness :
sourceColorFromImageBytes 384 Spec.random_zero
  (Notions.bytes_of [(18, 52, 86, 255); (1, 2, 3, 0)]%Z)
= sourceColorFromImageBytes 384 Spec.random_zero
    (Notions.bytes_of (Notions.solid [(18, 52, 86, 255); (1, 2, 3, 0)]%Z))
/\ exists color : Z,
     sourceColorFromImageBytes 384 Spec.random_zero
       (Notions.bytes_of [(18, 52, 86, 255); (1, 2, 3, 0)]%Z)
     = Some (Ok (Some color)).
Proof.
apply (sourceColor_total 384 Spec.random_zero
         [(18, 52, 86, 255); (1, 2, 3, 0)]%Z).
lia.
Defined.

(** ** The plane of a luminance *)

Lemma isBounded_iff (x : R) : HctSolver.isBounded x = true <-> 0 <= x <= 100.
Proof.
unfold HctSolver.isBounded. rewrite andb_true_iff, !le_true_iff. reflexivity.
Qed.

Lemma nthVertex_cases (y : R) (n : nat) :
Notions.no_vertex (HctSolver.nthVertex y n)
\/ (Notions.luminance (HctSolver.nthVertex y n) = y
    /\ Notions.inside_cube (HctSolver.nthVertex y n)).
Proof.
unfold HctSolver.nthVertex. cbv zeta.
unfold HctSolver.Y_FROM_LINRGB. cbn [at3].
assert (HA : forall c : bool, 0 <= (if c then 0 else 100) <= 100)
  by (intros []; lra).
pose proof (HA (n mod 4 <=? 1)%nat) as Ha.
pose proof (HA (n mod 2 =? 0)%nat) as Hb.
set (coordA := if (n mod 4 <=? 1)%nat then 0 else 100) in *.
set (coordB := if (n mod 2 =? 0)%nat then 0 else 100) in *.
assert (Hnone : Notions.no_vertex (-1, -1, -1)) by (unfold Notions.no_vertex; cbn; auto).
destruct (n <? 4)%nat; [|destruct (n <? 8)%nat];
  match goal with
  | |- context [HctSolver.isBounded ?x] =>
      destruct (HctSolver.isBounded x) eqn:E;
      [apply isBounded_iff in E; right|left; exact Hnone]
  end;
  (split; [unfold Notions.luminance, HctSolver.Y_FROM_LINRGB; cbn [at3]; field; lra
          |unfold Notions.inside_cube; cbn [at3]; lra]).
Qed.

Lemma luminance_lerpPoint (source : vec3) (t : R) (target : vec3) :
Notions.luminance (HctSolver.lerpPoint source t target)
= Notions.luminance source + (Notions.luminance target - Notions.luminance source) * t.
Proof.
unfold Notions.luminance, HctSolver.lerpPoint. destruct source as [[s0 s1] s2].
destruct target as [[t0 t1] t2]. cbn [at3]. ring.
Qed.

Lemma luminance_setCoordinate (source : vec3) (coordinate : R) (target : vec3)
  (axis : nat) (y : R) :
Notions.luminance source = y -> Notions.luminance target = y ->
Notions.luminance (HctSolver.setCoordinate source coordinate target axis) = y.
Proof.
intros Hs Ht. unfold HctSolver.setCoordinate. cbv zeta.
rewrite luminance_lerpPoint, Hs, Ht. ring.
Qed.

Lemma luminance_midpoint (a b : vec3) (y : R) :
Notions.luminance a = y -> Notions.luminance b = y -> Notions.luminance (HctSolver.midpoint a b) = y.
Proof.
unfold Notions.luminance, HctSolver.midpoint. destruct a as [[a0 a1] a2].
destruct b as [[b0 b1] b2]. cbn [at3]. intros Ha Hb. lra.
Qed.

Lemma bisectToLimit_refine_ok (y targetHue : R) (axis : nat) (rounds : nat) :
forall st : HctSolver.LimitState,
Notions.luminance (HctSolver.lim_left st) = y ->
Notions.luminance (HctSolver.lim_right st) = y ->
Notions.luminance (HctSolver.lim_left
             (HctSolver.bisectToLimit_refine rounds targetHue axis st)) = y
/\ Notions.luminance (HctSolver.lim_right
                (HctSolver.bisectToLimit_refine rounds targetHue axis st)) = y.
Proof.
induction rounds as [|rounds IH]; intros st Hl Hr.
- cbn. auto.
- cbn [HctSolver.bisectToLimit_refine]. cbv zeta.
  destruct (_ <=? 1)%Z; [auto|].
  destruct (HctSolver.areInCyclicOrder _ _ _); apply IH; cbn;
    try assumption; apply luminance_setCoordinate; assumption.
Qed.

Lemma bisectToLimit_axis_ok (y targetHue : R) (st : vec3 * R * vec3)
  (axis : nat) :
Notions.luminance (fst (fst st)) = y -> Notions.luminance (snd st) = y ->
Notions.luminance (fst (fst (HctSolver.bisectToLimit_axis targetHue st axis))) = y
/\ Notions.luminance (snd (HctSolver.bisectToLimit_axis targetHue st axis)) = y.
Proof.
intros Hl Hr. unfold HctSolver.bisectToLimit_axis. cbv zeta.
destruct (negb _); [|auto].
destruct (if _ <? _ then _ else _) as [lPlane rPlane].
cbn [fst snd]. apply bisectToLimit_refine_ok; cbn; assumption.
Qed.

Lemma bisectToLimit_axes_ok (y targetHue : R) (st : vec3 * R * vec3) :
Notions.luminance (fst (fst st)) = y -> Notions.luminance (snd st) = y ->
Notions.luminance (fst (fst (fold_left (HctSolver.bisectToLimit_axis targetHue)
                               (seq 0 3) st))) = y
/\ Notions.luminance (snd (fold_left (HctSolver.bisectToLimit_axis targetHue)
                             (seq 0 3) st)) = y.
Proof.
intros Hl Hr. cbn [seq fold_left].
destruct (bisectToLimit_axis_ok y targetHue st 0 Hl Hr) as [Hl1 Hr1].
destruct (bisectToLimit_axis_ok y targetHue _ 1 Hl1 Hr1) as [Hl2 Hr2].
exact (bisectToLimit_axis_ok y targetHue _ 2 Hl2 Hr2).
Qed.

(** *** Inside the gamut a vertex is always found *)

Lemma segment_step_inv (y targetHue : R) (st : HctSolver.SegmentState) (n : nat) :
Notions.segment_inv y st ->
Notions.segment_inv y (HctSolver.bisectToSegment_step y targetHue st n).
Proof.
intros Hst. unfold HctSolver.bisectToSegment_step. cbv zeta.
destruct (at3 (HctSolver.nthVertex y n) 0 <? 0) eqn:Eneg; [exact Hst|].
apply lt_false_iff in Eneg.
assert (Hmid : Notions.luminance (HctSolver.nthVertex y n) = y).
{ destruct (nthVertex_cases y n) as [[H0 _] | [H _]]; [lra|exact H]. }
destruct (negb (HctSolver.seg_initialized st)) eqn:Einit.
- right. split; exact Hmid.
- apply negb_false_iff in Einit.
  destruct Hst as [[Hf _] | [Hl Hr]]; [congruence|].
  destruct (_ || _); [|right; split; assumption].
  destruct (HctSolver.areInCyclicOrder _ _ _); right; split; cbn; assumption.
Qed.

Lemma segment_step_found (y targetHue : R) (st : HctSolver.SegmentState)
  (n : nat) :
Notions.segment_inv y st ->
(Notions.on_plane y st \/ 0 <= at3 (HctSolver.nthVertex y n) 0) ->
Notions.on_plane y (HctSolver.bisectToSegment_step y targetHue st n).
Proof.
intros Hinv Hcase. unfold HctSolver.bisectToSegment_step. cbv zeta.
destruct (at3 (HctSolver.nthVertex y n) 0 <? 0) eqn:Eneg.
- apply lt_true_iff in Eneg. destruct Hcase as [H | H]; [exact H|lra].
- apply lt_false_iff in Eneg.
  assert (Hmid : Notions.luminance (HctSolver.nthVertex y n) = y).
  { destruct (nthVertex_cases y n) as [[H0 _] | [H _]]; [lra|exact H]. }
  destruct (negb (HctSolver.seg_initialized st)) eqn:Einit.
  + split; exact Hmid.
  + apply negb_false_iff in Einit.
    destruct Hinv as [[Hf _] | [Hl Hr]]; [congruence|].
    destruct (_ || _); [|split; assumption].
    destruct (HctSolver.areInCyclicOrder _ _ _); split; cbn; assumption.
Qed.

Lemma segment_fold_inv (y targetHue : R) (l : list nat) :
forall st, Notions.segment_inv y st ->
Notions.segment_inv y (fold_left (HctSolver.bisectToSegment_step y targetHue) l st).
Proof.
induction l as [|n l IH]; intros st H; [exact H|].
cbn [fold_left]. apply IH. apply segment_step_inv. exact H.
Qed.

Lemma segment_fold_keep (y targetHue : R) (l : list nat) :
forall st, Notions.on_plane y st ->
Notions.on_plane y (fold_left (HctSolver.bisectToSegment_step y targetHue) l st).
Proof.
induction l as [|n l IH]; intros st H; [exact H|].
cbn [fold_left]. apply IH. apply segment_step_found; [right; exact H|left; exact H].
Qed.

Lemma segment_fold_found (y targetHue : R) (before after : list nat) (n : nat)
  (st : HctSolver.SegmentState) :
Notions.segment_inv y st ->
0 <= at3 (HctSolver.nthVertex y n) 0 ->
Notions.on_plane y (fold_left (HctSolver.bisectToSegment_step y targetHue)
                      (before ++ n :: after) st).
Proof.
intros Hinv Hn. rewrite fold_left_app. cbn [fold_left].
apply segment_fold_keep. apply segment_step_found.
- apply segment_fold_inv. exact Hinv.
- right. exact Hn.
Qed.

Lemma vertex_4 (y : R) : 0 <= y <= 71.52 -> 0 <= at3 (HctSolver.nthVertex y 4) 0.
Proof.
intros H. unfold HctSolver.nthVertex. cbv zeta.
change (4 <? 4)%nat with false. change (4 <? 8)%nat with true.
change (4 mod 4 <=? 1)%nat with true. change (4 mod 2 =? 0)%nat with true.
cbv iota. unfold HctSolver.Y_FROM_LINRGB. cbn [at3].
destruct (HctSolver.isBounded _) eqn:E; [cbn [at3]; lra|].
exfalso. assert (HctSolver.isBounded ((y - 0 * 0.2126 - 0 * 0.0722) / 0.7152) = true).
{ apply isBounded_iff. lra. }
congruence.
Qed.

Lemma vertex_7 (y : R) : 28.48 <= y <= 100 -> 0 <= at3 (HctSolver.nthVertex y 7) 0.
Proof.
intros H. unfold HctSolver.nthVertex. cbv zeta.
change (7 <? 4)%nat with false. change (7 <? 8)%nat with true.
change (7 mod 4 <=? 1)%nat with false. change (7 mod 2 =? 0)%nat with false.
cbv iota. unfold HctSolver.Y_FROM_LINRGB. cbn [at3].
destruct (HctSolver.isBounded _) eqn:E; [cbn [at3]; lra|].
exfalso.
assert (HctSolver.isBounded ((y - 100 * 0.2126 - 100 * 0.0722) / 0.7152) = true).
{ apply isBounded_iff. lra. }
congruence.
Qed.

Lemma bisectToSegment_found (y targetHue : R) :
0 <= y <= 100 ->
Notions.luminance (fst (HctSolver.bisectToSegment y targetHue)) = y
/\ Notions.luminance (snd (HctSolver.bisectToSegment y targetHue)) = y.
Proof.
intros Hy. unfold HctSolver.bisectToSegment. cbv zeta. cbn [fst snd].
assert (Hinv : Notions.segment_inv y (HctSolver.mkSegmentState (-1, -1, -1)
                                (-1, -1, -1) 0 0 false true)).
{ left. cbn. unfold Notions.no_vertex. cbn. auto. }
destruct (Rle_dec y 71.52) as [Hle | Hgt].
- change (seq 0 12) with ([0; 1; 2; 3] ++ 4 :: [5; 6; 7; 8; 9; 10; 11])%nat.
  apply segment_fold_found; [exact Hinv|apply vertex_4; lra].
- change (seq 0 12) with ([0; 1; 2; 3; 4; 5; 6] ++ 7 :: [8; 9; 10; 11])%nat.
  apply segment_fold_found; [exact Hinv|apply vertex_7; lra].
Qed.

Lemma bisectToLimit_plane (y targetHue : R) (segment : vec3 * vec3) :
Notions.luminance (fst segment) = y /\ Notions.luminance (snd segment) = y ->
let st := fold_left (HctSolver.bisectToLimit_axis targetHue) (seq 0 3)
            (fst segment, HctSolver.hueOf (fst segment), snd segment) in
Notions.luminance (HctSolver.midpoint (fst (fst st)) (snd st)) = y.
Proof.
intros [Hl Hr] st.
destruct (bisectToLimit_axes_ok y targetHue
            (fst segment, HctSolver.hueOf (fst segment), snd segment)
            Hl Hr) as [H1 H2].
apply luminance_midpoint; assumption.
Qed.

(** X29: for every luminance [y] in [0, 100] and every hue, the point of
    linear RGB that [bisectToLimit] returns has exactly the luminance [y]:
    a vertex of the cube on the plane of [y] is always found, and every
    later step stays on the plane. *)
Theorem bisectToLimit_on_plane (y targetHue : R) :
0 <= y <= 100 ->
Notions.luminance (HctSolver.bisectToLimit y targetHue) = y.
Proof.
intros Hy.
exact (bisectToLimit_plane y targetHue (HctSolver.bisectToSegment y targetHue)
         (bisectToSegment_found y targetHue Hy)).
Qed.

Lemma bisectToLimit_on_plane_witness :
Notions.luminance (HctSolver.bisectToLimit 50 0) = 50.
Proof. apply bisectToLimit_on_plane. lra. Defined.

(** ** Chromatic adaptation *)

Lemma signum_pos (x : R) : 0 < x -> signum x = 1.
Proof. intros H. unfold signum. cmp_cases; lra. Qed.

Lemma signum_neg (x : R) : x < 0 -> signum x = -1.
Proof. intros H. unfold signum. cmp_cases; lra. Qed.

Lemma Rpower_inverse (x : R) : 0 < x -> Rpower (Rpower x 0.42) (1 / 0.42) = x.
Proof.
intros H. rewrite Rpower_mult. replace (0.42 * (1 / 0.42)) with 1 by (field; lra).
apply Rpower_1. exact H.
Qed.

Lemma adapted_magnitude (af : R) :
0 < af ->
let adaptedAbs := 400 * af / (af + 27.13) in
0 < adaptedAbs < 400 /\ 27.13 * adaptedAbs / (400 - adaptedAbs) = af.
Proof.
intros H adaptedAbs.
assert (Hd : 0 < af + 27.13) by lra.
assert (Hinv : 0 < / (af + 27.13)) by (apply Rinv_0_lt_compat; exact Hd).
assert (E : 400 - adaptedAbs = 400 * 27.13 / (af + 27.13))
  by (unfold adaptedAbs; field; lra).
assert (Hpos : 0 < adaptedAbs) by (unfold adaptedAbs, Rdiv; nra).
assert (Hlt : 0 < 400 - adaptedAbs) by (rewrite E; unfold Rdiv; nra).
split; [lra|]. rewrite E. unfold adaptedAbs. field. lra.
Qed.

(** X30: [inverseChromaticAdaptation] undoes [chromaticAdaptation] on
    every number. *)
Theorem chromaticAdaptation_inverse (component : R) :
HctSolver.inverseChromaticAdaptation (HctSolver.chromaticAdaptation component)
= component.
Proof.
unfold HctSolver.chromaticAdaptation. cbv zeta.
destruct (Rtotal_order component 0) as [Hneg | [-> | Hpos]].
- assert (Habs : Math_abs component = - component)
    by (unfold Math_abs; apply Rabs_left; exact Hneg).
  rewrite Habs, Math_pow_pos by lra. rewrite signum_neg by exact Hneg.
  set (af := Rpower (- component) 0.42).
  assert (Haf : 0 < af) by (unfold af, Rpower; apply exp_pos).
  destruct (adapted_magnitude af Haf) as [Hm Hb].
  unfold HctSolver.inverseChromaticAdaptation. cbv zeta.
  replace (-1 * 400 * af / (af + 27.13)) with (- (400 * af / (af + 27.13)))
    by (field; lra).
  assert (Ha : Math_abs (- (400 * af / (af + 27.13)))
               = 400 * af / (af + 27.13)).
  { unfold Math_abs. rewrite Rabs_left by lra. lra. }
  rewrite Ha, Hb, signum_neg by lra.
  unfold Math_max. rewrite Rmax_right by lra.
  rewrite Math_pow_pos by exact Haf. unfold af.
  rewrite Rpower_inverse by lra. lra.
- unfold Math_abs. rewrite Rabs_R0.
  assert (E0 : Math_pow 0 0.42 = 0).
  { unfold Math_pow. destruct (Rlt_dec 0 0); [lra|].
    destruct (Req_dec_T 0.42 0); [lra|reflexivity]. }
  rewrite E0.
  replace (signum 0 * 400 * 0 / (0 + 27.13)) with 0 by (field; lra).
  unfold HctSolver.inverseChromaticAdaptation. cbv zeta.
  unfold Math_abs. rewrite Rabs_R0.
  assert (Es : signum 0 = 0) by (unfold signum; cmp_cases; lra).
  rewrite Es. lra.
- assert (Habs : Math_abs component = component)
    by (unfold Math_abs; apply Rabs_right; lra).
  rewrite Habs, Math_pow_pos by lra. rewrite signum_pos by exact Hpos.
  set (af := Rpower component 0.42).
  assert (Haf : 0 < af) by (unfold af, Rpower; apply exp_pos).
  destruct (adapted_magnitude af Haf) as [Hm Hb].
  unfold HctSolver.inverseChromaticAdaptation. cbv zeta.
  replace (1 * 400 * af / (af + 27.13)) with (400 * af / (af + 27.13))
    by (field; lra).
  assert (Ha : Math_abs (400 * af / (af + 27.13)) = 400 * af / (af + 27.13)).
  { unfold Math_abs. apply Rabs_right. lra. }
  rewrite Ha, Hb, signum_pos by lra.
  unfold Math_max. rewrite Rmax_right by lra.
  rewrite Math_pow_pos by exact Haf. unfold af.
  rewrite Rpower_inverse by lra. lra.
Qed.
